(** * calcam/raytrace.py: ray casting and ray-data queries

    A shallow embedding of [RayCaster.raycast_pixels], [RayData.save],
    [RayData.load], [RayData.get_ray_lengths] and
    [RayData.get_ray_directions], with the constructors and setters
    around them, and properties of them: those the specification states
    (C1 to C10) and further ones the code shows (X1 and on).

    Numbers are IEEE 754 binary64 values ([spec_float] at precision 53,
    exponent bound 1024), arrays are a shape with the elements listed in
    column-major (Fortran) index order, exceptions are an error result. *)

From Stdlib Require Import ZArith Lia Bool List Ascii String.
From Stdlib Require Import Floats.SpecFloat.
From stdpp Require Import base option list gmap strings.

Local Open Scope Z_scope.
Local Open Scope nat_scope.

(** ** Floating-point numbers (numpy float64) *)

Module F64.

Definition float : Type := spec_float.

Definition prec : Z := 53.
Definition emax : Z := 1024.

Definition nan : float := S754_nan.
Definition zero : float := S754_zero false.
Definition inf : float := S754_infinity false.

Definition add : float -> float -> float := SFadd prec emax.
Definition sub : float -> float -> float := SFsub prec emax.
Definition mul : float -> float -> float := SFmul prec emax.
Definition div : float -> float -> float := SFdiv prec emax.
Definition sqrt : float -> float := SFsqrt prec emax.

(** [a <= b] on floats: false as soon as one side is NaN. *)
Definition leb : float -> float -> bool := SFleb.
Definition ltb : float -> float -> bool := SFltb.

(** [np.isnan] *)
Definition isnan (f : float) : bool :=
  match f with S754_nan => true | _ => false end.

(** [np.isfinite]: neither NaN nor an infinity. *)
Definition isfinite (f : float) : bool :=
  match f with S754_zero _ | S754_finite _ _ _ => true | _ => false end.

(** The float64 nearest to an integer. *)
Definition of_Z (z : Z) : float := binary_normalize prec emax z 0 false.

(** [x ** 2] on a float array is numpy's [square], [x * x]. *)
Definition square (f : float) : float := mul f f.

(** Storage as netCDF 'f4': the value rounded to binary32, and written
    again as the float64 it is (every binary32 number is one). *)
Definition to_f32 (f : float) : float :=
  match f with
  | S754_finite s m e =>
      match binary_round 24 128 s m e with
      | S754_finite s' m' e' => binary_round prec emax s' m' e'
      | r => r
      end
  | _ => f
  end.

(** Storage as netCDF 'i4': the C conversion of a double to a 32-bit
    integer, which truncates toward zero.  NaN, the infinities and values
    out of range have no defined result in C; the x86-64 conversion
    instruction yields the most negative integer for them. *)
Definition trunc (f : float) : option Z :=
  match f with
  | S754_zero _ => Some 0%Z
  | S754_finite s m e =>
      let a := Z.shiftl (Zpos m) e in Some (if s then Z.opp a else a)
  | _ => None
  end.

Definition int32_min : Z := (- 2 ^ 31)%Z.
Definition int32_max : Z := (2 ^ 31 - 1)%Z.

Definition in_int32 (z : Z) : bool :=
  (int32_min <=? z)%Z && (z <=? int32_max)%Z.

Definition to_i32 (f : float) : Z :=
  match trunc f with
  | Some z => if in_int32 z then z else int32_min
  | None => int32_min
  end.

(** *** The order of the numbers

    [leb] compares through [SFcompare]; on the values that are not NaN it
    is the lexicographic order of the [key] below, hence a total preorder. *)

Definition key (f : float) : Z * Z * Z :=
  match f with
  | S754_infinity true => (-2, 0, 0)%Z
  | S754_finite true m e => (-1, - e, - Zpos m)%Z
  | S754_zero _ => (0, 0, 0)%Z
  | S754_finite false m e => (1, e, Zpos m)%Z
  | S754_infinity false => (2, 0, 0)%Z
  | S754_nan => (3, 0, 0)%Z
  end.

Definition key_le (a b : Z * Z * Z) : Prop :=
  let '(c1, e1, m1) := a in
  let '(c2, e2, m2) := b in
  (c1 < c2 \/ (c1 = c2 /\ (e1 < e2 \/ (e1 = e2 /\ m1 <= m2))))%Z.

Lemma leb_key a b :
  isnan a = false -> isnan b = false ->
  leb a b = true <-> key_le (key a) (key b).
Proof.
  intros Ha Hb. unfold leb, SFleb, SFcompare.
  destruct a as [sa|sa| |sa ma ea], b as [sb|sb| |sb mb eb];
    try discriminate; try destruct sa; try destruct sb; simpl;
    try (split; [intros _; lia | reflexivity]);
    try (split; [discriminate | lia]).
  - (* two negative numbers *)
    destruct (Z.compare_spec ea eb) as [E|E|E]; simpl.
    + subst. change (Pos.compare_cont Eq ma mb) with (Pos.compare ma mb).
      destruct (Pos.compare_spec ma mb) as [F|F|F]; simpl;
        (split; [intros H; try discriminate; lia | intros H; try reflexivity; lia]).
    + split; [discriminate | lia].
    + split; [intros _; lia | reflexivity].
  - (* two positive numbers *)
    destruct (Z.compare_spec ea eb) as [E|E|E]; simpl.
    + subst. change (Pos.compare_cont Eq ma mb) with (Pos.compare ma mb).
      destruct (Pos.compare_spec ma mb) as [F|F|F]; simpl;
        (split; [intros H; try discriminate; lia | intros H; try reflexivity; lia]).
    + split; [intros _; lia | reflexivity].
    + split; [discriminate | lia].
Qed.

Lemma leb_nan_l b : leb nan b = false.
Proof. reflexivity. Qed.

Lemma leb_nan_r a : leb a nan = false.
Proof. now destruct a. Qed.

Lemma leb_true_not_nan a b :
  leb a b = true -> isnan a = false /\ isnan b = false.
Proof.
  destruct a, b; try discriminate; auto.
Qed.

Lemma leb_refl a : isnan a = false -> leb a a = true.
Proof.
  intros Ha. apply leb_key; try assumption.
  unfold key_le. destruct (key a) as [[c e] m]. lia.
Qed.

Lemma leb_trans a b c : leb a b = true -> leb b c = true -> leb a c = true.
Proof.
  intros Hab Hbc.
  destruct (leb_true_not_nan _ _ Hab) as [Ha Hb].
  destruct (leb_true_not_nan _ _ Hbc) as [_ Hc].
  apply leb_key in Hab; try assumption. apply leb_key in Hbc; try assumption.
  apply leb_key; try assumption.
  unfold key_le in *.
  destruct (key a) as [[c1 e1] m1], (key b) as [[c2 e2] m2], (key c) as [[c3 e3] m3].
  lia.
Qed.

Lemma leb_total a b :
  isnan a = false -> isnan b = false -> leb a b = true \/ leb b a = true.
Proof.
  intros Ha Hb.
  assert (key_le (key a) (key b) \/ key_le (key b) (key a)) as [H|H].
  { unfold key_le. destruct (key a) as [[c1 e1] m1], (key b) as [[c2 e2] m2]. lia. }
  - left. now apply leb_key.
  - right. now apply leb_key.
Qed.

Lemma leb_inf a : isnan a = false -> leb a inf = true.
Proof. destruct a as [s|s| |s m e]; try discriminate; now destruct s. Qed.

Lemma inf_leb a : leb inf a = true -> a = inf.
Proof.
  destruct a as [s|s| |s m e]; try discriminate; destruct s; try discriminate.
  reflexivity.
Qed.

(** *** NaN through the arithmetic *)

Lemma sub_nan_l b : sub nan b = nan.
Proof. reflexivity. Qed.

Lemma sub_nan_r a : sub a nan = nan.
Proof. now destruct a. Qed.

Lemma add_nan_l b : add nan b = nan.
Proof. reflexivity. Qed.

Lemma add_nan_r a : add a nan = nan.
Proof. now destruct a. Qed.

Lemma square_nan : square nan = nan.
Proof. reflexivity. Qed.

Lemma sqrt_nan : sqrt nan = nan.
Proof. reflexivity. Qed.

Lemma div_nan_l b : div nan b = nan.
Proof. reflexivity. Qed.

Lemma div_nan_r a : div a nan = nan.
Proof. now destruct a. Qed.

(** A number minus itself is [+0], or NaN when it is not finite. *)
Lemma sub_diag a : sub a a = zero \/ sub a a = nan.
Proof.
  destruct a as [s|s| |s m e].
  - left. now destruct s.
  - right. now destruct s.
  - now right.
  - left. unfold sub, SFsub. rewrite Z.sub_diag. reflexivity.
Qed.

(** *** Integers survive the storage as 'i4'

    A 32-bit integer is a float64 exactly, and cutting that float down
    to an integer gives the integer back. *)

Lemma digits2_pos_lower (m : positive) :
  (2 ^ (Zpos (digits2_pos m) - 1) <= Zpos m)%Z.
Proof.
  induction m as [m IH|m IH|]; simpl digits2_pos.
  - rewrite Pos2Z.inj_succ.
    replace (Z.succ (Zpos (digits2_pos m)) - 1)%Z
      with (Z.succ (Zpos (digits2_pos m) - 1))%Z by lia.
    rewrite Z.pow_succ_r by lia. lia.
  - rewrite Pos2Z.inj_succ.
    replace (Z.succ (Zpos (digits2_pos m)) - 1)%Z
      with (Z.succ (Zpos (digits2_pos m) - 1))%Z by lia.
    rewrite Z.pow_succ_r by lia. lia.
  - simpl. lia.
Qed.

Lemma iter_xO_value (m k : positive) :
  Zpos (Pos.iter xO m k) = (Zpos m * 2 ^ Zpos k)%Z.
Proof.
  induction k as [|k IH] using Pos.peano_ind.
  - simpl. lia.
  - rewrite Pos.iter_succ, Pos2Z.inj_xO, IH, Pos2Z.inj_succ, Z.pow_succ_r by lia.
    lia.
Qed.

Lemma iter_xO_digits (m k : positive) :
  Zpos (digits2_pos (Pos.iter xO m k)) = (Zpos (digits2_pos m) + Zpos k)%Z.
Proof.
  induction k as [|k IH] using Pos.peano_ind.
  - simpl. lia.
  - rewrite Pos.iter_succ. simpl digits2_pos.
    rewrite Pos2Z.inj_succ, IH, Pos2Z.inj_succ. lia.
Qed.

(** The float64 of a positive integer below [2 ^ 52], spelled out. *)
Lemma binary_round_small (s : bool) (m k : positive) :
  (Zpos (digits2_pos m) + Zpos k = 53)%Z ->
  binary_round prec emax s m 0 = S754_finite s (Pos.iter xO m k) (Zneg k).
Proof.
  intros Hd. unfold binary_round.
  assert (Hf : fexp prec emax (Zpos (digits2_pos m) + 0) = Zneg k).
  { unfold fexp, emin, prec, emax. lia. }
  rewrite Hf. unfold shl_align. change (Z.neg k - 0)%Z with (Z.neg k).
  cbn iota beta zeta.
  unfold binary_round_aux, shr_fexp.
  cbn [Zdigits2]. rewrite iter_xO_digits.
  assert (Hz : (fexp prec emax (Zpos (digits2_pos m) + Zpos k + Zneg k) - Zneg k = 0)%Z).
  { unfold fexp, emin, prec, emax. lia. }
  rewrite Hz. cbn [shr shr_record_of_loc shr_m loc_of_shr_record round_nearest_even].
  cbn [Zdigits2]. rewrite iter_xO_digits, Hz.
  cbn [shr shr_record_of_loc shr_m].
  replace (Z.leb (Zneg k) (emax - prec)) with true; [reflexivity|].
  symmetry. apply Z.leb_le. unfold emax, prec. lia.
Qed.

Lemma trunc_of_pos (s : bool) (m : positive) :
  (Zpos m <= 2 ^ 31)%Z ->
  trunc (binary_round prec emax s m 0) = Some (if s then Zneg m else Zpos m).
Proof.
  intros Hm.
  assert (Hd : (Zpos (digits2_pos m) <= 32)%Z).
  { pose proof (digits2_pos_lower m) as Hl.
    destruct (Z.le_gt_cases (Zpos (digits2_pos m)) 32) as [H|H]; [exact H|].
    assert (2 ^ 32 <= 2 ^ (Zpos (digits2_pos m) - 1))%Z
      by (apply Z.pow_le_mono_r; lia).
    lia. }
  destruct (53 - Zpos (digits2_pos m))%Z as [|k|k] eqn:Hk; try lia.
  rewrite (binary_round_small s m k) by lia.
  unfold trunc. f_equal.
  change (Z.shiftl (Zpos (Pos.iter xO m k)) (Zneg k))
    with (Z.shiftr (Zpos (Pos.iter xO m k)) (Zpos k)).
  rewrite Z.shiftr_div_pow2, iter_xO_value, Z.div_mul by lia.
  now destruct s.
Qed.

Lemma to_i32_of_Z (z : Z) : in_int32 z = true -> to_i32 (of_Z z) = z.
Proof.
  intros Hz. unfold to_i32, of_Z, binary_normalize.
  assert (Hr : (- 2 ^ 31 <= z <= 2 ^ 31 - 1)%Z).
  { unfold in_int32, int32_min, int32_max in Hz.
    apply andb_true_iff in Hz as [H1 H2]. apply Z.leb_le in H1, H2. lia. }
  destruct z as [|m|m].
  - reflexivity.
  - rewrite trunc_of_pos by lia. now rewrite Hz.
  - rewrite trunc_of_pos by lia. now rewrite Hz.
Qed.

(** *** Square roots, and what the storage types do to NaN *)

(** A square root is NaN, or it is not below zero. *)
Lemma sqrt_nonneg v : isnan (sqrt v) = true \/ leb zero (sqrt v) = true.
Proof.
  destruct v as [s|s| |s m e]; try destruct s; simpl; auto.
  unfold sqrt, SFsqrt.
  destruct (SFsqrt_core_binary prec emax (Zpos m) e) as [[mz ez] lz].
  unfold binary_round_aux.
  destruct (shr_fexp prec emax mz ez lz) as [mrs' e'].
  destruct (shr_fexp prec emax _ e' loc_Exact) as [mrs'' e''].
  destruct (shr_m mrs'') as [|p|p]; simpl; auto.
  destruct (Z.leb e'' (emax - prec)); simpl; auto.
Qed.

(** A number that is below zero, or NaN, is below no square root. *)
Lemma sqrt_not_leb v tol : leb zero tol = false -> leb (sqrt v) tol = false.
Proof.
  intros Ht. destruct (leb (sqrt v) tol) eqn:E; [|reflexivity].
  destruct (sqrt_nonneg v) as [H|H].
  - destruct (leb_true_not_nan _ _ E). congruence.
  - rewrite (leb_trans _ _ _ H E) in Ht. discriminate.
Qed.

Lemma to_f32_nan : to_f32 nan = nan.
Proof. reflexivity. Qed.

Lemma to_i32_nan : to_i32 nan = int32_min.
Proof. reflexivity. Qed.

Lemma sub_diag_finite a : isfinite a = true -> sub a a = zero.
Proof.
  destruct a as [s|s| |s m e]; try discriminate; intros _.
  - now destruct s.
  - unfold sub, SFsub. rewrite Z.sub_diag. reflexivity.
Qed.

Lemma isfinite_not_nan a : isfinite a = true -> isnan a = false.
Proof. now destruct a. Qed.

End F64.

Abbreviation float := F64.float.

(** ** Exceptions *)

Inductive error : Type :=
| NotConfigured            (* Exception('... not set in RayCaster!') *)
| ShapeMismatch            (* ValueError('x and y arrays must be the same shape!') *)
| IndexError               (* index out of bounds / boolean index of another shape *)
| ValueError               (* numpy: cannot reshape, cannot broadcast, empty reduction *)
| TypeError                (* numpy function applied to None *)
| AxisError                (* numpy: axis out of bounds *)
| AttributeError           (* attribute read before it was set *)
| UnsupportedShape         (* Exception('Cannot save RayData with >2D x and y arrays!') *)
| NoStoredPixelCoordinates (* Exception('This ray data does not have x and y pixel indices!') *)
| NoNearbyRay              (* Exception('No ray-traced pixel within PositionTol of requested pixel!') *)
| CorruptOrIncompatible    (* missing file, variable or attribute on load *)
| OSError.                 (* the file cannot be opened for writing *)

Inductive result (A : Type) : Type :=
| Ok (a : A)
| Err (e : error).

Arguments Ok {A} a.
Arguments Err {A} e.

Definition bind {A B : Type} (m : result A) (k : A -> result B) : result B :=
  match m with
  | Ok a => k a
  | Err e => Err e
  end.

Notation "'do' x <- m ; k" := (bind m (fun x => k))
  (at level 10, x pattern, m at level 100, k at level 200).

Definition of_option {A : Type} (e : error) (o : option A) : result A :=
  match o with
  | Some a => Ok a
  | None => Err e
  end.

(** ** numpy arrays *)

(** An array is its shape and its elements in column-major index order:
    the element at index [(i1, ..., id)] of an array of shape
    [(n1, ..., nd)] is entry [i1 + n1 * (i2 + n2 * (...))] of [data].  With
    this layout [np.reshape(a, s, order='F')] keeps [data] as it is. *)
Record ndarray (A : Type) : Type := mk_ndarray {
  shape : list nat;
  data : list A
}.

Arguments mk_ndarray {A} shape data.
Arguments shape {A} n.
Arguments data {A} n.

Definition prod (s : list nat) : nat := foldr Nat.mul 1 s.

(** [np.size] *)
Definition size {A : Type} (a : ndarray A) : nat := prod (shape a).

(** The arrays numpy can build: as many elements as the shape says. *)
Definition wf {A : Type} (a : ndarray A) : Prop :=
  length (data a) = prod (shape a).

Definition shape_eqb (s t : list nat) : bool := bool_decide (s = t).

(** Elementwise application of a function. *)
Definition amap {A B : Type} (f : A -> B) (a : ndarray A) : ndarray B :=
  mk_ndarray (shape a) (map f (data a)).

(** Elementwise binary operation on two arrays of one shape.  numpy would
    broadcast arrays of compatible but different shapes; the arrays
    combined below always have the same shape, other pairs are refused. *)
Definition amap2 {A B C : Type} (f : A -> B -> C)
    (a : ndarray A) (b : ndarray B) : result (ndarray C) :=
  if shape_eqb (shape a) (shape b)
  then Ok (mk_ndarray (shape a) (zip_with f (data a) (data b)))
  else Err ValueError.

(** [np.reshape(a, s, order='F')] *)
Definition reshape_F {A : Type} (a : ndarray A) (s : list nat)
    : result (ndarray A) :=
  if Nat.eqb (prod s) (length (data a))
  then Ok (mk_ndarray s (data a))
  else Err ValueError.

(** [a[mask == 0] = v]: boolean-mask assignment, the mask has the
    array's shape. *)
Definition mask_assign {A : Type} (a : ndarray A) (mask : ndarray bool) (v : A)
    : result (ndarray A) :=
  if shape_eqb (shape a) (shape mask)
  then Ok (mk_ndarray (shape a)
             (zip_with (fun e (m : bool) => if m then e else v) (data a) (data mask)))
  else Err IndexError.

(** ** 3-vectors and N x 3 arrays *)

Record vec3 : Type := V3 { vx : float; vy : float; vz : float }.

Definition vnan : vec3 := V3 F64.nan F64.nan F64.nan.

Definition vadd (a b : vec3) : vec3 :=
  V3 (F64.add (vx a) (vx b)) (F64.add (vy a) (vy b)) (F64.add (vz a) (vz b)).

Definition vscale (k : float) (a : vec3) : vec3 :=
  V3 (F64.mul k (vx a)) (F64.mul k (vy a)) (F64.mul k (vz a)).

Definition vfinite (a : vec3) : bool :=
  F64.isfinite (vx a) && F64.isfinite (vy a) && F64.isfinite (vz a).

(** A two-dimensional array of shape [(N, 3)], as the loop of
    [raycast_pixels] reads and writes it: by rows. *)
Abbreviation rows := (list vec3).

(** The [(N, 3)] array as an [ndarray]: in column-major order the three
    columns follow each other. *)
Definition of_rows (r : rows) : ndarray float :=
  mk_ndarray [length r; 3] (map vx r ++ map vy r ++ map vz r).

(** The 3-vector at pixel [p] of an array of shape [S + (3,)]: its last
    axis is the slowest, so the three components are [size S] apart. *)
Definition vec_at (a : ndarray float) (p : nat) : option vec3 :=
  let n := length (data a) / 3 in
  if decide (p < n) then
    match data a !! p, data a !! (p + n), data a !! (p + 2 * n) with
    | Some c0, Some c1, Some c2 => Some (V3 c0 c1 c2)
    | _, _, _ => None
    end
  else None.

(** [a[ind]] and [a[ind, :] = v] on rows; out of range is an IndexError. *)
Definition get_row (a : rows) (ind : nat) : result vec3 :=
  of_option IndexError (a !! ind).

Definition set_row (a : rows) (ind : nat) (v : vec3) : result rows :=
  if decide (ind < length a) then Ok (<[ind := v]> a) else Err IndexError.

(** *** Flattening, and sums along the last axis *)

(** For an array of shape [s], the positions in [data] of its elements
    taken in row-major order, the order of [ndarray.flatten()]: the first
    index is the slowest one. *)
Fixpoint c_order (s : list nat) : list nat :=
  match s with
  | [] => [0]
  | n :: rest =>
      flat_map (fun i => map (fun r => i + n * r) (c_order rest)) (seq 0 n)
  end.

(** [a.flatten()] *)
Definition flatten {A : Type} (a : ndarray A) : ndarray A :=
  mk_ndarray [size a] (omap (fun i => data a !! i) (c_order (shape a))).

(** A shape [S + (m,)] as [(S, m)]. *)
Definition split_last (s : list nat) : option (list nat * nat) :=
  match reverse s with
  | [] => None
  | m :: r => Some (reverse r, m)
  end.

(** [k] consecutive pieces of [n] elements. *)
Fixpoint chunks {A : Type} (n k : nat) (l : list A) : list (list A) :=
  match k with
  | 0 => []
  | S k' => take n l :: chunks n k' (drop n l)
  end.

(** [np.sum(a, axis=-1)]: the last axis is the slowest one, the array is
    the sequence of its slices along it, which are added up in order. *)
Definition sum_last_axis (a : ndarray float) : result (ndarray float) :=
  match split_last (shape a) with
  | None => Err AxisError
  | Some (s, m) =>
      match chunks (prod s) m (data a) with
      | [] => Ok (mk_ndarray s (replicate (prod s) F64.zero))
      | c :: cs => Ok (mk_ndarray s (foldl (zip_with F64.add) c cs))
      end
  end.

(** [np.repeat(a.reshape(np.shape(a) + (1,)), 3, axis=-1)] *)
Definition repeat3_last {A : Type} (a : ndarray A) : ndarray A :=
  mk_ndarray (shape a ++ [3]) (data a ++ data a ++ data a).

(** [np.split(a, 3, -1)] for an array whose last axis has length 3. *)
Definition split3_last {A : Type} (a : ndarray A)
    : result (ndarray A * ndarray A * ndarray A) :=
  match split_last (shape a) with
  | Some (s, 3) =>
      let n := prod s in
      Ok (mk_ndarray (s ++ [1]) (take n (data a)),
          mk_ndarray (s ++ [1]) (take n (drop n (data a))),
          mk_ndarray (s ++ [1]) (take n (drop (2 * n) (data a))))
  | Some _ => Err ValueError
  | None => Err AxisError
  end.

(** *** Reductions *)

(** [np.minimum] and [np.fmin] on two numbers, as numpy's loops compute
    them: the first propagates NaN, the second ignores it. *)
Definition minimum (a b : float) : float :=
  if F64.leb a b || F64.isnan a then a else b.

Definition fmin (a b : float) : float :=
  if F64.leb a b || F64.isnan b then a else b.

(** [ufunc.reduce] on a flat array: a ValueError when it is empty. *)
Definition reduce (f : float -> float -> float) (l : list float) : result float :=
  match l with
  | [] => Err ValueError
  | a :: r => Ok (foldl f a r)
  end.

(** [np.min] *)
Definition np_min (l : list float) : result float := reduce minimum l.

(** [np.nanmin] (its warning on an all-NaN array is not an exception). *)
Definition nanmin (l : list float) : result float := reduce fmin l.

(** numpy's [argmin] loop: [mp] is the minimum so far, found at
    [min_ind]; [i] is the position of the head of [l]. *)
Fixpoint argmin_from (l : list float) (i : nat) (mp : float) (min_ind : nat) : nat :=
  match l with
  | [] => min_ind
  | v :: r =>
      if negb (F64.leb mp v) then
        if F64.isnan v then i else argmin_from r (S i) v i
      else argmin_from r (S i) mp min_ind
  end.

(** [np.argmin] *)
Definition argmin (l : list float) : result nat :=
  match l with
  | [] => Err ValueError
  | a :: r => Ok (if F64.isnan a then 0 else argmin_from r 1 a 0)
  end.

(** [np.nanargmin]: NaN counts as [+inf]; a ValueError on an all-NaN
    array. *)
Definition nanargmin (l : list float) : result nat :=
  do i <- argmin (map (fun v => if F64.isnan v then F64.inf else v) l);
  if forallb F64.isnan l then Err ValueError else Ok i.

(** [for i in inds], with the state the body updates. *)
Fixpoint for_loop {S : Type} (body : S -> nat -> result S)
    (inds : list nat) (st : S) : result S :=
  match inds with
  | [] => Ok st
  | i :: rest => do st' <- body st i; for_loop body rest st'
  end.

(** [a[i] = v] on a flat array. *)
Definition set_item {A : Type} (a : list A) (i : nat) (v : A) : result (list A) :=
  if decide (i < length a) then Ok (<[i := v]> a) else Err IndexError.

Definition get_item {A : Type} (a : list A) (i : nat) : result A :=
  of_option IndexError (a !! i).

(** *** Facts about arrays *)

Lemma prod_singleton n : prod [n] = n.
Proof. unfold prod. simpl. lia. Qed.

Lemma prod_app s t : prod (s ++ t) = prod s * prod t.
Proof.
  unfold prod. induction s as [|n s IH]; simpl; [lia|].
  rewrite IH. lia.
Qed.

Lemma shape_eqb_refl s : shape_eqb s s = true.
Proof. unfold shape_eqb. now apply bool_decide_eq_true. Qed.

Lemma shape_eqb_eq s t : shape_eqb s t = true -> s = t.
Proof. unfold shape_eqb. now intros H%bool_decide_eq_true. Qed.

Lemma mask_assign_ok {A : Type} (a : ndarray A) (mask : ndarray bool) (v : A) :
  shape a = shape mask ->
  mask_assign a mask v =
    Ok (mk_ndarray (shape a)
          (zip_with (fun e (m : bool) => if m then e else v) (data a) (data mask))).
Proof. intros H. unfold mask_assign. now rewrite H, shape_eqb_refl. Qed.

Lemma reshape_F_ok {A : Type} (a : ndarray A) (s : list nat) :
  length (data a) = prod s ->
  reshape_F a s = Ok (mk_ndarray s (data a)).
Proof.
  intros H. unfold reshape_F. rewrite H, Nat.eqb_refl. reflexivity.
Qed.

Lemma reshape_F_shape {A : Type} (a b : ndarray A) (s : list nat) :
  reshape_F a s = Ok b -> shape b = s /\ data b = data a /\ wf b.
Proof.
  unfold reshape_F. destruct (Nat.eqb_spec (prod s) (length (data a))) as [E|E];
    [|discriminate].
  intros [= <-]. unfold wf. simpl. auto.
Qed.

Lemma length_of_rows (r : rows) : length (data (of_rows r)) = length r * 3.
Proof. simpl. rewrite !length_app, !length_map. lia. Qed.

Lemma vec_at_of_rows (s : list nat) (r : rows) (p : nat) :
  vec_at (mk_ndarray s (data (of_rows r))) p = r !! p.
Proof.
  unfold vec_at. cbn [data]. rewrite length_of_rows, Nat.div_mul by lia.
  cbn [of_rows data].
  destruct (decide (p < length r)) as [Hp|Hp].
  - destruct (lookup_lt_is_Some_2 r p Hp) as [[a b c] Hv].
    rewrite lookup_app_l by (rewrite length_map; lia).
    rewrite lookup_app_r by (rewrite length_map; lia).
    rewrite lookup_app_l by (rewrite !length_map; lia).
    rewrite lookup_app_r by (rewrite length_map; lia).
    rewrite lookup_app_r by (rewrite !length_map; lia).
    rewrite !length_map.
    replace (p + length r - length r) with p by lia.
    replace (p + 2 * length r - length r - length r) with p by lia.
    rewrite !list_lookup_fmap, Hv. reflexivity.
  - symmetry. apply lookup_ge_None. lia.
Qed.

(** *** Facts about flattening *)

Lemma c_order_bound s : Forall (fun k => k < prod s) (c_order s).
Proof.
  induction s as [|n rest IH]; simpl.
  - repeat constructor.
  - apply Forall_forall. intros k Hk.
    apply list_elem_of_In, in_flat_map in Hk as (i & Hi & Hk).
    apply in_map_iff in Hk as (r & <- & Hr).
    apply in_seq in Hi.
    rewrite Forall_forall in IH. apply list_elem_of_In, IH in Hr.
    change (prod (n :: rest)) with (n * prod rest). nia.
Qed.

Lemma c_order_length s : length (c_order s) = prod s.
Proof.
  induction s as [|n rest IH]; simpl; [reflexivity|].
  change (prod (n :: rest)) with (n * prod rest).
  rewrite <- IH. generalize (c_order rest) as l. intros l.
  generalize 0 as k. induction n as [|n IHn]; intros k; simpl; [reflexivity|].
  rewrite length_app, length_map.
  (* the factor [n] inside the map does not matter for the count *)
  assert (H : forall (f : nat -> nat -> nat) m j,
             length (flat_map (fun i => map (f i) l) (seq j m)) = m * length l).
  { intros f m. induction m as [|m IHm]; intros j; simpl; [reflexivity|].
    now rewrite length_app, length_map, IHm. }
  rewrite (H (fun i r => i + S n * r)). reflexivity.
Qed.

(** Every position of the array occurs in the row-major enumeration. *)
Lemma c_order_complete s k : k < prod s -> k ∈ c_order s.
Proof.
  revert k. induction s as [|n rest IH]; intros k Hk.
  - unfold prod in Hk. simpl in Hk. assert (k = 0) as -> by lia. simpl. left.
  - change (prod (n :: rest)) with (n * prod rest) in Hk.
    assert (Hn : n <> 0) by (intros ->; simpl in Hk; lia).
    simpl. apply list_elem_of_In, in_flat_map.
    exists (k mod n). split.
    + apply in_seq. pose proof (Nat.mod_upper_bound k n Hn). lia.
    + apply in_map_iff. exists (k / n). split.
      * pose proof (Nat.div_mod_eq k n). lia.
      * apply list_elem_of_In, IH.
        apply Nat.Div0.div_lt_upper_bound. lia.
Qed.

Lemma length_omap_lookup {A : Type} (l : list A) (idx : list nat) :
  Forall (fun k => k < length l) idx ->
  length (omap (fun i => l !! i) idx) = length idx.
Proof.
  induction 1 as [|k idx Hk _ IH]; simpl; [reflexivity|].
  destruct (lookup_lt_is_Some_2 l k Hk) as [v ->]. simpl. f_equal. exact IH.
Qed.

Lemma length_flatten {A : Type} (a : ndarray A) :
  wf a -> length (data (flatten a)) = size a.
Proof.
  intros H. unfold flatten. cbn [data].
  rewrite length_omap_lookup, c_order_length; [reflexivity|].
  rewrite H. apply c_order_bound.
Qed.

(** An entry of an array is an entry of the flattened array. *)
Lemma flatten_complete {A : Type} (a : ndarray A) (k : nat) v :
  wf a -> data a !! k = Some v ->
  exists k', data (flatten a) !! k' = Some v.
Proof.
  intros H Hk.
  assert (Hlt : k < prod (shape a)).
  { rewrite <- H. now apply lookup_lt_is_Some_1. }
  apply list_elem_of_lookup. unfold flatten. cbn [data].
  apply list_elem_of_omap. exists k. split; [|exact Hk].
  now apply c_order_complete.
Qed.

(** *** Facts about the reductions *)

(** [np.min] returns NaN as soon as the array holds one. *)
Lemma foldl_minimum_nan (l : list float) :
  foldl minimum F64.nan l = F64.nan.
Proof. induction l as [|v l IH]; simpl; [reflexivity|exact IH]. Qed.

Lemma foldl_minimum_has_nan (l : list float) (a : float) :
  F64.nan ∈ l -> foldl minimum a l = F64.nan.
Proof.
  revert a. induction l as [|v l IH]; intros a Hin; [inversion Hin|].
  apply elem_of_cons in Hin as [<- | Hin].
  - simpl. unfold minimum at 2. rewrite F64.leb_nan_r. simpl.
    destruct (F64.isnan a) eqn:E.
    + destruct a; try discriminate. apply foldl_minimum_nan.
    + apply foldl_minimum_nan.
  - simpl. now apply IH.
Qed.

Lemma np_min_has_nan (l : list float) :
  F64.nan ∈ l -> np_min l = Ok F64.nan.
Proof.
  destruct l as [|a l]; intros Hin; [inversion Hin|].
  unfold np_min, reduce. f_equal.
  apply elem_of_cons in Hin as [<- | Hin].
  - apply foldl_minimum_nan.
  - now apply foldl_minimum_has_nan.
Qed.

(** [m] is the least of the numbers of [l] that are not NaN. *)
Definition is_least (l : list float) (m : float) : Prop :=
  F64.isnan m = false /\ m ∈ l /\
  forall v, v ∈ l -> F64.isnan v = true \/ F64.leb m v = true.

(** Entry [i] of [l] is [v], the least number of [l] that is not NaN, and
    no entry before it is as small. *)
Definition first_least (l : list float) (i : nat) (v : float) : Prop :=
  l !! i = Some v /\ F64.isnan v = false /\
  (forall (j : nat) w, l !! j = Some w -> F64.isnan w = true \/ F64.leb v w = true) /\
  (forall (j : nat) w, j < i -> l !! j = Some w -> F64.leb w v = false).

Definition all_nan (l : list float) : Prop :=
  Forall (fun v => F64.isnan v = true) l.

Lemma fmin_step (seen : list float) (acc v : float) :
  (F64.isnan acc = true /\ all_nan seen) \/ is_least seen acc ->
  (F64.isnan (fmin acc v) = true /\ all_nan (seen ++ [v])) \/
  is_least (seen ++ [v]) (fmin acc v).
Proof.
  intros [[Hn Hall] | (Hn & Hin & Hle)]; unfold fmin.
  - destruct acc; try discriminate. rewrite F64.leb_nan_l. simpl.
    destruct (F64.isnan v) eqn:Hv.
    + left. split; [reflexivity|]. apply Forall_app. split; [exact Hall|].
      now constructor.
    + right. split; [exact Hv|]. split; [apply elem_of_app; right; left|].
      intros w Hw. apply elem_of_app in Hw as [Hw | Hw].
      * left. unfold all_nan in Hall. rewrite Forall_forall in Hall. now apply Hall.
      * apply list_elem_of_singleton in Hw as ->. right. now apply F64.leb_refl.
  - right. destruct (F64.leb acc v) eqn:Hav; simpl.
    + split; [exact Hn|]. split; [apply elem_of_app; now left|].
      intros w Hw. apply elem_of_app in Hw as [Hw | Hw]; [now apply Hle|].
      apply list_elem_of_singleton in Hw as ->. now right.
    + destruct (F64.isnan v) eqn:Hv.
      * split; [exact Hn|]. split; [apply elem_of_app; now left|].
        intros w Hw. apply elem_of_app in Hw as [Hw | Hw]; [now apply Hle|].
        apply list_elem_of_singleton in Hw as ->. now left.
      * assert (Hva : F64.leb v acc = true).
        { destruct (F64.leb_total v acc Hv Hn) as [H|H]; [exact H|congruence]. }
        split; [exact Hv|]. split; [apply elem_of_app; right; left|].
        intros w Hw. apply elem_of_app in Hw as [Hw | Hw].
        -- destruct (Hle w Hw) as [H|H]; [now left|].
           right. now apply (F64.leb_trans v acc w).
        -- apply list_elem_of_singleton in Hw as ->. right. now apply F64.leb_refl.
Qed.

Lemma foldl_fmin_inv (l seen : list float) (acc : float) :
  (F64.isnan acc = true /\ all_nan seen) \/ is_least seen acc ->
  (F64.isnan (foldl fmin acc l) = true /\ all_nan (seen ++ l)) \/
  is_least (seen ++ l) (foldl fmin acc l).
Proof.
  revert seen acc. induction l as [|v l IH]; intros seen acc H.
  - simpl. now rewrite app_nil_r.
  - simpl. rewrite cons_middle, app_assoc. apply IH. now apply fmin_step.
Qed.

(** [np.nanmin] of an array that is not empty: NaN when every entry is
    NaN, the least of the other entries otherwise. *)
Lemma nanmin_spec (l : list float) :
  l <> [] ->
  exists m, nanmin l = Ok m /\
    ((F64.isnan m = true /\ all_nan l) \/ is_least l m).
Proof.
  destruct l as [|a l]; [congruence|]. intros _.
  exists (foldl fmin a l). split; [reflexivity|].
  apply (foldl_fmin_inv l [a] a).
  destruct (F64.isnan a) eqn:Ha.
  - left. split; [reflexivity|]. now repeat constructor.
  - right. split; [exact Ha|]. split; [left|].
    intros w Hw. apply list_elem_of_singleton in Hw as ->. right. now apply F64.leb_refl.
Qed.

Definition no_nan (l : list float) : Prop :=
  Forall (fun v => F64.isnan v = false) l.

Lemma argmin_from_spec (r pre : list float) (mp : float) (min_ind : nat) :
  no_nan (pre ++ r) ->
  first_least pre min_ind mp ->
  exists v, first_least (pre ++ r) (argmin_from r (length pre) mp min_ind) v.
Proof.
  revert pre mp min_ind. induction r as [|v r IH]; intros pre mp min_ind Hnn Hfl.
  - exists mp. simpl. now rewrite app_nil_r.
  - assert (Hv : F64.isnan v = false).
    { unfold no_nan in Hnn. rewrite Forall_forall in Hnn. apply Hnn.
      apply elem_of_app. right. left. }
    destruct Hfl as (Hlk & Hmp & Hall & Hfirst).
    assert (Hlt : min_ind < length pre) by now apply lookup_lt_is_Some_1.
    simpl. rewrite Hv.
    replace (S (length pre)) with (length (pre ++ [v]))
      by (rewrite length_app; simpl; lia).
    rewrite cons_middle, app_assoc in Hnn |- *.
    destruct (F64.leb mp v) eqn:Hle; simpl.
    + apply IH; [exact Hnn|].
      split; [now rewrite lookup_app_l|]. split; [exact Hmp|]. split.
      * intros j w Hj. destruct (decide (j < length pre)) as [Hjl|Hjl].
        -- rewrite lookup_app_l in Hj by exact Hjl. now apply (Hall j).
        -- rewrite lookup_app_r in Hj by lia.
           apply list_lookup_singleton_Some in Hj as [_ <-]. now right.
      * intros j w Hj Hw. rewrite lookup_app_l in Hw by lia. now apply (Hfirst j).
    + assert (Hvm : F64.leb v mp = true).
      { destruct (F64.leb_total v mp Hv Hmp) as [H|H]; [exact H|congruence]. }
      apply IH; [exact Hnn|].
      split; [rewrite lookup_app_r by lia; now rewrite Nat.sub_diag|].
      split; [exact Hv|]. split.
      * intros j w Hj. right. destruct (decide (j < length pre)) as [Hjl|Hjl].
        -- rewrite lookup_app_l in Hj by exact Hjl.
           destruct (Hall j w Hj) as [H|H].
           ++ unfold no_nan in Hnn. rewrite Forall_forall in Hnn.
              assert (F64.isnan w = false); [|congruence].
              apply Hnn. apply elem_of_app. left.
              apply list_elem_of_lookup. exists j. now rewrite lookup_app_l.
           ++ now apply (F64.leb_trans v mp w).
        -- rewrite lookup_app_r in Hj by lia.
           apply list_lookup_singleton_Some in Hj as [_ <-]. now apply F64.leb_refl.
      * intros j w Hj Hw.
        rewrite lookup_app_l in Hw by lia.
        destruct (F64.leb w v) eqn:Hwv; [|reflexivity].
        destruct (Hall j w Hw) as [H|H].
        -- destruct (F64.leb_true_not_nan _ _ Hwv). congruence.
        -- rewrite (F64.leb_trans mp w v H Hwv) in Hle. discriminate.
Qed.

(** [np.argmin] of an array without NaN: the first position of its least
    entry. *)
Lemma argmin_spec (l : list float) :
  l <> [] -> no_nan l ->
  exists i v, argmin l = Ok i /\ first_least l i v.
Proof.
  destruct l as [|a l]; [congruence|]. intros _ Hnn.
  assert (Ha : F64.isnan a = false) by now inversion Hnn.
  unfold argmin. rewrite Ha.
  destruct (argmin_from_spec l [a] a 0 Hnn) as [v Hv].
  - split; [reflexivity|]. split; [exact Ha|]. split.
    + intros j w Hj. apply list_lookup_singleton_Some in Hj as [_ <-].
      right. now apply F64.leb_refl.
    + intros j w Hj. lia.
  - exists (argmin_from l 1 a 0), v. split; [reflexivity|exact Hv].
Qed.

(** What [np.nanmin] and [np.nanargmin] find together when some entry is
    within a finite tolerance: the first position of the least entry that
    is not NaN, itself within the tolerance. *)
Lemma nearest_within (d : list float) (tol : float) :
  F64.isfinite tol = true ->
  (exists w, w ∈ d /\ F64.leb w tol = true) ->
  exists m i v,
    nanmin d = Ok m /\ F64.leb m tol = true /\
    nanargmin d = Ok i /\ first_least d i v /\ F64.leb v tol = true.
Proof.
  intros Htol (w & Hw & Hwt).
  destruct (F64.leb_true_not_nan _ _ Hwt) as [Hwn _].
  assert (Hne : d <> []) by (intros ->; inversion Hw).
  destruct (nanmin_spec d Hne) as (m & Hm & [[_ Hall] | (Hmn & Hmin & Hmle)]).
  { unfold all_nan in Hall. rewrite Forall_forall in Hall.
    rewrite (Hall w Hw) in Hwn. discriminate. }
  assert (Hmt : F64.leb m tol = true).
  { destruct (Hmle w Hw) as [H|H]; [congruence|].
    now apply (F64.leb_trans m w tol). }
  set (repl := fun v : float => if F64.isnan v then F64.inf else v).
  assert (Hnn : no_nan (map repl d)).
  { apply Forall_forall. intros u Hu. apply list_elem_of_fmap in Hu as (u' & -> & _).
    unfold repl. destruct (F64.isnan u') eqn:E; [reflexivity|exact E]. }
  destruct (argmin_spec (map repl d)) as (i & v & Hi & Hlk & Hvn & Hall & Hfirst);
    [destruct d; [congruence|discriminate] | exact Hnn |].
  assert (Hfa : forallb F64.isnan d = false).
  { apply not_true_is_false. intros H. rewrite forallb_forall in H.
    rewrite (H w) in Hwn; [discriminate|]. now apply list_elem_of_In. }
  assert (Hvm : F64.leb v m = true).
  { apply list_elem_of_lookup in Hmin as [j Hj].
    destruct (Hall j m) as [H|H]; [|congruence|exact H].
    rewrite list_lookup_fmap, Hj. simpl. unfold repl. now rewrite Hmn. }
  rewrite list_lookup_fmap in Hlk.
  destruct (d !! i) as [u|] eqn:Hu; [|discriminate]. simpl in Hlk.
  injection Hlk as Hlk.
  assert (Hun : F64.isnan u = false).
  { destruct (F64.isnan u) eqn:E; [|reflexivity]. exfalso.
    unfold repl in Hlk. rewrite E in Hlk. subst v.
    apply F64.inf_leb in Hvm. subst m.
    apply F64.inf_leb in Hmt. subst tol. discriminate. }
  assert (v = u) as -> by (unfold repl in Hlk; now rewrite Hun in Hlk).
  exists m, i, u. split; [exact Hm|]. split; [exact Hmt|]. split.
  { unfold nanargmin. fold repl. rewrite Hi. cbn [bind]. now rewrite Hfa. }
  split; [|now apply (F64.leb_trans u m tol)].
  split; [exact Hu|]. split; [exact Hun|]. split.
  - intros j x Hj. destruct (F64.isnan x) eqn:Hx; [now left|]. right.
    destruct (Hall j x) as [H|H]; [|congruence|exact H].
    rewrite list_lookup_fmap, Hj. simpl. unfold repl. now rewrite Hx.
  - intros j x Hji Hj. destruct (F64.isnan x) eqn:Hx.
    + destruct x; try discriminate. apply F64.leb_nan_l.
    + apply (Hfirst j x Hji).
      rewrite list_lookup_fmap, Hj. simpl. unfold repl. now rewrite Hx.
Qed.

(** And when no entry is within the tolerance. *)
Lemma nearest_none (d : list float) (tol : float) :
  d <> [] ->
  (forall w, w ∈ d -> F64.leb w tol = false) ->
  exists m, nanmin d = Ok m /\ F64.leb m tol = false.
Proof.
  intros Hne Hall.
  destruct (nanmin_spec d Hne) as (m & Hm & [[Hn _] | (_ & Hin & _)]).
  - exists m. split; [exact Hm|]. destruct m; try discriminate. apply F64.leb_nan_l.
  - exists m. split; [exact Hm|]. now apply Hall.
Qed.

(** *** Facts about the last axis *)

Lemma split_last_app (s : list nat) (m : nat) : split_last (s ++ [m]) = Some (s, m).
Proof.
  unfold split_last. rewrite reverse_snoc, reverse_involutive. reflexivity.
Qed.

(** The three slices of an array of shape [S + (3,)]. *)
Lemma chunks3_lookup {A : Type} (l : list A) (n p : nat) :
  p < n ->
  take n l !! p = l !! p /\
  take n (drop n l) !! p = l !! (p + n) /\
  take n (drop n (drop n l)) !! p = l !! (p + 2 * n).
Proof.
  intros Hp. rewrite !lookup_take_lt, !lookup_drop by exact Hp.
  repeat split; f_equal; lia.
Qed.

Lemma vec_at_Some (a : ndarray float) (n p : nat) v :
  length (data a) = n * 3 ->
  vec_at a p = Some v ->
  p < n /\ data a !! p = Some (vx v) /\ data a !! (p + n) = Some (vy v) /\
  data a !! (p + 2 * n) = Some (vz v).
Proof.
  intros Hl. unfold vec_at. rewrite Hl, Nat.div_mul by lia.
  destruct (decide (p < n)) as [Hp|Hp]; [|discriminate].
  destruct (data a !! p) as [c0|]; [|discriminate].
  destruct (data a !! (p + n)) as [c1|]; [|discriminate].
  destruct (data a !! (p + 2 * n)) as [c2|]; [|discriminate].
  intros [= <-]. auto.
Qed.

Lemma vec_at_intro (a : ndarray float) (n p : nat) c0 c1 c2 :
  length (data a) = n * 3 -> p < n ->
  data a !! p = Some c0 -> data a !! (p + n) = Some c1 ->
  data a !! (p + 2 * n) = Some c2 ->
  vec_at a p = Some (V3 c0 c1 c2).
Proof.
  intros Hl Hp H0 H1 H2. unfold vec_at. rewrite Hl, Nat.div_mul by lia.
  destruct (decide (p < n)); [|lia]. now rewrite H0, H1, H2.
Qed.

(** *** Loops that fill an array slot by slot *)

(** The values [f] gives for the indices of [inds], up to the first
    exception. *)
Fixpoint collect {A : Type} (f : nat -> result A) (inds : list nat)
    : result (list A) :=
  match inds with
  | [] => Ok []
  | i :: rest => do v <- f i; do vs <- collect f rest; Ok (v :: vs)
  end.

(** A loop over [range(k, k + n)] whose body stores [f i] in slot [i]
    fills these slots with the values of [f], unless [f] raises. *)
Lemma for_loop_fill {A : Type} (f : nat -> result A)
    (body : list A -> nat -> result (list A)) :
  (forall RL i, body RL i = do v <- f i; set_item RL i v) ->
  forall n k RL, k + n <= length RL ->
    for_loop body (seq k n) RL =
      do vs <- collect f (seq k n); Ok (take k RL ++ vs ++ drop (k + n) RL).
Proof.
  intros Hbody. induction n as [|n IH]; intros k RL Hlen.
  - simpl. rewrite Nat.add_0_r, take_drop. reflexivity.
  - simpl. rewrite Hbody. destruct (f k) as [v|e]; [|reflexivity].
    cbn [bind]. unfold set_item.
    destruct (decide (k < length RL)) as [Hk|Hk]; [|lia]. cbn [bind].
    rewrite IH by (rewrite length_insert; lia).
    destruct (collect f (seq (S k) n)) as [vs|e]; [|reflexivity].
    cbn [bind]. f_equal.
    rewrite (take_S_r _ k v) by now apply list_lookup_insert_eq.
    rewrite take_insert_ge by lia.
    rewrite drop_insert_lt by lia.
    rewrite <- app_assoc. simpl.
    now replace (k + S n) with (S k + n) by lia.
Qed.

Lemma collect_ok {A : Type} (f : nat -> result A) (inds : list nat) vs :
  collect f inds = Ok vs ->
  length vs = length inds /\
  forall (k i : nat), inds !! k = Some i ->
    exists v, f i = Ok v /\ vs !! k = Some v.
Proof.
  revert vs. induction inds as [|i rest IH]; intros vs H; simpl in H.
  - injection H as <-. split; [reflexivity|]. intros k i Hk. discriminate.
  - destruct (f i) as [v|e] eqn:Hf; [|discriminate]. cbn [bind] in H.
    destruct (collect f rest) as [ws|e] eqn:Hc; [|discriminate].
    injection H as <-. destruct (IH ws eq_refl) as [Hl Hall].
    split; [simpl; now rewrite Hl|].
    intros [|k] j Hk; simpl in Hk.
    + injection Hk as <-. now exists v.
    + now apply Hall.
Qed.

Lemma collect_all_ok {A : Type} (f : nat -> result A) (inds : list nat) :
  (forall i, i ∈ inds -> exists v, f i = Ok v) ->
  exists vs, collect f inds = Ok vs.
Proof.
  induction inds as [|i rest IH]; intros H; simpl.
  - now exists [].
  - destruct (H i) as [v ->]; [left|].
    destruct IH as [vs ->]; [intros j Hj; apply H; now right|].
    now exists (v :: vs).
Qed.

Lemma collect_err {A : Type} (f : nat -> result A) (inds : list nat) e :
  (forall i, i ∈ inds -> (exists v, f i = Ok v) \/ f i = Err e) ->
  (exists i, i ∈ inds /\ f i = Err e) ->
  collect f inds = Err e.
Proof.
  induction inds as [|i rest IH]; intros Hall (j & Hj & Hje).
  - inversion Hj.
  - simpl. destruct (Hall i) as [[v Hv] | Hv]; [left| |now rewrite Hv].
    rewrite Hv. cbn [bind].
    apply elem_of_cons in Hj as [-> | Hj]; [congruence|].
    rewrite IH; [reflexivity| |now exists j].
    intros k Hk. apply Hall. now right.
Qed.

(** When some entry is within the tolerance, finite or not,
    [np.nanmin] is within it and [np.nanargmin] returns a position. *)
Lemma nearest_found (d : list float) (tol : float) :
  (exists w, w ∈ d /\ F64.leb w tol = true) ->
  exists m i,
    nanmin d = Ok m /\ F64.leb m tol = true /\
    nanargmin d = Ok i /\ i < length d.
Proof.
  intros (w & Hw & Hwt).
  destruct (F64.leb_true_not_nan _ _ Hwt) as [Hwn _].
  assert (Hne : d <> []) by (intros ->; inversion Hw).
  destruct (nanmin_spec d Hne) as (m & Hm & [[_ Hall] | (Hmn & Hmin & Hmle)]).
  { unfold all_nan in Hall. rewrite Forall_forall in Hall.
    rewrite (Hall w Hw) in Hwn. discriminate. }
  assert (Hmt : F64.leb m tol = true).
  { destruct (Hmle w Hw) as [H|H]; [congruence|].
    now apply (F64.leb_trans m w tol). }
  set (repl := fun v : float => if F64.isnan v then F64.inf else v).
  assert (Hnn : no_nan (map repl d)).
  { apply Forall_forall. intros u Hu. apply list_elem_of_fmap in Hu as (u' & -> & _).
    unfold repl. destruct (F64.isnan u') eqn:E; [reflexivity|exact E]. }
  destruct (argmin_spec (map repl d)) as (i & v & Hi & Hlk & _);
    [destruct d; [congruence|discriminate] | exact Hnn |].
  assert (Hfa : forallb F64.isnan d = false).
  { apply not_true_is_false. intros H. rewrite forallb_forall in H.
    rewrite (H w) in Hwn; [discriminate|]. now apply list_elem_of_In. }
  exists m, i. split; [exact Hm|]. split; [exact Hmt|]. split.
  - unfold nanargmin. fold repl. rewrite Hi. cbn [bind]. now rewrite Hfa.
  - apply lookup_lt_Some in Hlk. now rewrite length_map in Hlk.
Qed.

(** *** More facts about the reductions *)

(** A reduction with an operation that returns one of its operands
    returns an entry of the array. *)
Lemma foldl_pick (f : float -> float -> float) (l : list float) (a : float) :
  (forall u v, f u v = u \/ f u v = v) ->
  foldl f a l = a \/ foldl f a l ∈ l.
Proof.
  intros Hf. revert a. induction l as [|v l IH]; intros a; simpl; [now left|].
  destruct (IH (f a v)) as [H|H].
  - rewrite H. destruct (Hf a v) as [-> | ->]; [now left|right; left].
  - right. now right.
Qed.

Lemma reduce_elem (f : float -> float -> float) (l : list float) (m : float) :
  (forall u v, f u v = u \/ f u v = v) ->
  reduce f l = Ok m -> m ∈ l.
Proof.
  intros Hf. destruct l as [|a l]; [discriminate|]. intros [= <-].
  destruct (foldl_pick f l a Hf) as [-> | H]; [left|now right].
Qed.

Lemma minimum_pick u v : minimum u v = u \/ minimum u v = v.
Proof. unfold minimum. destruct (F64.leb u v || F64.isnan u); auto. Qed.

Lemma fmin_pick u v : fmin u v = u \/ fmin u v = v.
Proof. unfold fmin. destruct (F64.leb u v || F64.isnan v); auto. Qed.

(** On numbers, [np.minimum] and [np.fmin] agree. *)
Lemma foldl_minimum_fmin (l : list float) (a : float) :
  F64.isnan a = false -> no_nan l ->
  foldl minimum a l = foldl fmin a l.
Proof.
  revert a. induction l as [|v l IH]; intros a Ha Hl; [reflexivity|].
  apply Forall_cons in Hl as [Hv Hl]. simpl.
  assert (E : minimum a v = fmin a v).
  { unfold minimum, fmin. now rewrite Ha, Hv. }
  rewrite E. apply IH; [|exact Hl].
  destruct (fmin_pick a v) as [-> | ->]; assumption.
Qed.

(** [np.min] of an array of numbers: its least entry. *)
Lemma np_min_spec (l : list float) :
  l <> [] -> no_nan l ->
  exists m, np_min l = Ok m /\ is_least l m.
Proof.
  intros Hne Hnn.
  destruct (nanmin_spec l Hne) as (m & Hm & [[Hn Hall] | Hleast]).
  - exfalso. destruct l as [|a l]; [congruence|].
    apply Forall_cons in Hnn as [Ha _]. apply Forall_cons in Hall as [Ha' _].
    congruence.
  - exists m. split; [|exact Hleast].
    destruct l as [|a l]; [congruence|].
    apply Forall_cons in Hnn as [Ha Hl].
    unfold np_min, nanmin, reduce in *. now rewrite foldl_minimum_fmin.
Qed.

(** What [np.min] and [np.argmin] find together in an array of numbers
    with an entry within the tolerance. *)
Lemma nearest_of_numbers (d : list float) (tol : float) :
  no_nan d ->
  (exists w, w ∈ d /\ F64.leb w tol = true) ->
  exists m i v,
    np_min d = Ok m /\ F64.leb m tol = true /\
    argmin d = Ok i /\ first_least d i v /\ F64.leb v tol = true.
Proof.
  intros Hnn (w & Hw & Hwt).
  assert (Hne : d <> []) by (intros ->; inversion Hw).
  destruct (np_min_spec d Hne Hnn) as (m & Hm & Hmn & Hmin & Hmle).
  destruct (argmin_spec d Hne Hnn) as (i & v & Hi & Hfl).
  assert (Hmt : F64.leb m tol = true).
  { destruct (Hmle w Hw) as [H|H].
    - destruct (F64.leb_true_not_nan _ _ Hwt). congruence.
    - now apply (F64.leb_trans m w tol). }
  exists m, i, v. repeat (split; [assumption|]).
  destruct Hfl as (_ & _ & Hall & _).
  apply list_elem_of_lookup in Hmin as [j Hj].
  destruct (Hall j m Hj) as [H|H]; [congruence|].
  now apply (F64.leb_trans v m tol).
Qed.

(** With no entry within the tolerance, the minimum is not within it
    either, whichever of [np.min] and [np.nanmin] computes it. *)
Lemma reduce_not_within (f : float -> float -> float) (d : list float) (tol : float) :
  (forall u v, f u v = u \/ f u v = v) ->
  d <> [] ->
  (forall w, w ∈ d -> F64.leb w tol = false) ->
  exists m, reduce f d = Ok m /\ F64.leb m tol = false.
Proof.
  intros Hf Hne Hall. destruct d as [|a l]; [congruence|].
  eexists. split; [reflexivity|]. apply Hall.
  destruct (foldl_pick f l a Hf) as [-> | H]; [left|now right].
Qed.

(** *** More facts about flattening *)

(** A last axis of length 1 does not change the row-major order. *)
Lemma c_order_snoc_1 (s : list nat) : c_order (s ++ [1]) = c_order s.
Proof.
  induction s as [|n s IH]; [reflexivity|].
  simpl. now rewrite IH.
Qed.

Lemma lookup_omap_lookup {A : Type} (l : list A) (idx : list nat) (j : nat) :
  Forall (fun k => k < length l) idx ->
  omap (fun i => l !! i) idx !! j = idx !! j ≫= (fun k => l !! k).
Proof.
  intros H. revert j. induction H as [|k idx Hk _ IH]; intros j; [reflexivity|].
  destruct (lookup_lt_is_Some_2 l k Hk) as [v Hv].
  simpl. rewrite Hv. destruct j as [|j]; simpl; [now rewrite Hv|apply IH].
Qed.

(** Entry [i] of the flattened array is the entry of the array at the
    position the row-major order has in place [i]. *)
Lemma lookup_flatten {A : Type} (a : ndarray A) (i k : nat) :
  wf a -> c_order (shape a) !! i = Some k ->
  data (flatten a) !! i = data a !! k.
Proof.
  intros H Hk. unfold flatten. cbn [data].
  rewrite lookup_omap_lookup by (rewrite H; apply c_order_bound).
  now rewrite Hk.
Qed.

Lemma c_order_lookup_lt (s : list nat) (i : nat) :
  i < prod s -> exists k, c_order s !! i = Some k /\ k < prod s.
Proof.
  intros Hi. destruct (lookup_lt_is_Some_2 (c_order s) i) as [k Hk];
    [now rewrite c_order_length|].
  exists k. split; [exact Hk|].
  pose proof (c_order_bound s) as Hb. rewrite Forall_forall in Hb.
  apply Hb. now apply list_elem_of_lookup_2 in Hk.
Qed.

(** *** Arrays of 3-vectors, elementwise *)

Definition vmap (f : float -> float) (v : vec3) : vec3 :=
  V3 (f (vx v)) (f (vy v)) (f (vz v)).

Lemma vec_at_amap (f : float -> float) (a : ndarray float) (p : nat) :
  vec_at (amap f a) p = vmap f <$> vec_at a p.
Proof.
  unfold vec_at, amap. cbn [data]. rewrite length_map.
  destruct (decide (p < length (data a) / 3)); [|reflexivity].
  rewrite !list_lookup_fmap.
  set (n := length (data a) / 3).
  destruct (data a !! p); cbn [fmap option_fmap option_map]; [|reflexivity].
  destruct (data a !! (p + n)); cbn [fmap option_fmap option_map]; [|reflexivity].
  destruct (data a !! (p + 2 * n)); reflexivity.
Qed.

(** ** Strings *)

(** [str.lower] on ASCII text. *)
Definition lower_ascii (c : ascii) : ascii :=
  let n := nat_of_ascii c in
  if (65 <=? n) && (n <=? 90) then ascii_of_nat (n + 32) else c.

Fixpoint lower (s : string) : string :=
  match s with
  | EmptyString => EmptyString
  | String c r => String (lower_ascii c) (lower r)
  end.

(** *** A list of strings as a Python literal

    [save] writes the names of the transform actions as the text of a
    Python list of single-quoted strings, and [load] hands that text to
    [eval].  [parse_list] reads the texts of that form: a bracketed,
    comma-separated sequence of single-quoted strings without escapes,
    for which it gives the list [eval] returns.  It gives [None] for
    every other text: [eval] takes any Python expression, and what it
    makes of those is not decided here. *)

Definition serialize_list (l : list string) : string :=
  ("['" ++ String.concat "','" l ++ "']")%string.

Inductive parse_state : Type :=
| Start | Open | InItem | AfterItem | AfterComma | Done.

Definition is_char (n : nat) (c : ascii) : bool := Nat.eqb (nat_of_ascii c) n.

(** The characters that cannot stand for themselves inside the quotes:
    the quote, the backslash and the line breaks; and the null character,
    which [eval] refuses anywhere in its text. *)
Definition plain_char (c : ascii) : bool :=
  negb (is_char 39 c || is_char 92 c || is_char 10 c || is_char 13 c
        || is_char 0 c).

Fixpoint plain (s : string) : bool :=
  match s with
  | EmptyString => true
  | String c r => plain_char c && plain r
  end.

Fixpoint parse_from (st : parse_state) (items : list string) (cur : string)
    (s : string) : option (list string) :=
  match s with
  | EmptyString =>
      match st with
      | Done => Some (rev items)
      | _ => None
      end
  | String c r =>
      match st with
      | Start => if is_char 91 c then parse_from Open items cur r else None
      | Open =>
          if is_char 39 c then parse_from InItem items EmptyString r
          else if is_char 93 c then parse_from Done items cur r
          else None
      | InItem =>
          if is_char 39 c then parse_from AfterItem (cur :: items) EmptyString r
          else if plain_char c
               then parse_from InItem items (cur ++ String c EmptyString)%string r
               else None
      | AfterItem =>
          if is_char 44 c then parse_from AfterComma items cur r
          else if is_char 93 c then parse_from Done items cur r
          else None
      | AfterComma =>
          if is_char 39 c then parse_from InItem items EmptyString r else None
      | Done => None
      end
  end.

Definition parse_list (s : string) : option (list string) :=
  parse_from Start [] EmptyString s.

Lemma append_cons c (s t : string) :
  (String c s ++ t)%string = String c (s ++ t)%string.
Proof. reflexivity. Qed.

Lemma append_assoc (s t u : string) :
  ((s ++ t) ++ u)%string = (s ++ (t ++ u))%string.
Proof.
  induction s as [|c s IH]; [reflexivity|].
  now rewrite !append_cons, IH.
Qed.

Lemma append_nil_r (s : string) : (s ++ "")%string = s.
Proof. induction s as [|c s IH]; [reflexivity|]. now rewrite append_cons, IH. Qed.

(** Reading a plain item up to its closing quote. *)
Lemma parse_item (a : string) : forall items cur rest,
  plain a = true ->
  parse_from InItem items cur (a ++ String "'" rest)%string =
  parse_from AfterItem ((cur ++ a)%string :: items) EmptyString rest.
Proof.
  induction a as [|c a IH]; intros items cur rest Hp.
  - cbn. now rewrite append_nil_r.
  - simpl in Hp. apply andb_true_iff in Hp as [Hc Ha].
    rewrite append_cons. cbn [parse_from].
    assert (Hq : is_char 39 c = false).
    { unfold plain_char in Hc. apply negb_true_iff in Hc.
      now repeat (apply orb_false_iff in Hc as [Hc _]). }
    rewrite Hq, Hc, IH by exact Ha.
    now rewrite append_assoc.
Qed.

Lemma parse_items (l : list string) : forall a items cur,
  plain a = true -> forallb plain l = true ->
  parse_from InItem items cur (String.concat "','" (a :: l) ++ "']")%string =
  Some (rev items ++ (cur ++ a)%string :: l).
Proof.
  induction l as [|b l IH]; intros a items cur Ha Hl.
  - cbn [String.concat]. rewrite parse_item by exact Ha. reflexivity.
  - simpl in Hl. apply andb_true_iff in Hl as [Hb Hl].
    change (String.concat "','" (a :: b :: l))
      with (a ++ "','" ++ String.concat "','" (b :: l))%string.
    rewrite !append_assoc.
    change ("','" ++ (String.concat "','" (b :: l) ++ "']"))%string
      with (String "'" (String "," (String "'"
              (String.concat "','" (b :: l) ++ "']"))))%string.
    rewrite parse_item by exact Ha. cbn [parse_from].
    change (is_char 44 ",") with true. change (is_char 39 "'") with true.
    cbn iota. rewrite IH by assumption.
    simpl. now rewrite <- app_assoc.
Qed.

(** [eval] gives back the list [save] wrote, when the list is not empty
    and its strings are plain. *)
Lemma parse_serialize_list (l : list string) :
  l <> [] -> forallb plain l = true ->
  parse_list (serialize_list l) = Some l.
Proof.
  destruct l as [|a l]; [congruence|]. intros _ Hl.
  simpl in Hl. apply andb_true_iff in Hl as [Ha Hl].
  unfold parse_list, serialize_list.
  change ("['" ++ String.concat "','" (a :: l) ++ "']")%string
    with (String "[" (String "'" (String.concat "','" (a :: l) ++ "']")))%string.
  cbn [parse_from]. change (is_char 91 "[") with true. change (is_char 39 "'") with true.
  cbn iota. now rewrite parse_items.
Qed.

(** ** The coordinate transform carried by fit results and ray data *)

(** The metadata of a [coordtransformer.CoordTransformer]; its methods
    belong to another file and are taken as parameters where they are
    called. *)
Record CoordTransformer : Type := {
  transform_actions : list string;
  x_pixels : Z;
  y_pixels : Z;
  pixel_aspectratio : float
}.

(** ** netCDF files *)

(** The values of a variable, by its type: 'f4' holds binary32 numbers,
    'i4' holds 32-bit integers. *)
Inductive nc_values : Type :=
| F4 (a : ndarray float)
| I4 (a : ndarray Z).

Record nc_variable : Type := mk_variable {
  var_dimensions : list string;
  var_values : nc_values;
  var_units : option string
}.

(** What a file written by [scipy.io.netcdf] holds. *)
Record netcdf_file : Type := mk_netcdf {
  attributes : gmap string string;
  dimensions : gmap string nat;
  variables : gmap string nc_variable
}.

(** The files on disk, by path.  [Some f] is a file holding the data set
    [f]; [None] is a file that was opened for writing and never closed:
    it exists, and what it replaced is gone. *)
Abbreviation disk := (gmap string (option netcdf_file)).

(** A Python integer stored as 'i4': its low 32 bits, as a signed
    number. *)
Definition wrap32 (z : Z) : Z :=
  ((z - F64.int32_min) mod 2 ^ 32 + F64.int32_min)%Z.

(** [var[...] = a]: the array has the shape of the variable. *)
Definition assign_f4 (dims : list nat) (a : ndarray float) : result nc_values :=
  if shape_eqb (shape a) dims then Ok (F4 (amap F64.to_f32 a)) else Err ValueError.

Definition assign_i4 (dims : list nat) (a : ndarray float) : result nc_values :=
  if shape_eqb (shape a) dims then Ok (I4 (amap F64.to_i32 a)) else Err ValueError.

(** [var[...] = None] on a variable of type 'f4': every entry is NaN. *)
Definition assign_none_f4 (dims : list nat) : nc_values :=
  F4 (mk_ndarray dims (replicate (prod dims) F64.nan)).

Definition scalar_i4 (z : Z) : nc_values := I4 (mk_ndarray [] [wrap32 z]).

Definition scalar_f4 (v : float) : nc_values := F4 (mk_ndarray [] [F64.to_f32 v]).

(** [f.variables[name].data] *)
Definition f4_data (f : netcdf_file) (name : string) : result (ndarray float) :=
  match variables f !! name with
  | Some (mk_variable _ (F4 a) _) => Ok a
  | _ => Err CorruptOrIncompatible
  end.

Definition i4_data (f : netcdf_file) (name : string) : result (ndarray Z) :=
  match variables f !! name with
  | Some (mk_variable _ (I4 a) _) => Ok a
  | _ => Err CorruptOrIncompatible
  end.

(** ** Ray data *)

Module RayData.

(** [class RayData]: every attribute starts as [None].  [P] is the element
    type of the pixel-coordinate arrays: float64 when they come from a ray
    cast, 32-bit integers when they are read back from a file. *)
Record t (P : Type) : Type := mk {
  ray_end_coords : option (ndarray float);
  ray_start_coords : option (ndarray float);
  binning : option Z;
  transform : option CoordTransformer;
  fullchip : option bool;
  x : option (ndarray P);
  y : option (ndarray P);
  ResultType : option string
}.

Arguments mk {P}.
Arguments ray_end_coords {P}.
Arguments ray_start_coords {P}.
Arguments binning {P}.
Arguments transform {P}.
Arguments fullchip {P}.
Arguments x {P}.
Arguments y {P}.
Arguments ResultType {P}.

(** [bool(self.fullchip)] *)
Definition truthy (b : option bool) : bool :=
  match b with
  | Some true => true
  | _ => false
  end.

(** The default of [PositionTol]. *)
Definition PositionTol_default : float := F64.of_Z 3.

(** [np.sqrt((xflat - xp)**2 + (yflat - yp)**2)]: the distance of every
    stored pixel to the pixel [(xp, yp)]. *)
Definition distance_to (xp yp a b : float) : float :=
  F64.sqrt (F64.add (F64.square (F64.sub a xp)) (F64.square (F64.sub b yp))).

Definition distances (xflat yflat : list float) (xp yp : float) : result (list float) :=
  if Nat.eqb (length xflat) (length yflat) then
    Ok (zip_with (distance_to xp yp) xflat yflat)
  else Err ValueError.

(** The body of the loop of [get_ray_lengths]. *)
Definition length_body (RayLength xflat yflat x y : list float)
    (PositionTol : float) (RL : list float) (pointno : nat) : result (list float) :=
  do xp <- get_item x pointno;
  do yp <- get_item y pointno;
  if F64.isnan xp || F64.isnan yp then set_item RL pointno F64.nan
  else
    do deltaR <- distances xflat yflat xp yp;
    do m <- nanmin deltaR;
    if F64.leb m PositionTol then
      do i <- nanargmin deltaR;
      do v <- get_item RayLength i;
      set_item RL pointno v
    else Err NoNearbyRay.

(** The same body when [y] was not given and [x] is a scalar: [y] is then
    the array of the one item [None].  A NaN [x] is answered before [y]
    is looked at; otherwise [np.isnan(None)] raises. *)
Definition length_body_no_y (x : list float) (RL : list float) (pointno : nat)
    : result (list float) :=
  do xp <- get_item x pointno;
  if F64.isnan xp then set_item RL pointno F64.nan else Err TypeError.

(** The first turn of the loop of [get_ray_directions] when one of [x]
    and [y] was not given: [flat - None] raises as soon as [flat] has an
    item; on an empty [flat] it is empty, and so is the array of
    distances, whose minimum raises. *)
Definition subtract_None {A : Type} (flat : list float) : result A :=
  match flat with
  | [] => Err ValueError
  | _ :: _ => Err TypeError
  end.

(** The three output arrays of the loop of [get_ray_directions]. *)
Record dirs_out : Type := mk_out {
  Xout : list float;
  Yout : list float;
  Zout : list float
}.

(** The body of the loop of [get_ray_directions]. *)
Definition direction_body (dirs_X dirs_Y dirs_Z xflat yflat x y : list float)
    (PositionTol : float) (out : dirs_out) (pointno : nat) : result dirs_out :=
  do xp <- get_item x pointno;
  do yp <- get_item y pointno;
  do deltaR <- distances xflat yflat xp yp;
  do m <- np_min deltaR;
  if F64.leb m PositionTol then
    do i <- argmin deltaR;
    do vX <- get_item dirs_X i;
    do oX <- set_item (Xout out) pointno vX;
    do vY <- get_item dirs_Y i;
    do oY <- set_item (Yout out) pointno vY;
    do vZ <- get_item dirs_Z i;
    do oZ <- set_item (Zout out) pointno vZ;
    Ok (mk_out oX oY oZ)
  else Err NoNearbyRay.

(** The value the loop of [get_ray_lengths] stores for the query pixel
    [(xp, yp)]. *)
Definition pixel_length (RayLength xflat yflat : list float)
    (PositionTol xp yp : float) : result float :=
  if F64.isnan xp || F64.isnan yp then Ok F64.nan
  else
    do deltaR <- distances xflat yflat xp yp;
    do m <- nanmin deltaR;
    if F64.leb m PositionTol then
      do i <- nanargmin deltaR;
      get_item RayLength i
    else Err NoNearbyRay.

Definition query_length (RayLength xflat yflat x y : list float)
    (PositionTol : float) (pointno : nat) : result float :=
  do xp <- get_item x pointno;
  do yp <- get_item y pointno;
  pixel_length RayLength xflat yflat PositionTol xp yp.

Lemma length_body_eq RayLength xflat yflat x y PositionTol RL pointno :
  length_body RayLength xflat yflat x y PositionTol RL pointno =
    do v <- query_length RayLength xflat yflat x y PositionTol pointno;
    set_item RL pointno v.
Proof.
  unfold length_body, query_length, pixel_length.
  destruct (get_item x pointno) as [xp|]; [|reflexivity]. cbn [bind].
  destruct (get_item y pointno) as [yp|]; [|reflexivity]. cbn [bind].
  destruct (F64.isnan xp || F64.isnan yp); [reflexivity|].
  destruct (distances xflat yflat xp yp) as [d|]; [|reflexivity]. cbn [bind].
  destruct (nanmin d) as [m|]; [|reflexivity]. cbn [bind].
  destruct (F64.leb m PositionTol); [|reflexivity].
  destruct (nanargmin d) as [i|]; [|reflexivity]. cbn [bind].
  destruct (get_item RayLength i); reflexivity.
Qed.

(** A stored pixel is at distance [w <= tol] of the query pixel. *)
Definition within (tol : float) (d : list float) : Prop :=
  exists w, w ∈ d /\ F64.leb w tol = true.

Lemma within_dec tol d : within tol d \/ (forall w, w ∈ d -> F64.leb w tol = false).
Proof.
  destruct (existsb (fun w => F64.leb w tol) d) eqn:E.
  - left. apply existsb_exists in E as (w & Hw & Hle).
    exists w. split; [now apply list_elem_of_In|exact Hle].
  - right. intros w Hw. apply not_true_is_false. intros Hle.
    assert (existsb (fun w => F64.leb w tol) d = true); [|congruence].
    apply existsb_exists. exists w. split; [now apply list_elem_of_In|exact Hle].
Qed.

Lemma within_existsb tol d :
  within tol d <-> existsb (fun w => F64.leb w tol) d = true.
Proof.
  rewrite existsb_exists. split.
  - intros (w & Hw & Hle). exists w. split; [now apply list_elem_of_In|exact Hle].
  - intros (w & Hw & Hle). exists w. split; [now apply list_elem_of_In|exact Hle].
Qed.

Lemma pixel_length_nan RayLength xflat yflat tol xp yp :
  F64.isnan xp || F64.isnan yp = true ->
  pixel_length RayLength xflat yflat tol xp yp = Ok F64.nan.
Proof. intros H. unfold pixel_length. now rewrite H. Qed.

Lemma pixel_length_within RayLength xflat yflat tol xp yp :
  length xflat = length yflat -> length RayLength = length xflat ->
  F64.isnan xp || F64.isnan yp = false ->
  F64.isfinite tol = true ->
  within tol (zip_with (distance_to xp yp) xflat yflat) ->
  exists i v r,
    first_least (zip_with (distance_to xp yp) xflat yflat) i v /\
    F64.leb v tol = true /\ RayLength !! i = Some r /\
    pixel_length RayLength xflat yflat tol xp yp = Ok r.
Proof.
  intros Hl Hr Hn Ht Hw. unfold pixel_length, distances.
  rewrite Hn, Hl, Nat.eqb_refl. cbn [bind].
  destruct (nearest_within _ tol Ht Hw) as (m & i & v & Hm & Hmt & Hi & Hfl & Hvt).
  rewrite Hm. cbn [bind]. rewrite Hmt, Hi. cbn [bind].
  assert (Hlt : i < length RayLength).
  { destruct Hfl as (Hlk & _). apply lookup_lt_Some in Hlk.
    rewrite length_zip_with in Hlk. lia. }
  destruct (lookup_lt_is_Some_2 RayLength i Hlt) as [r Hri].
  exists i, v, r. unfold get_item. now rewrite Hri.
Qed.

Lemma pixel_length_none RayLength xflat yflat tol xp yp :
  length xflat = length yflat -> 0 < length xflat ->
  F64.isnan xp || F64.isnan yp = false ->
  (forall w, w ∈ zip_with (distance_to xp yp) xflat yflat -> F64.leb w tol = false) ->
  pixel_length RayLength xflat yflat tol xp yp = Err NoNearbyRay.
Proof.
  intros Hl Hpos Hn Hall. unfold pixel_length, distances.
  rewrite Hn, Hl, Nat.eqb_refl. cbn [bind].
  destruct (nearest_none (zip_with (distance_to xp yp) xflat yflat) tol)
    as (m & Hm & Hmt); [|exact Hall|].
  { intros E. apply (f_equal length) in E. rewrite length_zip_with in E.
    simpl in E. lia. }
  rewrite Hm. cbn [bind]. now rewrite Hmt.
Qed.

(** [np.sqrt(np.sum((self.ray_end_coords - self.ray_start_coords) ** 2, axis=-1))] *)
Definition ray_lengths (self : t float) : result (ndarray float) :=
  do e <- of_option TypeError (ray_end_coords self);
  do s <- of_option TypeError (ray_start_coords self);
  do d <- amap2 F64.sub e s;
  do sm <- sum_last_axis (amap F64.square d);
  Ok (amap F64.sqrt sm).

Section Persistence.

(** [os.path.join(paths.raydata, SaveName + '.nc')] *)
Variable nc_path : string -> string.

(** Whether [netcdf_file(path, 'w')] can create or empty the file at a
    path: its directory is there and may be written to. *)
Variable openable : string -> bool.

(** [coordtransformer.CoordTransformer] belongs to another file: the
    transformer its constructor makes, and what [set_transform_actions]
    makes of a transformer and a list of names, which it may refuse, are
    parameters. *)
Variable new_transformer : CoordTransformer.

Variable set_transform_actions :
  CoordTransformer -> list string -> result CoordTransformer.

(** [eval] of a text that [parse_list] does not read: what [eval] and
    then [set_transform_actions] make of it is a parameter too. *)
Variable eval_other : CoordTransformer -> string -> result CoordTransformer.

(** What [save] puts in the file between opening and closing it.  A
    [ResultType] of [None] is written as the text of its name, and
    coordinates of [None] fill their variable with NaN. *)
Definition contents (self : t float) : result netcdf_file :=
  do T <- of_option AttributeError (transform self);
  let rt :=
    match ResultType self with
    | Some rt => rt
    | None => "None"%string
    end in
  let attrs : gmap string string :=
    <["ResultType"%string := rt]>
      (<["image_transform_actions"%string := serialize_list (transform_actions T)]>
         (<["history"%string := "CalCam_py output file"%string]> ∅)) in
  let dims : gmap string nat := <["pointdim"%string := 3]> ∅ in
  do self_x <- of_option AttributeError (RayData.x self);
  do (dims, pixel_dims) <-
    match shape self_x with
    | [v; u] =>
        Ok (<["vdim"%string := v]> (<["udim"%string := u]> dims),
            ["vdim"%string; "udim"%string])
    | [u] => Ok (<["udim"%string := size self_x]> dims, ["udim"%string])
    | _ => Err UnsupportedShape
    end;
  let pixel_shape := shape self_x in
  do rayhit <-
    match ray_end_coords self with
    | Some e => assign_f4 (pixel_shape ++ [3]) e
    | None => Ok (assign_none_f4 (pixel_shape ++ [3]))
    end;
  do raystart <-
    match ray_start_coords self with
    | Some s => assign_f4 (pixel_shape ++ [3]) s
    | None => Ok (assign_none_f4 (pixel_shape ++ [3]))
    end;
  do x <- assign_i4 pixel_shape self_x;
  do self_y <- of_option TypeError (RayData.y self);
  do y <- assign_i4 pixel_shape self_y;
  let binning :=
    match binning self with
    | Some b => scalar_i4 b
    | None => scalar_i4 0
    end in
  let dims := <["pixelsdim"%string := 2]> dims in
  let xpx := I4 (mk_ndarray [2] [wrap32 (x_pixels T); wrap32 (y_pixels T)]) in
  let pixelaspect := scalar_f4 (pixel_aspectratio T) in
  let vars : gmap string nc_variable :=
    <["image_original_pixel_aspect"%string := mk_variable [] pixelaspect None]>
      (<["image_original_shape"%string := mk_variable ["pixelsdim"%string] xpx None]>
         (<["Binning"%string := mk_variable [] binning (Some "pixels"%string)]>
            (<["PixelYLocation"%string := mk_variable pixel_dims y (Some "pixels"%string)]>
               (<["PixelXLocation"%string := mk_variable pixel_dims x (Some "pixels"%string)]>
                  (<["RayStartCoords"%string :=
                       mk_variable (pixel_dims ++ ["pointdim"%string]) raystart
                         (Some "m"%string)]>
                     (<["RayEndCoords"%string :=
                          mk_variable (pixel_dims ++ ["pointdim"%string]) rayhit
                            (Some "m"%string)]> ∅)))))) in
  Ok (mk_netcdf attrs dims vars).

(** [save]: the file is opened for writing first, which creates it or
    empties it, or fails and leaves the disk as it was; its contents
    reach the disk with [f.close()], the last statement. *)
Definition save (self : t float) (SaveName : string) (d : disk)
    : result unit * disk :=
  let path := nc_path SaveName in
  if openable path then
    let d := <[path := None]> d in
    match contents self with
    | Ok f => (Ok tt, <[path := Some f]> d)
    | Err err => (Err err, d)
    end
  else (Err OSError, d).

(** [self.transform.set_transform_actions(eval(text))], on the new
    transformer. *)
Definition set_actions_from (text : string) : result CoordTransformer :=
  match parse_list text with
  | Some actions => set_transform_actions new_transformer actions
  | None => eval_other new_transformer text
  end.

(** [load].  The transform is a new transformer, given the names that
    [eval] reads in the text of the file and then the sensor size and
    the aspect ratio of the file. *)
Definition load (SaveName : string) (d : disk) : result (t Z) :=
  do f <- match d !! nc_path SaveName with
          | Some (Some f) => Ok f
          | _ => Err CorruptOrIncompatible
          end;
  do rt <- of_option CorruptOrIncompatible (attributes f !! "ResultType"%string);
  do e <- f4_data f "RayEndCoords";
  do s <- f4_data f "RayStartCoords";
  do b <- i4_data f "Binning";
  do b <- of_option CorruptOrIncompatible (data b !! 0);
  let '(binning, fullchip) :=
    if Z.eqb b 0 then (None, false) else (Some b, true) in
  do x <- i4_data f "PixelXLocation";
  do y <- i4_data f "PixelYLocation";
  do text <- of_option CorruptOrIncompatible
               (attributes f !! "image_transform_actions"%string);
  do T <- set_actions_from text;
  do px <- i4_data f "image_original_shape";
  do x_pixels <- of_option IndexError (data px !! 0);
  do y_pixels <- of_option IndexError (data px !! 1);
  do aspect <- f4_data f "image_original_pixel_aspect";
  do aspect <- of_option CorruptOrIncompatible (data aspect !! 0);
  Ok (mk (Some e) (Some s) binning
         (Some (Build_CoordTransformer (transform_actions T) x_pixels y_pixels aspect))
         (Some fullchip) (Some x) (Some y) (Some rt)).

Lemma wrap32_small (z : Z) : F64.in_int32 z = true -> wrap32 z = z.
Proof.
  unfold F64.in_int32, wrap32, F64.int32_min, F64.int32_max.
  intros H. apply andb_true_iff in H as [H1 H2].
  apply Z.leb_le in H1, H2. rewrite Z.mod_small; lia.
Qed.

(** Ray data that [save] can write and [load] can read back: every
    attribute is set, the pixel arrays are flat or two-dimensional and
    the coordinate arrays fit them, the binning and the sensor size are
    32-bit integers, a binning is there exactly for a full-chip cast and
    is not 0, and the transform has at least one action, named plainly. *)
Definition savable (self : t float) (sx sy e s : ndarray float)
    (T : CoordTransformer) (rt : string) : Prop :=
  RayData.x self = Some sx /\ RayData.y self = Some sy /\
  ray_end_coords self = Some e /\ ray_start_coords self = Some s /\
  transform self = Some T /\ ResultType self = Some rt /\
  (length (shape sx) = 1 \/ length (shape sx) = 2) /\ wf sx /\
  shape sy = shape sx /\
  shape e = shape sx ++ [3] /\ shape s = shape sx ++ [3] /\
  match binning self with
  | Some b => F64.in_int32 b = true /\ b <> 0%Z /\ fullchip self = Some true
  | None => fullchip self = Some false
  end /\
  F64.in_int32 (x_pixels T) = true /\ F64.in_int32 (y_pixels T) = true /\
  transform_actions T <> [] /\ forallb plain (transform_actions T) = true.

(** What [load] returns for the file [save] wrote, when
    [set_transform_actions] has made the transformer [T'] of the names it
    was given. *)
Definition reloaded (self : t float) (sx sy e s : ndarray float)
    (T T' : CoordTransformer) (rt : string) : t Z :=
  mk (Some (amap F64.to_f32 e)) (Some (amap F64.to_f32 s))
     (binning self)
     (Some (Build_CoordTransformer (transform_actions T') (x_pixels T) (y_pixels T)
              (F64.to_f32 (pixel_aspectratio T))))
     (fullchip self)
     (Some (amap F64.to_i32 sx)) (Some (amap F64.to_i32 sy))
     (Some rt).

Lemma contents_savable self sx sy e s T rt :
  savable self sx sy e s T rt ->
  exists f,
    contents self = Ok f /\
    attributes f !! "ResultType"%string = Some rt /\
    attributes f !! "image_transform_actions"%string
      = Some (serialize_list (transform_actions T)) /\
    f4_data f "RayEndCoords" = Ok (amap F64.to_f32 e) /\
    f4_data f "RayStartCoords" = Ok (amap F64.to_f32 s) /\
    i4_data f "PixelXLocation" = Ok (amap F64.to_i32 sx) /\
    i4_data f "PixelYLocation" = Ok (amap F64.to_i32 sy) /\
    i4_data f "Binning"
      = Ok (mk_ndarray [] [match binning self with Some b => b | None => 0%Z end]) /\
    i4_data f "image_original_shape"
      = Ok (mk_ndarray [2] [x_pixels T; y_pixels T]) /\
    f4_data f "image_original_pixel_aspect"
      = Ok (mk_ndarray [] [F64.to_f32 (pixel_aspectratio T)]).
Proof.
  intros (Hx & Hy & He & Hs & HT & Hrt & Hrank & Wx & Sy & Se & Ss & Hb & Hxp & Hyp & _).
  unfold contents. rewrite HT, Hrt, Hx. cbn [of_option bind].
  assert (Hdims : exists dims pixel_dims,
            match shape sx with
            | [v; u] =>
                Ok (<["vdim"%string := v]>
                      (<["udim"%string := u]> (<["pointdim"%string := 3]> ∅)),
                    ["vdim"%string; "udim"%string])
            | [u] => Ok (<["udim"%string := size sx]> (<["pointdim"%string := 3]> ∅),
                         ["udim"%string])
            | _ => Err UnsupportedShape
            end = Ok (dims : gmap string nat, pixel_dims : list string)).
  { destruct (shape sx) as [|v [|u [|w r]]]; simpl in Hrank; try lia; eauto. }
  destruct Hdims as (dims & pixel_dims & ->). cbn [bind].
  rewrite He, Hs, Hy. cbn [of_option bind].
  unfold assign_f4, assign_i4.
  rewrite Se, Ss, Sy, !shape_eqb_refl. cbn [bind].
  eexists. split; [reflexivity|]. cbn [attributes variables].
  unfold f4_data, i4_data. cbn [variables].
  repeat split; try reflexivity.
  - destruct (binning self) as [b|].
    + destruct Hb as (Hb & _). unfold scalar_i4. now rewrite (wrap32_small b Hb).
    + reflexivity.
  - now rewrite (wrap32_small _ Hxp), (wrap32_small _ Hyp).
Qed.

Lemma lookup_to_i32 (a : ndarray float) (p : nat) (z : Z) :
  data a !! p = Some (F64.of_Z z) -> F64.in_int32 z = true ->
  data (amap F64.to_i32 a) !! p = Some z.
Proof.
  intros Hp Hz. cbn [amap data]. rewrite list_lookup_fmap, Hp. simpl.
  now rewrite F64.to_i32_of_Z.
Qed.

Lemma load_save_reloaded self sx sy e s T T' rt SaveName (d : disk) :
  savable self sx sy e s T rt ->
  openable (nc_path SaveName) = true ->
  set_transform_actions new_transformer (transform_actions T) = Ok T' ->
  exists d',
    save self SaveName d = (Ok tt, d') /\
    load SaveName d' = Ok (reloaded self sx sy e s T T' rt).
Proof.
  intros Hsav Hopen Hset.
  destruct (contents_savable self sx sy e s T rt Hsav)
    as (f & Hf & Hrt & Hact & He & Hs & Hx & Hy & Hb & Hpx & Hasp).
  destruct Hsav as (_ & _ & _ & _ & _ & _ & _ & _ & _ & _ & _ & Hbin & _ & _ & Hne & Hplain).
  unfold save. rewrite Hopen, Hf. eexists. split; [reflexivity|].
  unfold load. rewrite lookup_insert_eq. cbn [bind].
  rewrite Hrt, He, Hs, Hb. cbn [of_option bind data lookup list_lookup].
  rewrite Hx, Hy, Hact. cbn [of_option bind].
  unfold set_actions_from.
  rewrite (parse_serialize_list _ Hne Hplain), Hset. cbn [of_option bind].
  rewrite Hpx, Hasp. cbn [of_option bind data lookup list_lookup].
  unfold reloaded.
  destruct (binning self) as [b|].
  - destruct Hbin as (_ & Hnz & ->).
    destruct (Z.eqb_spec b 0) as [E|E]; [contradiction|reflexivity].
  - rewrite Hbin. reflexivity.
Qed.

(** C5, as the code has it.  Where the file can be opened, loading the
    file [save] wrote gives back the start and end coordinates rounded to
    binary32, the pixel coordinates cut down to 32-bit integers (so a
    pixel coordinate that is a 32-bit integer comes back as it was), the
    binning and the full-chip flag, the sensor size and the aspect ratio
    rounded to binary32; and the names of the transform actions are
    handed as they were to [set_transform_actions] of a new transformer,
    which makes the transform of the loaded data from them. *)
Theorem load_save self sx sy e s T T' rt SaveName (d : disk) :
  savable self sx sy e s T rt ->
  openable (nc_path SaveName) = true ->
  set_transform_actions new_transformer (transform_actions T) = Ok T' ->
  exists d',
    save self SaveName d = (Ok tt, d') /\
    load SaveName d' = Ok (reloaded self sx sy e s T T' rt) /\
    (forall (p : nat) (z : Z),
       data sx !! p = Some (F64.of_Z z) -> F64.in_int32 z = true ->
       data (amap F64.to_i32 sx) !! p = Some z) /\
    (forall (p : nat) (z : Z),
       data sy !! p = Some (F64.of_Z z) -> F64.in_int32 z = true ->
       data (amap F64.to_i32 sy) !! p = Some z).
Proof.
  intros Hsav Hopen Hset.
  destruct (load_save_reloaded self sx sy e s T T' rt SaveName d Hsav Hopen Hset)
    as (d' & H1 & H2).
  exists d'. split; [exact H1|]. split; [exact H2|].
  split; intros p z; apply lookup_to_i32.
Qed.

(** Saving ray data whose pixel arrays have more than two dimensions
    raises, after the file was opened for writing: the file is there, and
    whatever was at its path is gone. *)
Lemma save_unsupported_shape self sx T SaveName (d : disk) :
  RayData.x self = Some sx -> 2 < length (shape sx) ->
  transform self = Some T ->
  openable (nc_path SaveName) = true ->
  save self SaveName d = (Err UnsupportedShape, <[nc_path SaveName := None]> d).
Proof.
  intros Hx Hrank HT Hopen. unfold save, contents.
  rewrite Hopen, HT, Hx. cbn [of_option bind].
  destruct (shape sx) as [|v [|u [|w r]]]; simpl in Hrank; try lia.
  reflexivity.
Qed.

End Persistence.

Section Queries.

(** The methods of [coordtransformer.CoordTransformer] that the queries
    call. *)
Variable original_to_display_coords :
  CoordTransformer -> ndarray float -> ndarray float ->
  ndarray float * ndarray float.

Variable display_to_original_image :
  CoordTransformer -> ndarray float -> option Z -> ndarray float.

(** [original_to_display_coords] handed [None] in the place of an array
    is decided in that other file too: what a query in original
    coordinates returns when only one of [x] and [y] is given is a
    parameter, for the lengths and for the directions. *)
Variable original_lengths_of_one :
  CoordTransformer -> option (ndarray float) -> option (ndarray float) ->
  result (ndarray float).

Variable original_directions_of_one :
  CoordTransformer -> option (ndarray float) -> option (ndarray float) ->
  result (ndarray float).

(** The query pixels in display coordinates. *)
Definition query_coords (self : t float) (Coords : string)
    (x y : ndarray float) : result (ndarray float * ndarray float) :=
  if String.eqb (lower Coords) "original" then
    do T <- of_option AttributeError (transform self);
    Ok (original_to_display_coords T x y)
  else Ok (x, y).

(** What both queries return when no pixel is given. *)
Definition whole_image (self : t float) (Coords : string)
    (a : ndarray float) : result (ndarray float) :=
  if truthy (fullchip self) then
    if String.eqb (lower Coords) "display" then Ok a
    else
      do T <- of_option AttributeError (transform self);
      Ok (display_to_original_image T a (binning self))
  else Ok a.

Definition get_ray_lengths (self : t float) (x y : option (ndarray float))
    (PositionTol : float) (Coords : string) : result (ndarray float) :=
  do RayLength <- ray_lengths self;
  match x, y with
  | None, None => whole_image self Coords RayLength
  | _, _ =>
      match RayData.x self, RayData.y self with
      | Some self_x, Some self_y =>
          match x, y with
          | Some x, Some y =>
              if shape_eqb (shape x) (shape y) then
                do (x, y) <- query_coords self Coords x y;
                let orig_shape := shape x in
                do x <- reshape_F x [size x];
                do y <- reshape_F y [size y];
                let RL := replicate (size x) F64.zero in
                let RayLength := flatten RayLength in
                let xflat := flatten self_x in
                let yflat := flatten self_y in
                do RL <- for_loop
                           (length_body (data RayLength) (data xflat) (data yflat)
                              (data x) (data y) PositionTol)
                           (seq 0 (size x)) RL;
                reshape_F (mk_ndarray (shape x) RL) orig_shape
              else Err ShapeMismatch
          | Some a, None =>
              (* np.shape(None) is () *)
              if shape_eqb (shape a) [] then
                if String.eqb (lower Coords) "original" then
                  do T <- of_option AttributeError (transform self);
                  original_lengths_of_one T x y
                else
                  let orig_shape := shape a in
                  do x <- reshape_F a [size a];
                  let RL := replicate (size x) F64.zero in
                  do RL <- for_loop (length_body_no_y (data x)) (seq 0 (size x)) RL;
                  reshape_F (mk_ndarray (shape x) RL) orig_shape
              else Err ShapeMismatch
          | None, Some a =>
              if shape_eqb (shape a) [] then
                if String.eqb (lower Coords) "original" then
                  do T <- of_option AttributeError (transform self);
                  original_lengths_of_one T x y
                else
                  (* x is the array of the one item None, and
                     np.isnan(None) raises *)
                  do y <- reshape_F a [size a];
                  Err TypeError
              else Err ShapeMismatch
          | None, None => whole_image self Coords RayLength
          end
      | _, _ => Err NoStoredPixelCoordinates
      end
  end.

(** The array [dirs] of [get_ray_directions]:
    [(end - start) / np.repeat(lengths.reshape(...), 3, axis=-1)]. *)
Definition ray_directions (self : t float) : result (ndarray float) :=
  do lengths <- get_ray_lengths self None None PositionTol_default "Display";
  do e <- of_option TypeError (ray_end_coords self);
  do s <- of_option TypeError (ray_start_coords self);
  do d <- amap2 F64.sub e s;
  amap2 F64.div d (repeat3_last lengths).

Definition get_ray_directions (self : t float) (x y : option (ndarray float))
    (PositionTol : float) (Coords : string) : result (ndarray float) :=
  do dirs <- ray_directions self;
  match x, y with
  | None, None => whole_image self Coords dirs
  | _, _ =>
      match RayData.x self, RayData.y self with
      | Some self_x, Some self_y =>
          match x, y with
          | Some x, Some y =>
              if shape_eqb (shape x) (shape y) then
                do (x, y) <- query_coords self Coords x y;
                let oldshape := shape x in
                do x <- reshape_F x [size x];
                do y <- reshape_F y [size y];
                do (dirs_X, dirs_Y, dirs_Z) <- split3_last dirs;
                let dirs_X := flatten dirs_X in
                let dirs_Y := flatten dirs_Y in
                let dirs_Z := flatten dirs_Z in
                let xflat := flatten self_x in
                let yflat := flatten self_y in
                let zeros := replicate (size x) F64.zero in
                do out <- for_loop
                            (direction_body (data dirs_X) (data dirs_Y) (data dirs_Z)
                               (data xflat) (data yflat) (data x) (data y) PositionTol)
                            (seq 0 (size x)) (mk_out zeros zeros zeros);
                reshape_F (mk_ndarray [3 * size x] (Xout out ++ Yout out ++ Zout out))
                          (oldshape ++ [3])
              else Err ShapeMismatch
          | Some a, None =>
              if shape_eqb (shape a) [] then
                if String.eqb (lower Coords) "original" then
                  do T <- of_option AttributeError (transform self);
                  original_directions_of_one T x y
                else
                  do x <- reshape_F a [size a];
                  do (dirs_X, dirs_Y, dirs_Z) <- split3_last dirs;
                  subtract_None (data (flatten self_y))
              else Err ShapeMismatch
          | None, Some a =>
              if shape_eqb (shape a) [] then
                if String.eqb (lower Coords) "original" then
                  do T <- of_option AttributeError (transform self);
                  original_directions_of_one T x y
                else
                  do y <- reshape_F a [size a];
                  do (dirs_X, dirs_Y, dirs_Z) <- split3_last dirs;
                  subtract_None (data (flatten self_x))
              else Err ShapeMismatch
          | None, None => whole_image self Coords dirs
          end
      | _, _ => Err NoStoredPixelCoordinates
      end
  end.

(** *** The ray lengths and directions of the stored pixels *)

(** The length of the ray from [s] to [e], and its direction, as
    [get_ray_lengths] and [get_ray_directions] compute them. *)
Definition ray_length (e s : vec3) : float :=
  F64.sqrt
    (F64.add (F64.add (F64.square (F64.sub (vx e) (vx s)))
                      (F64.square (F64.sub (vy e) (vy s))))
             (F64.square (F64.sub (vz e) (vz s)))).

Definition ray_direction (e s : vec3) : vec3 :=
  V3 (F64.div (F64.sub (vx e) (vx s)) (ray_length e s))
     (F64.div (F64.sub (vy e) (vy s)) (ray_length e s))
     (F64.div (F64.sub (vz e) (vz s)) (ray_length e s)).

(** Ray data with pixel coordinates: the pixel arrays have one shape [S],
    the start and end coordinates have shape [S + (3,)]. *)
Definition stored_ok (self : t float) (sx sy e s : ndarray float) : Prop :=
  RayData.x self = Some sx /\ RayData.y self = Some sy /\
  ray_end_coords self = Some e /\ ray_start_coords self = Some s /\
  wf sx /\ wf sy /\ wf e /\ wf s /\
  shape sy = shape sx /\
  shape e = shape sx ++ [3] /\ shape s = shape sx ++ [3].

Lemma ray_lengths_spec self sx sy e s :
  stored_ok self sx sy e s ->
  exists RL,
    ray_lengths self = Ok RL /\ shape RL = shape sx /\ wf RL /\
    forall (p : nat) ve vs,
      vec_at e p = Some ve -> vec_at s p = Some vs ->
      data RL !! p = Some (ray_length ve vs).
Proof.
  intros (Hx & Hy & He & Hs & Wx & Wy & We & Ws & Sy & Se & Ss).
  unfold ray_lengths. rewrite He, Hs. cbn [of_option bind].
  unfold amap2. rewrite Se, Ss, shape_eqb_refl. cbn [bind].
  unfold sum_last_axis, amap. cbn [shape data]. rewrite split_last_app.
  cbn [chunks foldl].
  set (N := prod (shape sx)).
  assert (Le : length (data e) = N * 3).
  { unfold wf in We. rewrite We, Se, prod_app. unfold N, prod. simpl. lia. }
  assert (Ls : length (data s) = N * 3).
  { unfold wf in Ws. rewrite Ws, Ss, prod_app. unfold N, prod. simpl. lia. }
  set (sq := map F64.square (zip_with F64.sub (data e) (data s))).
  assert (Lsq : length sq = N * 3).
  { unfold sq. rewrite length_map, length_zip_with. lia. }
  eexists. split; [reflexivity|]. cbn [shape data]. split; [reflexivity|]. split.
  - unfold wf. cbn [shape data]. fold N.
    rewrite length_map, !length_zip_with, !length_take, !length_drop. lia.
  - intros p ve vs Hve Hvs.
    destruct (vec_at_Some e N p ve Le Hve) as (Hp & E0 & E1 & E2).
    destruct (vec_at_Some s N p vs Ls Hvs) as (_ & S0 & S1 & S2).
    destruct (chunks3_lookup sq N p Hp) as (C0 & C1 & C2).
    rewrite list_lookup_fmap, !lookup_zip_with, C0, C1, C2.
    unfold sq. rewrite !list_lookup_fmap, !lookup_zip_with.
    rewrite E0, E1, E2, S0, S1, S2. reflexivity.
Qed.

Lemma ray_directions_spec self sx sy e s :
  stored_ok self sx sy e s ->
  exists dirs,
    ray_directions self = Ok dirs /\ shape dirs = shape sx ++ [3] /\ wf dirs /\
    forall (p : nat) ve vs,
      vec_at e p = Some ve -> vec_at s p = Some vs ->
      vec_at dirs p = Some (ray_direction ve vs).
Proof.
  intros Hok.
  destruct (ray_lengths_spec self sx sy e s Hok) as (RL & HRL & SRL & WRL & Hat).
  destruct Hok as (Hx & Hy & He & Hs & Wx & Wy & We & Ws & Sy & Se & Ss).
  unfold ray_directions, get_ray_lengths. rewrite HRL. cbn [bind].
  unfold whole_image.
  replace (String.eqb (lower "Display") "display") with true by reflexivity.
  assert (Hwhole : (if truthy (fullchip self) then Ok RL else Ok RL) = Ok RL)
    by now destruct (truthy (fullchip self)).
  rewrite Hwhole. cbn [bind]. rewrite He, Hs. cbn [of_option bind].
  unfold amap2 at 1. rewrite Se, Ss, shape_eqb_refl. cbn [bind].
  unfold amap2, repeat3_last. cbn [shape data]. rewrite SRL, shape_eqb_refl.
  set (N := prod (shape sx)).
  assert (Le : length (data e) = N * 3).
  { unfold wf in We. rewrite We, Se, prod_app. unfold N, prod. simpl. lia. }
  assert (Ls : length (data s) = N * 3).
  { unfold wf in Ws. rewrite Ws, Ss, prod_app. unfold N, prod. simpl. lia. }
  assert (LRL : length (data RL) = N) by (unfold wf in WRL; now rewrite WRL, SRL).
  eexists. split; [reflexivity|]. cbn [shape data]. split; [reflexivity|].
  assert (Ld : length (zip_with F64.div (zip_with F64.sub (data e) (data s))
                         (data RL ++ data RL ++ data RL)) = N * 3).
  { rewrite !length_zip_with, !length_app. lia. }
  split.
  - unfold wf. cbn [shape data]. rewrite Ld, prod_app. unfold N, prod. simpl. lia.
  - intros p ve vs Hve Hvs.
    pose proof (Hat p ve vs Hve Hvs) as Hl.
    destruct (vec_at_Some e N p ve Le Hve) as (Hp & E0 & E1 & E2).
    destruct (vec_at_Some s N p vs Ls Hvs) as (_ & S0 & S1 & S2).
    apply (vec_at_intro _ N p); cbn [data]; try assumption.
    + rewrite !lookup_zip_with, E0, S0. cbn [mbind option_bind].
      rewrite lookup_app_l by lia. now rewrite Hl.
    + rewrite !lookup_zip_with, E1, S1. cbn [mbind option_bind].
      rewrite lookup_app_r by lia. rewrite lookup_app_l by lia.
      replace (p + N - length (data RL)) with p by lia. now rewrite Hl.
    + rewrite !lookup_zip_with, E2, S2. cbn [mbind option_bind].
      rewrite lookup_app_r by lia. rewrite lookup_app_r by lia.
      replace (p + 2 * N - length (data RL) - length (data RL)) with p by lia.
      now rewrite Hl.
Qed.

(** *** Queries by pixel coordinates *)

(** The query arrays, in display coordinates, are arrays of one shape. *)
Definition query_ok (self : t float) (Coords : string)
    (x y dx dy : ndarray float) : Prop :=
  shape x = shape y /\ query_coords self Coords x y = Ok (dx, dy) /\
  wf dx /\ wf dy /\ shape dy = shape dx.

(** [get_ray_lengths] on given pixels returns, in the shape of the query,
    the values of [query_length], and raises what it raises first. *)
Lemma get_ray_lengths_query self sx sy e s RL x y dx dy tol Coords :
  stored_ok self sx sy e s ->
  ray_lengths self = Ok RL ->
  query_ok self Coords x y dx dy ->
  get_ray_lengths self (Some x) (Some y) tol Coords =
    do vs <- collect
               (query_length (data (flatten RL)) (data (flatten sx))
                  (data (flatten sy)) (data dx) (data dy) tol)
               (seq 0 (size dx));
    Ok (mk_ndarray (shape dx) vs).
Proof.
  intros (Hx & Hy & _) HRL (Hsh & Hq & Wx & Wy & Sy).
  unfold get_ray_lengths. rewrite HRL. cbn [bind]. rewrite Hx, Hy.
  rewrite Hsh, shape_eqb_refl, Hq. cbn [bind].
  unfold wf in Wx, Wy.
  rewrite (reshape_F_ok dx) by (rewrite prod_singleton; exact Wx).
  cbn [bind].
  rewrite (reshape_F_ok dy) by (rewrite prod_singleton; exact Wy).
  cbn [bind shape data].
  change (size {| shape := [size dx]; data := data dx |}) with (prod [size dx]).
  rewrite prod_singleton.
  rewrite (for_loop_fill _ _ (length_body_eq _ _ _ _ _ _))
    by (rewrite length_replicate; lia).
  destruct (collect _ (seq 0 (size dx))) as [vs|err] eqn:Hc; [|reflexivity].
  cbn [bind]. destruct (collect_ok _ _ _ Hc) as [Hl _]. rewrite length_seq in Hl.
  rewrite take_0, drop_ge by (rewrite length_replicate; lia).
  rewrite app_nil_l, app_nil_r.
  unfold reshape_F. cbn [data]. rewrite Hl. fold (size dx).
  now rewrite Nat.eqb_refl.
Qed.

(** The distances of the stored pixels to the pixel [(a, b)]. *)
Definition stored_distances (sx sy : ndarray float) (a b : float) : list float :=
  zip_with (distance_to a b) (data (flatten sx)) (data (flatten sy)).

(** Entry [p] of the query is the pixel [(a, b)], with both coordinates
    numbers. *)
Definition query_pixel (dx dy : ndarray float) (p : nat) (a b : float) : Prop :=
  data dx !! p = Some a /\ data dy !! p = Some b /\
  F64.isnan a = false /\ F64.isnan b = false.

Lemma query_length_cases self sx sy e s RL x y dx dy tol Coords (p : nat) :
  stored_ok self sx sy e s ->
  0 < size sx ->
  ray_lengths self = Ok RL ->
  query_ok self Coords x y dx dy ->
  F64.isfinite tol = true ->
  p < size dx ->
  exists a b,
    data dx !! p = Some a /\ data dy !! p = Some b /\
    ((F64.isnan a || F64.isnan b = true /\
      query_length (data (flatten RL)) (data (flatten sx)) (data (flatten sy))
        (data dx) (data dy) tol p = Ok F64.nan) \/
     (query_pixel dx dy p a b /\ within tol (stored_distances sx sy a b) /\
      exists i v r,
        first_least (stored_distances sx sy a b) i v /\ F64.leb v tol = true /\
        data (flatten RL) !! i = Some r /\
        query_length (data (flatten RL)) (data (flatten sx)) (data (flatten sy))
          (data dx) (data dy) tol p = Ok r) \/
     (query_pixel dx dy p a b /\ ~ within tol (stored_distances sx sy a b) /\
      query_length (data (flatten RL)) (data (flatten sx)) (data (flatten sy))
        (data dx) (data dy) tol p = Err NoNearbyRay)).
Proof.
  intros Hok Hpos HRL (Hsh & Hq & Wx & Wy & Sy) Ht Hp.
  destruct (ray_lengths_spec self sx sy e s Hok) as (RL' & HRL' & SRL & WRL & _).
  assert (RL' = RL) as -> by congruence.
  destruct Hok as (Hx & Hy & _ & _ & Wsx & Wsy & _ & _ & Ssy & _).
  assert (Lx : length (data (flatten sx)) = size sx) by now apply length_flatten.
  assert (Ly : length (data (flatten sy)) = size sx).
  { rewrite length_flatten by exact Wsy. unfold size. now rewrite Ssy. }
  assert (Lr : length (data (flatten RL)) = size sx).
  { rewrite length_flatten by exact WRL. unfold size. now rewrite SRL. }
  unfold wf in Wx, Wy. fold (size dx) in Wx.
  destruct (lookup_lt_is_Some_2 (data dx) p) as [a Ha]; [lia|].
  destruct (lookup_lt_is_Some_2 (data dy) p) as [b Hb];
    [rewrite Wy, Sy; exact Hp|].
  exists a, b. split; [exact Ha|]. split; [exact Hb|].
  unfold query_length, get_item. rewrite Ha, Hb. cbn [of_option bind].
  destruct (F64.isnan a || F64.isnan b) eqn:Hn.
  - left. split; [reflexivity|]. now apply pixel_length_nan.
  - right.
    assert (Hqp : query_pixel dx dy p a b).
    { apply orb_false_iff in Hn as [Han Hbn]. now repeat split. }
    destruct (within_dec tol (stored_distances sx sy a b)) as [Hw|Hw].
    + left. split; [exact Hqp|]. split; [exact Hw|].
      apply pixel_length_within; try assumption; congruence.
    + right. split; [exact Hqp|]. split.
      * intros (w & Hin & Hle). rewrite (Hw w Hin) in Hle. discriminate.
      * apply pixel_length_none; try assumption; try congruence; lia.
Qed.


Lemma pixel_length_found RayLength xflat yflat tol xp yp :
  length xflat = length yflat -> length RayLength = length xflat ->
  F64.isnan xp || F64.isnan yp = false ->
  within tol (zip_with (distance_to xp yp) xflat yflat) ->
  exists r, pixel_length RayLength xflat yflat tol xp yp = Ok r.
Proof.
  intros Hl Hr Hn Hw. unfold pixel_length, distances.
  rewrite Hn, Hl, Nat.eqb_refl. cbn [bind].
  destruct (nearest_found _ tol Hw) as (m & i & Hm & Hmt & Hi & Hlt).
  rewrite Hm. cbn [bind]. rewrite Hmt, Hi. cbn [bind].
  rewrite length_zip_with in Hlt.
  destruct (lookup_lt_is_Some_2 RayLength i) as [r Hri]; [lia|].
  exists r. unfold get_item. now rewrite Hri.
Qed.

(** [get_ray_lengths] returns whenever every query pixel whose
    coordinates are numbers has a stored pixel within the tolerance, and
    the query pixels with a NaN coordinate get NaN. *)
Lemma get_ray_lengths_returns self sx sy e s RL x y dx dy tol Coords :
  stored_ok self sx sy e s ->
  ray_lengths self = Ok RL ->
  query_ok self Coords x y dx dy ->
  (forall p a b, query_pixel dx dy p a b ->
     within tol (stored_distances sx sy a b)) ->
  exists out,
    get_ray_lengths self (Some x) (Some y) tol Coords = Ok out /\
    shape out = shape dx /\
    forall (p : nat) a b,
      data dx !! p = Some a -> data dy !! p = Some b ->
      F64.isnan a || F64.isnan b = true ->
      data out !! p = Some F64.nan.
Proof.
  intros Hok HRL Hq Hall.
  rewrite (get_ray_lengths_query self sx sy e s RL x y dx dy tol Coords Hok HRL Hq).
  destruct (ray_lengths_spec self sx sy e s Hok) as (RL' & HRL' & SRL & WRL & _).
  assert (RL' = RL) as -> by congruence.
  destruct Hok as (Hx & Hy & _ & _ & Wsx & Wsy & _ & _ & Ssy & _).
  destruct Hq as (_ & _ & Wx & Wy & Sy). unfold wf in Wx, Wy. fold (size dx) in Wx.
  assert (Lx : length (data (flatten sx)) = size sx) by now apply length_flatten.
  assert (Ly : length (data (flatten sy)) = size sx).
  { rewrite length_flatten by exact Wsy. unfold size. now rewrite Ssy. }
  assert (Lr : length (data (flatten RL)) = size sx).
  { rewrite length_flatten by exact WRL. unfold size. now rewrite SRL. }
  set (f := query_length (data (flatten RL)) (data (flatten sx))
              (data (flatten sy)) (data dx) (data dy) tol).
  assert (Hval : forall p a b, data dx !! p = Some a -> data dy !! p = Some b ->
            (F64.isnan a || F64.isnan b = true /\ f p = Ok F64.nan) \/
            (F64.isnan a || F64.isnan b = false /\ exists r, f p = Ok r)).
  { intros p a b Ha Hb. unfold f, query_length, get_item.
    rewrite Ha, Hb. cbn [of_option bind].
    destruct (F64.isnan a || F64.isnan b) eqn:Hn.
    - left. split; [reflexivity|]. now apply pixel_length_nan.
    - right. split; [reflexivity|].
      apply pixel_length_found; try assumption; try congruence.
      apply (Hall p a b). apply orb_false_iff in Hn as [Han Hbn]. now repeat split. }
  destruct (collect_all_ok f (seq 0 (size dx))) as [vs Hvs].
  { intros p Hp. apply elem_of_seq in Hp.
    destruct (lookup_lt_is_Some_2 (data dx) p) as [a Ha]; [lia|].
    destruct (lookup_lt_is_Some_2 (data dy) p) as [b Hb];
      [rewrite Wy, Sy; fold (size dx); lia|].
    destruct (Hval p a b Ha Hb) as [[_ H] | [_ [r H]]]; eauto. }
  rewrite Hvs. cbn [bind]. eexists. split; [reflexivity|]. split; [reflexivity|].
  cbn [data]. intros p a b Ha Hb Hn.
  destruct (collect_ok _ _ _ Hvs) as [_ Hget].
  destruct (Hget p p) as (r & Hr & Hvp).
  { apply lookup_seq. apply lookup_lt_Some in Ha. lia. }
  destruct (Hval p a b Ha Hb) as [[_ H] | [H _]]; congruence.
Qed.

(** C6, as the code has it.  In [get_ray_lengths] a query pixel with a
    NaN coordinate gets NaN in its slot and does not make the query fail:
    the query returns as soon as the other query pixels have a stored
    pixel within the tolerance. *)
Theorem get_ray_lengths_nan_query self sx sy e s RL x y dx dy tol Coords :
  stored_ok self sx sy e s ->
  ray_lengths self = Ok RL ->
  query_ok self Coords x y dx dy ->
  (forall p a b, query_pixel dx dy p a b ->
     within tol (stored_distances sx sy a b)) ->
  exists out,
    get_ray_lengths self (Some x) (Some y) tol Coords = Ok out /\
    shape out = shape dx /\
    forall (p : nat) a b,
      data dx !! p = Some a -> data dy !! p = Some b ->
      F64.isnan a || F64.isnan b = true ->
      data out !! p = Some F64.nan.
Proof. exact (get_ray_lengths_returns self sx sy e s RL x y dx dy tol Coords). Qed.

(** A stored pixel without coordinates makes every distance array of
    [get_ray_directions] hold a NaN. *)
Lemma stored_nan_distance (sx sy : ndarray float) (k : nat) (a b : float) :
  wf sx -> wf sy -> shape sy = shape sx ->
  data sx !! k = Some F64.nan \/ data sy !! k = Some F64.nan ->
  F64.nan ∈ zip_with (distance_to a b) (data (flatten sx)) (data (flatten sy)).
Proof.
  intros Wx Wy Sy Hk.
  assert (Lx : length (data (flatten sx)) = size sx) by now apply length_flatten.
  assert (Ly : length (data (flatten sy)) = size sx).
  { rewrite length_flatten by exact Wy. unfold size. now rewrite Sy. }
  apply list_elem_of_lookup.
  destruct Hk as [Hk | Hk].
  - destruct (flatten_complete sx k F64.nan Wx Hk) as [k' Hk'].
    pose proof (lookup_lt_Some _ _ _ Hk') as Hlt.
    destruct (lookup_lt_is_Some_2 (data (flatten sy)) k') as [v Hv]; [lia|].
    exists k'. rewrite lookup_zip_with, Hk'. cbn [mbind option_bind].
    rewrite Hv. reflexivity.
  - destruct (flatten_complete sy k F64.nan Wy Hk) as [k' Hk'].
    pose proof (lookup_lt_Some _ _ _ Hk') as Hlt.
    destruct (lookup_lt_is_Some_2 (data (flatten sx)) k') as [v Hv]; [lia|].
    exists k'. rewrite lookup_zip_with, Hv. cbn [mbind option_bind].
    rewrite Hk'. cbn [mbind option_bind]. f_equal.
    unfold distance_to. rewrite F64.sub_nan_l. change (F64.square F64.nan) with F64.nan.
    now rewrite F64.add_nan_r.
Qed.

(** C9. When the stored pixel coordinates hold a NaN, every query of
    [get_ray_directions] by pixel coordinates, for one pixel or more,
    fails with the no-nearby-ray error, whatever the coordinates asked
    for; [get_ray_lengths] on the same data and the same query returns as
    soon as each query pixel has a stored pixel within the tolerance. *)
Theorem get_ray_directions_stored_nan self sx sy e s RL x y dx dy tol Coords (k : nat) :
  stored_ok self sx sy e s ->
  ray_lengths self = Ok RL ->
  query_ok self Coords x y dx dy ->
  0 < size dx ->
  data sx !! k = Some F64.nan \/ data sy !! k = Some F64.nan ->
  get_ray_directions self (Some x) (Some y) tol Coords = Err NoNearbyRay /\
  ((forall p a b, query_pixel dx dy p a b ->
      within tol (stored_distances sx sy a b)) ->
   exists out, get_ray_lengths self (Some x) (Some y) tol Coords = Ok out).
Proof.
  intros Hok HRL Hq Hpos Hk. split.
  - destruct (ray_directions_spec self sx sy e s Hok) as (dirs & Hd & Sd & Wd & _).
    destruct Hok as (Hx & Hy & _ & _ & Wsx & Wsy & _ & _ & Ssy & _).
    destruct Hq as (Hsh & Hqc & Wx & Wy & Sy). unfold wf in Wx, Wy.
    unfold get_ray_directions. rewrite Hd. cbn [bind]. rewrite Hx, Hy.
    rewrite Hsh, shape_eqb_refl, Hqc. cbn [bind].
    rewrite (reshape_F_ok dx) by (rewrite prod_singleton; exact Wx).
    cbn [bind].
    rewrite (reshape_F_ok dy) by (rewrite prod_singleton; exact Wy).
    cbn [bind shape data].
    unfold split3_last. rewrite Sd, split_last_app. cbn [bind].
    change (size {| shape := [size dx]; data := data dx |}) with (prod [size dx]).
    rewrite prod_singleton.
    destruct (size dx) as [|m] eqn:Hm; [lia|].
    cbn [seq for_loop].
    fold (size dx) in Wx.
    destruct (lookup_lt_is_Some_2 (data dx) 0) as [a Ha]; [lia|].
    destruct (lookup_lt_is_Some_2 (data dy) 0) as [b Hb];
      [rewrite Wy, Sy; fold (size dx); lia|].
    unfold direction_body at 1. unfold get_item at 1 2.
    rewrite Ha, Hb. cbn [of_option bind]. unfold distances.
    assert (Lx : length (data (flatten sx)) = size sx) by now apply length_flatten.
    assert (Ly : length (data (flatten sy)) = size sx).
    { rewrite length_flatten by exact Wsy. unfold size. now rewrite Ssy. }
    rewrite Lx, Ly, Nat.eqb_refl. cbn [bind].
    rewrite np_min_has_nan by now apply (stored_nan_distance sx sy k).
    cbn [bind]. rewrite F64.leb_nan_l. reflexivity.
  - intros Hall.
    destruct (get_ray_lengths_returns self sx sy e s RL x y dx dy tol Coords
                Hok HRL Hq Hall) as (out & Hout & _).
    now exists out.
Qed.

Lemma ray_direction_diag v : ray_direction v v = vnan.
Proof.
  unfold ray_direction, ray_length, vnan.
  destruct (F64.sub_diag (vx v)) as [-> | ->], (F64.sub_diag (vy v)) as [-> | ->],
           (F64.sub_diag (vz v)) as [-> | ->]; reflexivity.
Qed.

(** C10. [get_ray_directions] divides by the ray length without looking
    at it: for a stored pixel whose ray starts where it ends, the three
    components of the direction are NaN and nothing is raised; and a query
    for that pixel returns this NaN. *)
Theorem get_ray_directions_zero_length :
  (forall self sx sy e s (p : nat) v tol,
     stored_ok self sx sy e s ->
     vec_at e p = Some v -> vec_at s p = Some v ->
     exists dirs,
       get_ray_directions self None None tol "Display" = Ok dirs /\
       vec_at dirs p = Some vnan) /\
  (exists self sx sy e s v,
     stored_ok self sx sy e s /\
     vec_at e 0 = Some v /\ vec_at s 0 = Some v /\
     data sx !! 0 = Some (F64.of_Z 10) /\
     data sy !! 0 = Some (F64.of_Z 10) /\
     get_ray_directions self
       (Some (mk_ndarray [1] [F64.of_Z 10])) (Some (mk_ndarray [1] [F64.of_Z 10]))
       PositionTol_default "Display"
     = Ok (mk_ndarray [1; 3] [F64.nan; F64.nan; F64.nan])).
Proof.
  split.
  - intros self sx sy e s p v tol Hok He Hs.
    destruct (ray_directions_spec self sx sy e s Hok) as (dirs & Hd & _ & _ & Hat).
    exists dirs. split.
    + unfold get_ray_directions. rewrite Hd. cbn [bind]. unfold whole_image.
      replace (String.eqb (lower "Display") "display") with true by reflexivity.
      now destruct (truthy (fullchip self)).
    + rewrite (Hat p v v He Hs). now rewrite ray_direction_diag.
  - set (c := mk_ndarray [1; 3] [F64.of_Z 1; F64.of_Z 2; F64.of_Z 3]).
    set (px := mk_ndarray [1] [F64.of_Z 10]).
    exists (mk (Some c) (Some c) None None (Some false) (Some px) (Some px) None),
           px, px, c, c, (V3 (F64.of_Z 1) (F64.of_Z 2) (F64.of_Z 3)).
    split; [repeat split|]. repeat split; vm_compute; reflexivity.
Qed.

(** *** Queries without pixels: the whole image *)

Lemma ray_length_nan_l vs : ray_length vnan vs = F64.nan.
Proof. reflexivity. Qed.

Lemma ray_direction_nan_l vs : ray_direction vnan vs = vnan.
Proof. reflexivity. Qed.

Lemma vec_at_is_Some (a : ndarray float) (n p : nat) :
  length (data a) = n * 3 -> p < n -> exists v, vec_at a p = Some v.
Proof.
  intros Hl Hp.
  destruct (lookup_lt_is_Some_2 (data a) p) as [c0 H0]; [lia|].
  destruct (lookup_lt_is_Some_2 (data a) (p + n)) as [c1 H1]; [lia|].
  destruct (lookup_lt_is_Some_2 (data a) (p + 2 * n)) as [c2 H2]; [lia|].
  exists (V3 c0 c1 c2). now apply (vec_at_intro a n p).
Qed.

(** What both queries do with the array of all pixels: it goes through
    [display_to_original_image] for a full-chip cast asked about in
    coordinates that are not named [display], and is returned as it is
    otherwise. *)
Lemma whole_image_cases self Coords a :
  whole_image self Coords a =
    if truthy (fullchip self) && negb (String.eqb (lower Coords) "display")
    then do T <- of_option AttributeError (transform self);
         Ok (display_to_original_image T a (binning self))
    else Ok a.
Proof.
  unfold whole_image.
  destruct (truthy (fullchip self)), (String.eqb (lower Coords) "display"); reflexivity.
Qed.

(** X1. Called without pixels, [get_ray_lengths] works out one length per
    stored pixel, in the shape of the pixel arrays: the square root of the
    sum of the squared differences of the end and the start coordinates,
    which is NaN where the end coordinates are NaN.  The tolerance is not
    looked at.  The array is returned as it is, except for a full-chip
    cast asked about in other than display coordinates. *)
Theorem get_ray_lengths_whole_image self sx sy e s tol Coords :
  stored_ok self sx sy e s ->
  exists RL,
    shape RL = shape sx /\ wf RL /\
    (forall (p : nat) ve vs,
       vec_at e p = Some ve -> vec_at s p = Some vs ->
       data RL !! p = Some (ray_length ve vs)) /\
    (forall (p : nat) vs,
       vec_at e p = Some vnan -> vec_at s p = Some vs ->
       data RL !! p = Some F64.nan) /\
    get_ray_lengths self None None tol Coords =
      if truthy (fullchip self) && negb (String.eqb (lower Coords) "display")
      then do T <- of_option AttributeError (transform self);
           Ok (display_to_original_image T RL (binning self))
      else Ok RL.
Proof.
  intros Hok.
  destruct (ray_lengths_spec self sx sy e s Hok) as (RL & HRL & SRL & WRL & Hat).
  exists RL. split; [exact SRL|]. split; [exact WRL|]. split; [exact Hat|]. split.
  - intros p vs He Hs. rewrite (Hat p vnan vs He Hs). now rewrite ray_length_nan_l.
  - unfold get_ray_lengths. rewrite HRL. cbn [bind]. apply whole_image_cases.
Qed.

(** X2. Called without pixels, [get_ray_directions] works out one
    direction per stored pixel, with shape [S + (3,)] for pixel arrays of
    shape [S]: the difference of the end and the start coordinates, each
    component divided by the ray length; NaN where the end coordinates
    are NaN. *)
Theorem get_ray_directions_whole_image self sx sy e s tol Coords :
  stored_ok self sx sy e s ->
  exists dirs,
    shape dirs = shape sx ++ [3] /\ wf dirs /\
    (forall (p : nat) ve vs,
       vec_at e p = Some ve -> vec_at s p = Some vs ->
       vec_at dirs p = Some (ray_direction ve vs)) /\
    (forall (p : nat) vs,
       vec_at e p = Some vnan -> vec_at s p = Some vs ->
       vec_at dirs p = Some vnan) /\
    get_ray_directions self None None tol Coords =
      if truthy (fullchip self) && negb (String.eqb (lower Coords) "display")
      then do T <- of_option AttributeError (transform self);
           Ok (display_to_original_image T dirs (binning self))
      else Ok dirs.
Proof.
  intros Hok.
  destruct (ray_directions_spec self sx sy e s Hok) as (dirs & Hd & Sd & Wd & Hat).
  exists dirs. split; [exact Sd|]. split; [exact Wd|]. split; [exact Hat|]. split.
  - intros p vs He Hs. rewrite (Hat p vnan vs He Hs). now rewrite ray_direction_nan_l.
  - unfold get_ray_directions. rewrite Hd. cbn [bind]. apply whole_image_cases.
Qed.

(** *** The name of the coordinates *)

Lemma lower_ascii_idem c : lower_ascii (lower_ascii c) = lower_ascii c.
Proof.
  destruct c as [[] [] [] [] [] [] [] []]; reflexivity.
Qed.

Lemma lower_idem s : lower (lower s) = lower s.
Proof.
  induction s as [|c s IH]; [reflexivity|].
  simpl. now rewrite lower_ascii_idem, IH.
Qed.

Lemma get_ray_lengths_lower self x y tol Coords Coords' :
  lower Coords = lower Coords' ->
  get_ray_lengths self x y tol Coords = get_ray_lengths self x y tol Coords'.
Proof.
  intros H. unfold get_ray_lengths, whole_image, query_coords. now rewrite H.
Qed.

Lemma get_ray_directions_lower self x y tol Coords Coords' :
  lower Coords = lower Coords' ->
  get_ray_directions self x y tol Coords = get_ray_directions self x y tol Coords'.
Proof.
  intros H. unfold get_ray_directions, whole_image, query_coords. now rewrite H.
Qed.

(** X3. Both queries read the name of the coordinates without regard to
    case.  A name that is neither [display] nor [original] is not refused:
    with query pixels it is taken for [display], without query pixels it
    is taken for [original]. *)
Theorem queries_coords_name self x y tol :
  (forall Coords,
     get_ray_lengths self x y tol Coords = get_ray_lengths self x y tol (lower Coords) /\
     get_ray_directions self x y tol Coords
       = get_ray_directions self x y tol (lower Coords)) /\
  (forall Coords qx qy,
     String.eqb (lower Coords) "display" = false ->
     String.eqb (lower Coords) "original" = false ->
     get_ray_lengths self (Some qx) (Some qy) tol Coords
       = get_ray_lengths self (Some qx) (Some qy) tol "Display" /\
     get_ray_directions self (Some qx) (Some qy) tol Coords
       = get_ray_directions self (Some qx) (Some qy) tol "Display" /\
     get_ray_lengths self None None tol Coords
       = get_ray_lengths self None None tol "Original" /\
     get_ray_directions self None None tol Coords
       = get_ray_directions self None None tol "Original").
Proof.
  split.
  - intros Coords. split.
    + apply get_ray_lengths_lower. now rewrite lower_idem.
    + apply get_ray_directions_lower. now rewrite lower_idem.
  - intros Coords qx qy Hd Ho.
    unfold get_ray_lengths, get_ray_directions, whole_image, query_coords.
    rewrite Hd, Ho.
    replace (String.eqb (lower "Display") "original") with false by reflexivity.
    replace (String.eqb (lower "Original") "display") with false by reflexivity.
    repeat split; reflexivity.
Qed.

(** *** The order of the checks *)

(** X4. Both queries work out the ray lengths before they look at their
    arguments: ray data without start or end coordinates raises a
    TypeError whatever is asked.  With coordinates, a query by pixel on
    ray data without pixel arrays raises the no-pixel-coordinates error,
    also when the query arrays differ in shape; with pixel arrays, query
    arrays of different shapes raise the same-shape error. *)
Theorem queries_check_order self x y tol Coords :
  (ray_end_coords self = None \/ ray_start_coords self = None ->
   get_ray_lengths self x y tol Coords = Err TypeError /\
   get_ray_directions self x y tol Coords = Err TypeError) /\
  (forall RL dirs qx qy,
     ray_lengths self = Ok RL -> ray_directions self = Ok dirs ->
     x = Some qx -> y = Some qy ->
     (RayData.x self = None \/ RayData.y self = None ->
      get_ray_lengths self x y tol Coords = Err NoStoredPixelCoordinates /\
      get_ray_directions self x y tol Coords = Err NoStoredPixelCoordinates) /\
     (is_Some (RayData.x self) -> is_Some (RayData.y self) ->
      shape qx <> shape qy ->
      get_ray_lengths self x y tol Coords = Err ShapeMismatch /\
      get_ray_directions self x y tol Coords = Err ShapeMismatch)).
Proof.
  split.
  - intros Hnone.
    assert (HRL : ray_lengths self = Err TypeError).
    { unfold ray_lengths. destruct Hnone as [-> | ->]; [reflexivity|].
      now destruct (ray_end_coords self). }
    unfold get_ray_directions, ray_directions, get_ray_lengths.
    now rewrite HRL.
  - intros RL dirs qx qy HRL Hd -> ->.
    unfold get_ray_lengths, get_ray_directions. rewrite HRL, Hd. cbn [bind].
    split.
    + intros [-> | ->]; [now split|]. now destruct (RayData.x self).
    + intros [sx ->] [sy ->] Hne.
      assert (E : shape_eqb (shape qx) (shape qy) = false).
      { unfold shape_eqb. now apply bool_decide_eq_false. }
      now rewrite E.
Qed.

(** *** The loop of [get_ray_directions] *)

(** The direction the loop stores for the query pixel [(xp, yp)]. *)
Definition pixel_direction (dirs_X dirs_Y dirs_Z xflat yflat : list float)
    (PositionTol xp yp : float) : result vec3 :=
  do deltaR <- distances xflat yflat xp yp;
  do m <- np_min deltaR;
  if F64.leb m PositionTol then
    do i <- argmin deltaR;
    do vX <- get_item dirs_X i;
    do vY <- get_item dirs_Y i;
    do vZ <- get_item dirs_Z i;
    Ok (V3 vX vY vZ)
  else Err NoNearbyRay.

Definition query_direction (dirs_X dirs_Y dirs_Z xflat yflat x y : list float)
    (PositionTol : float) (pointno : nat) : result vec3 :=
  do xp <- get_item x pointno;
  do yp <- get_item y pointno;
  pixel_direction dirs_X dirs_Y dirs_Z xflat yflat PositionTol xp yp.

Definition store_direction (out : dirs_out) (pointno : nat) (v : vec3)
    : result dirs_out :=
  do oX <- set_item (Xout out) pointno (vx v);
  do oY <- set_item (Yout out) pointno (vy v);
  do oZ <- set_item (Zout out) pointno (vz v);
  Ok (mk_out oX oY oZ).

Lemma direction_body_eq dirs_X dirs_Y dirs_Z xflat yflat x y PositionTol out pointno :
  direction_body dirs_X dirs_Y dirs_Z xflat yflat x y PositionTol out pointno =
    do v <- query_direction dirs_X dirs_Y dirs_Z xflat yflat x y PositionTol pointno;
    store_direction out pointno v.
Proof.
  unfold direction_body, query_direction, pixel_direction, store_direction.
  destruct (get_item x pointno) as [xp|]; [|reflexivity]. cbn [bind].
  destruct (get_item y pointno) as [yp|]; [|reflexivity]. cbn [bind].
  destruct (distances xflat yflat xp yp) as [d|]; [|reflexivity]. cbn [bind].
  destruct (np_min d) as [m|]; [|reflexivity]. cbn [bind].
  destruct (F64.leb m PositionTol); [|reflexivity].
  destruct (argmin d) as [i|]; [|reflexivity]. cbn [bind].
  unfold get_item, set_item.
  destruct (dirs_X !! i) as [vX|]; [|reflexivity]. cbn [of_option bind].
  destruct (decide (pointno < length (Xout out)));
    destruct (dirs_Y !! i) as [vY|]; cbn [of_option bind vx vy vz]; try reflexivity;
    destruct (decide (pointno < length (Yout out)));
    destruct (dirs_Z !! i) as [vZ|]; cbn [of_option bind vx vy vz]; try reflexivity;
    destruct (decide (pointno < length (Xout out))); cbn [bind]; try reflexivity;
    try lia;
    destruct (decide (pointno < length (Yout out))); cbn [bind]; try reflexivity;
    lia.
Qed.

(** A loop over [range(k, k + n)] whose body stores the three components
    of [f i] in slot [i] of the three output arrays. *)
Lemma for_loop_store (f : nat -> result vec3)
    (body : dirs_out -> nat -> result dirs_out) :
  (forall out i, body out i = do v <- f i; store_direction out i v) ->
  forall n k out,
    k + n <= length (Xout out) -> k + n <= length (Yout out) ->
    k + n <= length (Zout out) ->
    for_loop body (seq k n) out =
      do vs <- collect f (seq k n);
      Ok (mk_out (take k (Xout out) ++ map vx vs ++ drop (k + n) (Xout out))
                 (take k (Yout out) ++ map vy vs ++ drop (k + n) (Yout out))
                 (take k (Zout out) ++ map vz vs ++ drop (k + n) (Zout out))).
Proof.
  intros Hbody. induction n as [|n IH]; intros k out HX HY HZ.
  - simpl. rewrite Nat.add_0_r, !take_drop. now destruct out.
  - simpl. rewrite Hbody. destruct (f k) as [v|err]; [|reflexivity].
    cbn [bind]. unfold store_direction, set_item.
    destruct (decide (k < length (Xout out))); [|lia].
    destruct (decide (k < length (Yout out))); [|lia].
    destruct (decide (k < length (Zout out))); [|lia].
    cbn [bind].
    rewrite IH by (cbn [Xout Yout Zout]; rewrite length_insert; lia).
    destruct (collect f (seq (S k) n)) as [vs|err]; [|reflexivity].
    cbn [bind Xout Yout Zout]. f_equal.
    assert (Hfill : forall (a : list float) (c : float) (cs : list float),
              k + S n <= length a ->
              take (S k) (<[k := c]> a) ++ cs ++ drop (S k + n) (<[k := c]> a) =
              take k a ++ (c :: cs) ++ drop (k + S n) a).
    { intros a c cs Hl.
      rewrite (take_S_r _ k c) by (apply list_lookup_insert_eq; lia).
      rewrite take_insert_ge by lia.
      rewrite drop_insert_lt by lia.
      rewrite <- app_assoc. simpl.
      now replace (k + S n) with (S k + n) by lia. }
    simpl map. now rewrite !Hfill.
Qed.

(** The three components of the directions, as the loop reads them:
    the slices of [dirs] along its last axis, flattened. *)
Definition dirs_part (dirs : ndarray float) (S : list nat) (off : nat) : list float :=
  data (flatten (mk_ndarray (S ++ [1]) (take (prod S) (drop off (data dirs))))).

Lemma lookup_dirs_part (dirs : ndarray float) (S : list nat) (off i k : nat) :
  off + prod S <= length (data dirs) ->
  c_order S !! i = Some k ->
  dirs_part dirs S off !! i = data dirs !! (off + k).
Proof.
  intros Hlen Hk. unfold dirs_part.
  assert (Hlt : k < prod S).
  { pose proof (c_order_bound S) as Hb. rewrite Forall_forall in Hb.
    apply Hb. now apply list_elem_of_lookup_2 in Hk. }
  rewrite (lookup_flatten _ i k).
  - cbn [data]. rewrite lookup_take_lt by exact Hlt. now rewrite lookup_drop.
  - unfold wf. cbn [data shape].
    rewrite length_take, length_drop, prod_app, prod_singleton. lia.
  - cbn [shape]. now rewrite c_order_snoc_1.
Qed.

Lemma length_dirs_part (dirs : ndarray float) (S : list nat) (off : nat) :
  off + prod S <= length (data dirs) ->
  length (dirs_part dirs S off) = prod S.
Proof.
  intros Hlen. unfold dirs_part. rewrite length_flatten.
  - unfold size. cbn [shape]. rewrite prod_app, prod_singleton. lia.
  - unfold wf. cbn [data shape].
    rewrite length_take, length_drop, prod_app, prod_singleton. lia.
Qed.

(** [get_ray_directions] on given pixels returns, in the shape of the
    query with a last axis of 3, the values of [query_direction], and
    raises what the first query pixel that raises does. *)
Lemma get_ray_directions_query self sx sy e s dirs x y dx dy tol Coords :
  stored_ok self sx sy e s ->
  ray_directions self = Ok dirs ->
  query_ok self Coords x y dx dy ->
  get_ray_directions self (Some x) (Some y) tol Coords =
    do vs <- collect
               (query_direction
                  (dirs_part dirs (shape sx) 0)
                  (dirs_part dirs (shape sx) (prod (shape sx)))
                  (dirs_part dirs (shape sx) (2 * prod (shape sx)))
                  (data (flatten sx)) (data (flatten sy)) (data dx) (data dy) tol)
               (seq 0 (size dx));
    Ok (mk_ndarray (shape dx ++ [3]) (map vx vs ++ map vy vs ++ map vz vs)).
Proof.
  intros Hok Hd (Hsh & Hq & Wx & Wy & Sy).
  destruct (ray_directions_spec self sx sy e s Hok) as (dirs' & Hd' & Sd & Wd & _).
  assert (dirs' = dirs) as -> by congruence.
  destruct Hok as (Hx & Hy & _).
  unfold get_ray_directions. rewrite Hd. cbn [bind]. rewrite Hx, Hy.
  rewrite Hsh, shape_eqb_refl, Hq. cbn [bind].
  unfold wf in Wx, Wy.
  rewrite (reshape_F_ok dx) by (rewrite prod_singleton; exact Wx).
  cbn [bind].
  rewrite (reshape_F_ok dy) by (rewrite prod_singleton; exact Wy).
  cbn [bind shape data].
  unfold split3_last. rewrite Sd, split_last_app. cbn [bind].
  change (size {| shape := [size dx]; data := data dx |}) with (prod [size dx]).
  rewrite prod_singleton.
  fold (dirs_part dirs (shape sx) 0).
  fold (dirs_part dirs (shape sx) (prod (shape sx))).
  fold (dirs_part dirs (shape sx) (2 * prod (shape sx))).
  rewrite (for_loop_store _ _ (direction_body_eq _ _ _ _ _ _ _ _))
    by (cbn [Xout Yout Zout]; rewrite length_replicate; lia).
  destruct (collect _ (seq 0 (size dx))) as [vs|err] eqn:Hc; [|reflexivity].
  cbn [bind Xout Yout Zout].
  destruct (collect_ok _ _ _ Hc) as [Hl _]. rewrite length_seq in Hl.
  rewrite !take_0, !drop_ge by (rewrite length_replicate; lia).
  rewrite !app_nil_l, !app_nil_r.
  unfold reshape_F. cbn [data].
  rewrite !length_app, !length_map, Hl, prod_app, prod_singleton.
  fold (size dx).
  replace (size dx * 3 =? size dx + (size dx + size dx)) with true
    by (symmetry; apply Nat.eqb_eq; lia).
  reflexivity.
Qed.

(** The lengths of the flattened arrays of the stored pixels. *)
Lemma stored_lengths self sx sy e s :
  stored_ok self sx sy e s ->
  length (data (flatten sx)) = size sx /\ length (data (flatten sy)) = size sx.
Proof.
  intros (_ & _ & _ & _ & Wsx & Wsy & _ & _ & Ssy & _). split.
  - now apply length_flatten.
  - rewrite length_flatten by exact Wsy. unfold size. now rewrite Ssy.
Qed.

Lemma distances_stored self sx sy e s a b :
  stored_ok self sx sy e s ->
  distances (data (flatten sx)) (data (flatten sy)) a b = Ok (stored_distances sx sy a b) /\
  length (stored_distances sx sy a b) = size sx.
Proof.
  intros Hok. destruct (stored_lengths self sx sy e s Hok) as [Lx Ly].
  unfold distances, stored_distances. rewrite Lx, Ly, Nat.eqb_refl.
  split; [reflexivity|]. rewrite length_zip_with. lia.
Qed.

(** Every distance is a square root. *)
Lemma stored_distance_sqrt sx sy a b w :
  w ∈ stored_distances sx sy a b -> exists v, w = F64.sqrt v.
Proof.
  unfold stored_distances. intros Hw.
  apply list_elem_of_lookup in Hw as [i Hi].
  apply lookup_zip_with_Some in Hi as (u & v & -> & _ & _).
  unfold distance_to. eauto.
Qed.

Lemma query_pixel_lookup self Coords x y dx dy (p : nat) :
  query_ok self Coords x y dx dy -> p < size dx ->
  exists a b, data dx !! p = Some a /\ data dy !! p = Some b.
Proof.
  intros (_ & _ & Wx & Wy & Sy) Hp. unfold wf in Wx, Wy. fold (size dx) in Wx.
  destruct (lookup_lt_is_Some_2 (data dx) p) as [a Ha]; [lia|].
  destruct (lookup_lt_is_Some_2 (data dy) p) as [b Hb];
    [rewrite Wy, Sy; exact Hp|].
  eauto.
Qed.

(** *** Queries for no pixel *)

(** X5. A query for no pixel (arrays of size 0) returns an empty array,
    of the shape of the query for the lengths and with a last axis of 3
    for the directions, whatever the tolerance and the stored pixels. *)
Theorem queries_of_no_pixel self sx sy e s x y dx dy tol Coords :
  stored_ok self sx sy e s ->
  query_ok self Coords x y dx dy ->
  size dx = 0 ->
  get_ray_lengths self (Some x) (Some y) tol Coords = Ok (mk_ndarray (shape dx) []) /\
  get_ray_directions self (Some x) (Some y) tol Coords
    = Ok (mk_ndarray (shape dx ++ [3]) []).
Proof.
  intros Hok Hq Hz.
  destruct (ray_lengths_spec self sx sy e s Hok) as (RL & HRL & _).
  destruct (ray_directions_spec self sx sy e s Hok) as (dirs & Hd & _).
  split.
  - rewrite (get_ray_lengths_query self sx sy e s RL x y dx dy tol Coords Hok HRL Hq).
    now rewrite Hz.
  - rewrite (get_ray_directions_query self sx sy e s dirs x y dx dy tol Coords Hok Hd Hq).
    now rewrite Hz.
Qed.

(** *** Ray data without pixels *)

(** The first query pixel decides when it raises. *)
Lemma get_ray_directions_head self sx sy e s x y dx dy tol Coords a b err :
  stored_ok self sx sy e s ->
  query_ok self Coords x y dx dy ->
  data dx !! 0 = Some a -> data dy !! 0 = Some b ->
  (forall dX dY dZ,
     pixel_direction dX dY dZ (data (flatten sx)) (data (flatten sy)) tol a b = Err err) ->
  get_ray_directions self (Some x) (Some y) tol Coords = Err err.
Proof.
  intros Hok Hq Ha Hb Herr.
  destruct (ray_directions_spec self sx sy e s Hok) as (dirs & Hd & _).
  rewrite (get_ray_directions_query self sx sy e s dirs x y dx dy tol Coords Hok Hd Hq).
  assert (Hpos : 0 < size dx).
  { destruct Hq as (_ & _ & Wx & _). unfold wf in Wx. fold (size dx) in Wx.
    apply lookup_lt_Some in Ha. lia. }
  destruct (size dx) as [|m]; [lia|].
  cbn [seq collect]. unfold query_direction at 1, get_item.
  rewrite Ha, Hb. cbn [of_option bind]. now rewrite Herr.
Qed.

(** X6. On ray data of no pixel, a query for a pixel does not raise the
    no-nearby-ray error but numpy's ValueError for the minimum of an empty
    array: [get_ray_lengths] as soon as a query pixel has both
    coordinates, [get_ray_directions] for every query of one pixel or
    more. *)
Theorem queries_on_no_stored_pixel self sx sy e s x y dx dy tol Coords :
  stored_ok self sx sy e s ->
  query_ok self Coords x y dx dy ->
  size sx = 0 ->
  ((exists p a b, query_pixel dx dy p a b) ->
   get_ray_lengths self (Some x) (Some y) tol Coords = Err ValueError) /\
  (0 < size dx ->
   get_ray_directions self (Some x) (Some y) tol Coords = Err ValueError).
Proof.
  intros Hok Hq Hz.
  assert (Hd : forall a b,
            distances (data (flatten sx)) (data (flatten sy)) a b = Ok []).
  { intros a b. destruct (distances_stored self sx sy e s a b Hok) as [-> Hl].
    rewrite Hz in Hl. now destruct (stored_distances sx sy a b). }
  split.
  - intros (p & a & b & Ha & Hb & Han & Hbn).
    destruct (ray_lengths_spec self sx sy e s Hok) as (RL & HRL & _).
    rewrite (get_ray_lengths_query self sx sy e s RL x y dx dy tol Coords Hok HRL Hq).
    assert (Hp : p < size dx).
    { destruct Hq as (_ & _ & Wx & _). unfold wf in Wx. fold (size dx) in Wx.
      apply lookup_lt_Some in Ha. lia. }
    rewrite (collect_err _ _ ValueError); [reflexivity| |].
    + intros q Hq'. apply elem_of_seq in Hq'.
      destruct (query_pixel_lookup self Coords x y dx dy q Hq) as (a' & b' & Ha' & Hb');
        [lia|].
      unfold query_length, get_item. rewrite Ha', Hb'. cbn [of_option bind].
      unfold pixel_length. destruct (F64.isnan a' || F64.isnan b'); [left; eauto|].
      right. now rewrite Hd.
    + exists p. split; [apply elem_of_seq; lia|].
      unfold query_length, get_item. rewrite Ha, Hb. cbn [of_option bind].
      unfold pixel_length. rewrite Han, Hbn. cbn [orb]. now rewrite Hd.
  - intros Hpos.
    destruct (query_pixel_lookup self Coords x y dx dy 0 Hq Hpos) as (a & b & Ha & Hb).
    apply (get_ray_directions_head self sx sy e s x y dx dy tol Coords a b); try assumption.
    intros dX dY dZ. unfold pixel_direction. now rewrite Hd.
Qed.

(** *** A tolerance that is not a distance *)

Lemma stored_distances_not_within sx sy a b tol :
  F64.leb F64.zero tol = false ->
  forall w, w ∈ stored_distances sx sy a b -> F64.leb w tol = false.
Proof.
  intros Ht w Hw. destruct (stored_distance_sqrt sx sy a b w Hw) as [v ->].
  now apply F64.sqrt_not_leb.
Qed.

(** X7. With a tolerance that is negative or NaN, no stored pixel is ever
    near enough: on ray data of at least one pixel, [get_ray_lengths]
    raises the no-nearby-ray error as soon as a query pixel has both
    coordinates, and [get_ray_directions] for every query of one pixel or
    more. *)
Theorem queries_with_bad_tolerance self sx sy e s x y dx dy tol Coords :
  stored_ok self sx sy e s ->
  query_ok self Coords x y dx dy ->
  0 < size sx ->
  F64.leb F64.zero tol = false ->
  ((exists p a b, query_pixel dx dy p a b) ->
   get_ray_lengths self (Some x) (Some y) tol Coords = Err NoNearbyRay) /\
  (0 < size dx ->
   get_ray_directions self (Some x) (Some y) tol Coords = Err NoNearbyRay).
Proof.
  intros Hok Hq Hpos Ht.
  assert (Hne : forall a b, stored_distances sx sy a b <> []).
  { intros a b E. destruct (distances_stored self sx sy e s a b Hok) as [_ Hl].
    rewrite E in Hl. simpl in Hl. lia. }
  split.
  - intros (p & a & b & Ha & Hb & Han & Hbn).
    destruct (ray_lengths_spec self sx sy e s Hok) as (RL & HRL & _).
    rewrite (get_ray_lengths_query self sx sy e s RL x y dx dy tol Coords Hok HRL Hq).
    assert (Hp : p < size dx).
    { destruct Hq as (_ & _ & Wx & _). unfold wf in Wx. fold (size dx) in Wx.
      apply lookup_lt_Some in Ha. lia. }
    assert (Hfail : forall a' b', F64.isnan a' || F64.isnan b' = false ->
              pixel_length (data (flatten RL)) (data (flatten sx)) (data (flatten sy))
                tol a' b' = Err NoNearbyRay).
    { intros a' b' Hn. unfold pixel_length. rewrite Hn.
      destruct (distances_stored self sx sy e s a' b' Hok) as [-> _]. cbn [bind].
      destruct (reduce_not_within fmin (stored_distances sx sy a' b') tol fmin_pick
                  (Hne a' b') (stored_distances_not_within sx sy a' b' tol Ht))
        as (m & Hm & Hmt).
      unfold nanmin. rewrite Hm. cbn [bind]. now rewrite Hmt. }
    rewrite (collect_err _ _ NoNearbyRay); [reflexivity| |].
    + intros q Hq'. apply elem_of_seq in Hq'.
      destruct (query_pixel_lookup self Coords x y dx dy q Hq) as (a' & b' & Ha' & Hb');
        [lia|].
      unfold query_length, get_item. rewrite Ha', Hb'. cbn [of_option bind].
      destruct (F64.isnan a' || F64.isnan b') eqn:Hn.
      * left. rewrite pixel_length_nan by exact Hn. eauto.
      * right. now apply Hfail.
    + exists p. split; [apply elem_of_seq; lia|].
      unfold query_length, get_item. rewrite Ha, Hb. cbn [of_option bind].
      apply Hfail. now rewrite Han, Hbn.
  - intros Hdx.
    destruct (query_pixel_lookup self Coords x y dx dy 0 Hq Hdx) as (a & b & Ha & Hb).
    apply (get_ray_directions_head self sx sy e s x y dx dy tol Coords a b); try assumption.
    intros dX dY dZ. unfold pixel_direction.
    destruct (distances_stored self sx sy e s a b Hok) as [-> _]. cbn [bind].
    destruct (reduce_not_within minimum (stored_distances sx sy a b) tol minimum_pick
                (Hne a b) (stored_distances_not_within sx sy a b tol Ht))
      as (m & Hm & Hmt).
    unfold np_min. rewrite Hm. cbn [bind]. now rewrite Hmt.
Qed.

(** *** Directions by pixel coordinates *)

(** Stored pixel coordinates that hold a NaN make every query of
    [get_ray_directions] for one pixel or more fail. *)
Lemma get_ray_directions_nan_stored self sx sy e s x y dx dy tol Coords (k : nat) :
  stored_ok self sx sy e s ->
  query_ok self Coords x y dx dy ->
  0 < size dx ->
  data sx !! k = Some F64.nan \/ data sy !! k = Some F64.nan ->
  get_ray_directions self (Some x) (Some y) tol Coords = Err NoNearbyRay.
Proof.
  intros Hok Hq Hpos Hk.
  destruct (query_pixel_lookup self Coords x y dx dy 0 Hq Hpos) as (a & b & Ha & Hb).
  apply (get_ray_directions_head self sx sy e s x y dx dy tol Coords a b); try assumption.
  intros dX dY dZ. unfold pixel_direction.
  destruct (distances_stored self sx sy e s a b Hok) as [-> _]. cbn [bind].
  destruct Hok as (_ & _ & _ & _ & Wsx & Wsy & _ & _ & Ssy & _).
  rewrite np_min_has_nan by now apply (stored_nan_distance sx sy k).
  cbn [bind]. now rewrite F64.leb_nan_l.
Qed.

(** The direction found for a query pixel all of whose distances to the
    stored pixels are numbers, one of them within the tolerance. *)
Lemma pixel_direction_within self sx sy e s dirs tol a b :
  stored_ok self sx sy e s ->
  ray_directions self = Ok dirs ->
  no_nan (stored_distances sx sy a b) ->
  within tol (stored_distances sx sy a b) ->
  exists i v k ve vs,
    first_least (stored_distances sx sy a b) i v /\ F64.leb v tol = true /\
    c_order (shape sx) !! i = Some k /\
    vec_at e k = Some ve /\ vec_at s k = Some vs /\
    pixel_direction (dirs_part dirs (shape sx) 0)
      (dirs_part dirs (shape sx) (prod (shape sx)))
      (dirs_part dirs (shape sx) (2 * prod (shape sx)))
      (data (flatten sx)) (data (flatten sy)) tol a b
    = Ok (ray_direction ve vs).
Proof.
  intros Hok Hd Hnn Hw.
  destruct (ray_directions_spec self sx sy e s Hok) as (dirs' & Hd' & Sd & Wd & Hat).
  assert (dirs' = dirs) as -> by congruence.
  destruct (distances_stored self sx sy e s a b Hok) as [Hdist Hlen].
  destruct (nearest_of_numbers _ tol Hnn Hw) as (m & i & v & Hm & Hmt & Hi & Hfl & Hvt).
  assert (Hlt : i < prod (shape sx)).
  { destruct Hfl as (Hlk & _). apply lookup_lt_Some in Hlk.
    rewrite Hlen in Hlk. exact Hlk. }
  destruct (c_order_lookup_lt (shape sx) i Hlt) as (k & Hk & Hkl).
  set (N := prod (shape sx)) in *.
  destruct Hok as (_ & _ & _ & _ & _ & _ & We & Ws & _ & Se & Ss).
  assert (Le : length (data e) = N * 3).
  { unfold wf in We. rewrite We, Se, prod_app. unfold N, prod. simpl. lia. }
  assert (Ls : length (data s) = N * 3).
  { unfold wf in Ws. rewrite Ws, Ss, prod_app. unfold N, prod. simpl. lia. }
  assert (Ldirs : length (data dirs) = N * 3).
  { unfold wf in Wd. rewrite Wd, Sd, prod_app. unfold N, prod. simpl. lia. }
  destruct (vec_at_is_Some e N k Le Hkl) as [ve Hve].
  destruct (vec_at_is_Some s N k Ls Hkl) as [vs Hvs].
  pose proof (Hat k ve vs Hve Hvs) as Hdir.
  destruct (vec_at_Some dirs N k _ Ldirs Hdir) as (_ & D0 & D1 & D2).
  exists i, v, k, ve, vs. repeat (split; [assumption|]).
  unfold pixel_direction. rewrite Hdist. cbn [bind].
  rewrite Hm. cbn [bind]. rewrite Hmt, Hi. cbn [bind].
  unfold get_item.
  rewrite (lookup_dirs_part dirs (shape sx) 0 i k) by (assumption || (fold N; lia)).
  rewrite (lookup_dirs_part dirs (shape sx) N i k) by (assumption || (fold N; lia)).
  rewrite (lookup_dirs_part dirs (shape sx) (2 * N) i k) by (assumption || (fold N; lia)).
  replace (0 + k) with k by lia.
  replace (N + k) with (k + N) by lia.
  replace (2 * N + k) with (k + 2 * N) by lia.
  rewrite D0, D1, D2. reflexivity.
Qed.

(** X8. For query pixels all of whose distances to the stored pixels are
    numbers, [get_ray_directions] finds for each one the stored pixel at
    the least distance (the first one in row-major order) and, when that
    distance is within the tolerance, returns the direction of its ray:
    the result has the shape of the query with a last axis of 3.  It
    fails with the no-nearby-ray error as soon as one query pixel has no
    stored pixel within the tolerance. *)
Theorem get_ray_directions_nearest self sx sy e s x y dx dy tol Coords :
  stored_ok self sx sy e s ->
  query_ok self Coords x y dx dy ->
  (forall (p : nat) a b, data dx !! p = Some a -> data dy !! p = Some b ->
     no_nan (stored_distances sx sy a b)) ->
  ((forall (p : nat) a b, data dx !! p = Some a -> data dy !! p = Some b ->
      within tol (stored_distances sx sy a b)) ->
   exists out,
     get_ray_directions self (Some x) (Some y) tol Coords = Ok out /\
     shape out = shape dx ++ [3] /\
     forall (p : nat) a b, data dx !! p = Some a -> data dy !! p = Some b ->
       exists i v k ve vs,
         first_least (stored_distances sx sy a b) i v /\ F64.leb v tol = true /\
         c_order (shape sx) !! i = Some k /\
         vec_at e k = Some ve /\ vec_at s k = Some vs /\
         vec_at out p = Some (ray_direction ve vs)) /\
  ((exists (p : nat) a b, data dx !! p = Some a /\ data dy !! p = Some b /\
      stored_distances sx sy a b <> [] /\
      ~ within tol (stored_distances sx sy a b)) ->
   get_ray_directions self (Some x) (Some y) tol Coords = Err NoNearbyRay).
Proof.
  intros Hok Hq Hnn.
  destruct (ray_directions_spec self sx sy e s Hok) as (dirs & Hd & _).
  rewrite (get_ray_directions_query self sx sy e s dirs x y dx dy tol Coords Hok Hd Hq).
  set (f := query_direction (dirs_part dirs (shape sx) 0)
              (dirs_part dirs (shape sx) (prod (shape sx)))
              (dirs_part dirs (shape sx) (2 * prod (shape sx)))
              (data (flatten sx)) (data (flatten sy)) (data dx) (data dy) tol).
  assert (Hsz : length (data dx) = size dx).
  { destruct Hq as (_ & _ & Wx & _). exact Wx. }
  split.
  - intros Hall.
    assert (Hval : forall (p : nat) a b, data dx !! p = Some a -> data dy !! p = Some b ->
              exists i v k ve vs,
                first_least (stored_distances sx sy a b) i v /\ F64.leb v tol = true /\
                c_order (shape sx) !! i = Some k /\
                vec_at e k = Some ve /\ vec_at s k = Some vs /\
                f p = Ok (ray_direction ve vs)).
    { intros p a b Ha Hb.
      destruct (pixel_direction_within self sx sy e s dirs tol a b Hok Hd
                  (Hnn p a b Ha Hb) (Hall p a b Ha Hb))
        as (i & v & k & ve & vs & H1 & H2 & H3 & H4 & H5 & H6).
      exists i, v, k, ve, vs. repeat (split; [assumption|]).
      unfold f, query_direction, get_item. rewrite Ha, Hb. exact H6. }
    destruct (collect_all_ok f (seq 0 (size dx))) as [vs Hvs].
    { intros p Hp. apply elem_of_seq in Hp.
      destruct (query_pixel_lookup self Coords x y dx dy p Hq) as (a & b & Ha & Hb);
        [lia|].
      destruct (Hval p a b Ha Hb) as (i & v & k & ve & vs & _ & _ & _ & _ & _ & H).
      eauto. }
    rewrite Hvs. cbn [bind]. eexists. split; [reflexivity|]. split; [reflexivity|].
    intros p a b Ha Hb.
    destruct (Hval p a b Ha Hb) as (i & v & k & ve & vs' & H1 & H2 & H3 & H4 & H5 & H6).
    exists i, v, k, ve, vs'. repeat (split; [assumption|]).
    destruct (collect_ok _ _ _ Hvs) as [Hl Hget]. rewrite length_seq in Hl.
    assert (Hp : p < size dx) by (apply lookup_lt_Some in Ha; lia).
    destruct (Hget p p) as (r & Hr & Hvp); [apply lookup_seq; lia|].
    assert (r = ray_direction ve vs') as -> by congruence.
    apply (vec_at_intro _ (size dx) p); cbn [data].
    + rewrite !length_app, !length_map. lia.
    + exact Hp.
    + rewrite lookup_app_l by (rewrite length_map; lia).
      now rewrite list_lookup_fmap, Hvp.
    + rewrite lookup_app_r by (rewrite length_map; lia).
      rewrite lookup_app_l by (rewrite !length_map; lia).
      rewrite length_map, list_lookup_fmap.
      replace (p + size dx - length vs) with p by lia. now rewrite Hvp.
    + rewrite lookup_app_r by (rewrite length_map; lia).
      rewrite lookup_app_r by (rewrite !length_map; lia).
      rewrite !length_map, list_lookup_fmap.
      replace (p + 2 * size dx - length vs - length vs) with p by lia. now rewrite Hvp.
  - intros (p & a & b & Ha & Hb & Hne & Hnw).
    assert (Hp : p < size dx) by (apply lookup_lt_Some in Ha; lia).
    assert (Hcase : forall (q : nat) a' b', data dx !! q = Some a' -> data dy !! q = Some b' ->
              (within tol (stored_distances sx sy a' b') /\ exists v, f q = Ok v) \/
              (~ within tol (stored_distances sx sy a' b') /\
               (stored_distances sx sy a' b' <> [] -> f q = Err NoNearbyRay))).
    { intros q a' b' Ha' Hb'.
      destruct (within_dec tol (stored_distances sx sy a' b')) as [Hw|Hw].
      - left. split; [exact Hw|].
        destruct (pixel_direction_within self sx sy e s dirs tol a' b' Hok Hd
                    (Hnn q a' b' Ha' Hb') Hw)
          as (i & v & k & ve & vs & _ & _ & _ & _ & _ & H).
        exists (ray_direction ve vs).
        unfold f, query_direction, get_item. rewrite Ha', Hb'. exact H.
      - right. split.
        + intros (w & Hin & Hle). rewrite (Hw w Hin) in Hle. discriminate.
        + intros Hne'. unfold f, query_direction, get_item. rewrite Ha', Hb'.
          cbn [of_option bind]. unfold pixel_direction.
          destruct (distances_stored self sx sy e s a' b' Hok) as [-> _]. cbn [bind].
          destruct (reduce_not_within minimum _ tol minimum_pick Hne' Hw)
            as (m & Hm & Hmt).
          unfold np_min. rewrite Hm. cbn [bind]. now rewrite Hmt. }
    assert (Hsame : forall a' b', stored_distances sx sy a' b' <> []).
    { intros a' b' E. apply Hne.
      destruct (distances_stored self sx sy e s a b Hok) as [_ L1].
      destruct (distances_stored self sx sy e s a' b' Hok) as [_ L2].
      rewrite E in L2. simpl in L2. rewrite <- L2 in L1.
      now destruct (stored_distances sx sy a b). }
    rewrite (collect_err _ _ NoNearbyRay); [reflexivity| |].
    + intros q Hq'. apply elem_of_seq in Hq'.
      destruct (query_pixel_lookup self Coords x y dx dy q Hq) as (a' & b' & Ha' & Hb');
        [lia|].
      destruct (Hcase q a' b' Ha' Hb') as [[_ [v Hv]] | [_ Hf]]; [left; eauto|].
      right. apply Hf, Hsame.
    + exists p. split; [apply elem_of_seq; lia|].
      destruct (Hcase p a b Ha Hb) as [[Hw _] | [_ Hf]]; [contradiction|].
      now apply Hf.
Qed.

(** *** Asking at a stored pixel *)

(** A pixel with finite coordinates is at distance [+0] of itself. *)
Lemma distance_to_self a b :
  F64.isfinite a = true -> F64.isfinite b = true ->
  distance_to a b a b = F64.zero.
Proof.
  intros Ha Hb. unfold distance_to.
  rewrite !F64.sub_diag_finite by assumption. reflexivity.
Qed.

(** The first position of the least distance is the position of a
    distance [0] before which no distance is [0]. *)
Lemma first_least_at_zero sx sy a b (i j : nat) v :
  first_least (stored_distances sx sy a b) i v ->
  stored_distances sx sy a b !! j = Some F64.zero ->
  (forall (j' : nat) w, j' < j -> stored_distances sx sy a b !! j' = Some w ->
     F64.leb w F64.zero = false) ->
  i = j.
Proof.
  intros (Hi & Hv & Hall & Hfirst) Hj Hbefore.
  assert (Hvz : F64.leb v F64.zero = true).
  { destruct (Hall j F64.zero Hj) as [H|H]; [discriminate|exact H]. }
  destruct (Nat.lt_trichotomy i j) as [Hlt | [Heq | Hgt]]; [|exact Heq|].
  - rewrite (Hbefore i v Hlt Hi) in Hvz. discriminate.
  - pose proof (Hfirst j F64.zero Hgt Hj) as Hzv.
    destruct (stored_distance_sqrt sx sy a b v) as [u ->];
      [now apply list_elem_of_lookup_2 in Hi|].
    destruct (F64.sqrt_nonneg u) as [H|H]; congruence.
Qed.

(** X9. Asking [get_ray_lengths] for the coordinates of a stored pixel
    gives the length of that pixel's own ray, for every tolerance that is
    not negative: the pixel is at distance 0 of itself.  Only a stored
    pixel that comes before it in row-major order and is at distance 0
    too would be found in its place. *)
Theorem get_ray_lengths_at_stored_pixel
    self sx sy e s RL x y dx dy tol Coords (p j : nat) a b :
  stored_ok self sx sy e s ->
  ray_lengths self = Ok RL ->
  query_ok self Coords x y dx dy ->
  F64.isfinite tol = true -> F64.leb F64.zero tol = true ->
  (forall q a' b', query_pixel dx dy q a' b' ->
     within tol (stored_distances sx sy a' b')) ->
  data dx !! p = Some a -> data dy !! p = Some b ->
  F64.isfinite a = true -> F64.isfinite b = true ->
  data (flatten sx) !! j = Some a -> data (flatten sy) !! j = Some b ->
  (forall (j' : nat) w, j' < j -> stored_distances sx sy a b !! j' = Some w ->
     F64.leb w F64.zero = false) ->
  exists out r,
    get_ray_lengths self (Some x) (Some y) tol Coords = Ok out /\
    data (flatten RL) !! j = Some r /\
    data out !! p = Some r.
Proof.
  intros Hok HRL Hq Ht Htz Hall Ha Hb Hfa Hfb Hja Hjb Hbefore.
  assert (Hpos : 0 < size sx).
  { destruct (stored_lengths self sx sy e s Hok) as [Lx _].
    apply lookup_lt_Some in Hja. lia. }
  assert (Hj : stored_distances sx sy a b !! j = Some F64.zero).
  { unfold stored_distances. rewrite lookup_zip_with, Hja. cbn [mbind option_bind].
    rewrite Hjb. cbn [mbind option_bind]. now rewrite distance_to_self. }
  rewrite (get_ray_lengths_query self sx sy e s RL x y dx dy tol Coords Hok HRL Hq).
  pose proof (fun q => query_length_cases self sx sy e s RL x y dx dy tol Coords q
                         Hok Hpos HRL Hq Ht) as Hcases.
  assert (Hp : p < size dx).
  { destruct Hq as (_ & _ & Wx & _). unfold wf in Wx. fold (size dx) in Wx.
    apply lookup_lt_Some in Ha. lia. }
  destruct (collect_all_ok
              (query_length (data (flatten RL)) (data (flatten sx))
                 (data (flatten sy)) (data dx) (data dy) tol)
              (seq 0 (size dx))) as [vs Hvs].
  { intros q Hq'. apply elem_of_seq in Hq'.
    destruct (Hcases q ltac:(lia))
      as (a' & b' & _ & _ & [[_ H] | [(_ & _ & H) | (Hqp & Hnw & _)]]).
    - eauto.
    - destruct H as (i & v & r & _ & _ & _ & H). eauto.
    - exfalso. apply Hnw. now apply (Hall q a' b'). }
  rewrite Hvs. cbn [bind].
  destruct (collect_ok _ _ _ Hvs) as [_ Hget].
  destruct (Hget p p) as (r & Hr & Hvp); [apply lookup_seq; lia|].
  destruct (Hcases p Hp) as (a' & b' & Ha' & Hb' & Hc).
  assert (a' = a) as -> by congruence. assert (b' = b) as -> by congruence.
  assert (Hna : F64.isnan a = false) by now apply F64.isfinite_not_nan.
  assert (Hnb : F64.isnan b = false) by now apply F64.isfinite_not_nan.
  eexists. exists r. split; [reflexivity|]. split; [|exact Hvp].
  destruct Hc as [[Hn _] | [(_ & _ & H) | (_ & Hnw & _)]].
  - rewrite Hna, Hnb in Hn. discriminate.
  - destruct H as (i & v & r' & Hfl & _ & Hri & Hql).
    rewrite (first_least_at_zero sx sy a b i j v Hfl Hj Hbefore) in Hri. congruence.
  - exfalso. apply Hnw. apply (Hall p a b). now repeat split.
Qed.

(** *** A larger tolerance *)

Lemma for_loop_mono {S : Type} (body body' : S -> nat -> result S)
    (inds : list nat) (st st' : S) :
  (forall st i st', body st i = Ok st' -> body' st i = Ok st') ->
  for_loop body inds st = Ok st' -> for_loop body' inds st = Ok st'.
Proof.
  intros Hb. revert st. induction inds as [|i rest IH]; intros st H; [exact H|].
  simpl in *. destruct (body st i) as [st1|] eqn:E; [|discriminate].
  rewrite (Hb st i st1 E). cbn [bind] in *. now apply IH.
Qed.

Lemma length_body_mono RayLength xflat yflat x y tol tol' RL pointno RL' :
  F64.leb tol tol' = true ->
  length_body RayLength xflat yflat x y tol RL pointno = Ok RL' ->
  length_body RayLength xflat yflat x y tol' RL pointno = Ok RL'.
Proof.
  intros Hle. unfold length_body.
  destruct (get_item x pointno) as [xp|]; [|discriminate]. cbn [bind].
  destruct (get_item y pointno) as [yp|]; [|discriminate]. cbn [bind].
  destruct (F64.isnan xp || F64.isnan yp); [auto|].
  destruct (distances xflat yflat xp yp) as [d|]; [|discriminate]. cbn [bind].
  destruct (nanmin d) as [m|]; [|discriminate]. cbn [bind].
  destruct (F64.leb m tol) eqn:Hm; [|discriminate].
  now rewrite (F64.leb_trans m tol tol' Hm Hle).
Qed.

Lemma direction_body_mono dirs_X dirs_Y dirs_Z xflat yflat x y tol tol' out pointno out' :
  F64.leb tol tol' = true ->
  direction_body dirs_X dirs_Y dirs_Z xflat yflat x y tol out pointno = Ok out' ->
  direction_body dirs_X dirs_Y dirs_Z xflat yflat x y tol' out pointno = Ok out'.
Proof.
  intros Hle. unfold direction_body.
  destruct (get_item x pointno) as [xp|]; [|discriminate]. cbn [bind].
  destruct (get_item y pointno) as [yp|]; [|discriminate]. cbn [bind].
  destruct (distances xflat yflat xp yp) as [d|]; [|discriminate]. cbn [bind].
  destruct (np_min d) as [m|]; [|discriminate]. cbn [bind].
  destruct (F64.leb m tol) eqn:Hm; [|discriminate].
  now rewrite (F64.leb_trans m tol tol' Hm Hle).
Qed.

(** X10. A larger tolerance never changes an answer: a query that returns
    with one tolerance returns the same array with every tolerance above
    it; a larger tolerance only turns no-nearby-ray errors into
    answers. *)
Theorem queries_with_larger_tolerance self x y tol tol' Coords out :
  F64.leb tol tol' = true ->
  (get_ray_lengths self x y tol Coords = Ok out ->
   get_ray_lengths self x y tol' Coords = Ok out) /\
  (get_ray_directions self x y tol Coords = Ok out ->
   get_ray_directions self x y tol' Coords = Ok out).
Proof.
  intros Hle. split.
  - unfold get_ray_lengths.
    destruct (ray_lengths self) as [RL|]; [|discriminate]. cbn [bind].
    destruct x as [qx|], y as [qy|]; try (intros H; exact H).
    destruct (RayData.x self) as [sx|]; [|discriminate].
    destruct (RayData.y self) as [sy|]; [|discriminate].
    destruct (shape_eqb (shape qx) (shape qy)); [|discriminate].
    destruct (query_coords self Coords qx qy) as [[dx dy]|]; [|discriminate].
    cbn [bind].
    destruct (reshape_F dx [size dx]) as [fx|]; [|discriminate]. cbn [bind].
    destruct (reshape_F dy [size dy]) as [fy|]; [|discriminate]. cbn [bind].
    destruct (for_loop _ _ _) as [vals|] eqn:E; [|discriminate].
    match type of E with
    | for_loop (length_body ?a ?b ?c ?d ?e _) _ _ = _ =>
        apply (for_loop_mono _ (length_body a b c d e tol')) in E;
        [|intros st i st'; apply length_body_mono; exact Hle]
    end.
    now rewrite E.
  - unfold get_ray_directions.
    destruct (ray_directions self) as [dirs|]; [|discriminate]. cbn [bind].
    destruct x as [qx|], y as [qy|]; try (intros H; exact H).
    destruct (RayData.x self) as [sx|]; [|discriminate].
    destruct (RayData.y self) as [sy|]; [|discriminate].
    destruct (shape_eqb (shape qx) (shape qy)); [|discriminate].
    destruct (query_coords self Coords qx qy) as [[dx dy]|]; [|discriminate].
    cbn [bind].
    destruct (reshape_F dx [size dx]) as [fx|]; [|discriminate]. cbn [bind].
    destruct (reshape_F dy [size dy]) as [fy|]; [|discriminate]. cbn [bind].
    destruct (split3_last dirs) as [[[dX dY] dZ]|]; [|discriminate]. cbn [bind].
    destruct (for_loop _ _ _) as [vals|] eqn:E; [|discriminate].
    match type of E with
    | for_loop (direction_body ?a ?b ?c ?d ?e ?f ?g _) _ _ = _ =>
        apply (for_loop_mono _ (direction_body a b c d e f g tol')) in E;
        [|intros st i st'; apply direction_body_mono; exact Hle]
    end.
    now rewrite E.
Qed.

End Queries.

Section Files.

(** [os.path.join(paths.raydata, SaveName + '.nc')], whether a file can be
    opened for writing, and the transformer class and [eval], as in the
    section above. *)
Variable nc_path : string -> string.
Variable openable : string -> bool.
Variable new_transformer : CoordTransformer.
Variable set_transform_actions :
  CoordTransformer -> list string -> result CoordTransformer.
Variable eval_other : CoordTransformer -> string -> result CoordTransformer.

Local Abbreviation save := (save nc_path openable).
Local Abbreviation load := (load nc_path new_transformer set_transform_actions eval_other).
Local Abbreviation set_actions_from :=
  (set_actions_from new_transformer set_transform_actions eval_other).

(** [RayData.__init__]: every attribute starts as [None]; with a file
    name, the ray data are those [load] reads from the file. *)
Definition empty {P : Type} : t P := mk None None None None None None None None.

Definition init (filename : option string) (d : disk) : result (t Z) :=
  match filename with
  | None => Ok empty
  | Some SaveName => load SaveName d
  end.

(** *** What [save] does to the disk *)

Lemma save_disk self SaveName (d : disk) :
  openable (nc_path SaveName) = true ->
  snd (save self SaveName d) =
    <[nc_path SaveName :=
        match contents self with Ok f => Some f | Err _ => None end]> d.
Proof.
  intros Hopen. unfold RayData.save. rewrite Hopen.
  destruct (contents self) as [f|err]; cbn [snd]; [|reflexivity].
  apply insert_insert_eq.
Qed.

Lemma save_result self SaveName (d : disk) :
  openable (nc_path SaveName) = true ->
  fst (save self SaveName d) =
    match contents self with Ok _ => Ok tt | Err err => Err err end.
Proof.
  intros Hopen. unfold RayData.save. rewrite Hopen. now destruct (contents self).
Qed.

(** When [save] returns, the ray data had a transform and pixel arrays
    [x] and [y] of one or two dimensions. *)
Lemma contents_Ok self f :
  contents self = Ok f ->
  is_Some (transform self) /\ is_Some (RayData.y self) /\
  exists sx, RayData.x self = Some sx /\
             (length (shape sx) = 1 \/ length (shape sx) = 2).
Proof.
  unfold contents. intros H.
  destruct (transform self) as [T|]; [|discriminate].
  destruct (RayData.x self) as [sx|]; [|discriminate].
  cbn [of_option bind] in H.
  destruct (RayData.y self) as [sy|].
  - split; [eauto|]. split; [eauto|]. exists sx. split; [reflexivity|].
    destruct (shape sx) as [|v [|u [|w r]]]; try discriminate; simpl; auto.
  - exfalso.
    repeat match type of H with
           | bind ?m _ = Ok _ =>
               let E := fresh "E" in
               destruct m eqn:E; cbn [of_option bind] in H; [|discriminate]
           | (let '(_, _) := ?p in _) = _ => destruct p
           end.
    discriminate.
Qed.

(** X11. [save] is not atomic.  Where the file can be opened, it is
    emptied before anything else is done: when [save] then raises, which
    it does for ray data without a transform, without pixel arrays, or
    with pixel arrays that are not of one or two dimensions, the data set
    an earlier [save] had left under that name is lost and loading the
    name fails, while every other file keeps what it held.  Where the
    file cannot be opened, [save] raises and the disk is as it was. *)
Theorem save_touches_one_file self SaveName (d : disk) :
  (openable (nc_path SaveName) = false ->
   save self SaveName d = (Err OSError, d)) /\
  (openable (nc_path SaveName) = true ->
   (forall p, p <> nc_path SaveName -> snd (save self SaveName d) !! p = d !! p) /\
   (forall other, nc_path other <> nc_path SaveName ->
      load other (snd (save self SaveName d)) = load other d) /\
   (transform self = None \/ RayData.x self = None \/ RayData.y self = None \/
    (exists sx, RayData.x self = Some sx /\
                length (shape sx) <> 1 /\ length (shape sx) <> 2) ->
    exists err,
      fst (save self SaveName d) = Err err /\
      snd (save self SaveName d) !! nc_path SaveName = Some None /\
      load SaveName (snd (save self SaveName d)) = Err CorruptOrIncompatible)).
Proof.
  split.
  - intros Hopen. unfold RayData.save. now rewrite Hopen.
  - intros Hopen. split; [|split].
    + intros p Hp. rewrite save_disk by exact Hopen. now apply lookup_insert_ne.
    + intros other Hp. unfold RayData.load. rewrite save_disk by exact Hopen.
      now rewrite lookup_insert_ne by congruence.
    + intros Hbad.
      assert (Hc : exists err, contents self = Err err).
      { destruct (contents self) as [f|err] eqn:E; [|eauto].
        destruct (contents_Ok self f E) as ([T HT] & [sy Hy] & sx & Hx & Hrank).
        destruct Hbad as [H|[H|[H|(sx' & H & H1 & H2)]]]; try congruence.
        rewrite Hx in H. injection H as <-. lia. }
      destruct Hc as [err Hc]. exists err.
      rewrite save_result, save_disk by exact Hopen. rewrite Hc.
      split; [reflexivity|].
      unfold RayData.load. now rewrite lookup_insert_eq.
Qed.

(** *** Which ray data [save] writes *)

(** X12. Where the file can be opened, [save] writes ray data whose pixel
    arrays have one or two dimensions, and no other: for ray data of
    every other rank (a single pixel given as two scalars has rank 0) it
    raises the unsupported-shape error, and the file it opened stays
    behind without a data set. *)
Theorem save_accepts_two_ranks self sx sy e s T rt SaveName (d : disk) :
  stored_ok self sx sy e s ->
  transform self = Some T -> ResultType self = Some rt ->
  openable (nc_path SaveName) = true ->
  (length (shape sx) = 1 \/ length (shape sx) = 2 ->
   exists f, contents self = Ok f /\
     save self SaveName d = (Ok tt, <[nc_path SaveName := Some f]> d)) /\
  (length (shape sx) <> 1 -> length (shape sx) <> 2 ->
   save self SaveName d
     = (Err UnsupportedShape, <[nc_path SaveName := None]> d)).
Proof.
  intros (Hx & Hy & He & Hs & _ & _ & _ & _ & Sy & Se & Ss) HT Hrt Hopen.
  split.
  - intros Hrank.
    assert (Hc : exists f, contents self = Ok f).
    { unfold contents. rewrite HT, Hrt, Hx. cbn [of_option bind].
      assert (Hdims : exists dp : gmap string nat * list string,
                match shape sx with
                | [v; u] =>
                    Ok (<["vdim"%string := v]>
                          (<["udim"%string := u]> (<["pointdim"%string := 3]> ∅)),
                        ["vdim"%string; "udim"%string])
                | [u] => Ok (<["udim"%string := size sx]> (<["pointdim"%string := 3]> ∅),
                             ["udim"%string])
                | _ => Err UnsupportedShape
                end = Ok dp).
      { destruct (shape sx) as [|v [|u [|w r]]]; simpl in Hrank; try lia; eauto. }
      destruct Hdims as ([dims pixel_dims] & ->). cbn [bind].
      rewrite He, Hs, Hy. cbn [of_option bind].
      unfold assign_f4, assign_i4.
      rewrite Se, Ss, Sy, !shape_eqb_refl. cbn [bind]. eauto. }
    destruct Hc as [f Hf]. exists f. split; [exact Hf|].
    unfold RayData.save. rewrite Hopen, Hf. f_equal. apply insert_insert_eq.
  - intros H1 H2. unfold RayData.save, contents.
    rewrite Hopen, HT, Hrt, Hx. cbn [of_option bind].
    destruct (shape sx) as [|v [|u [|w r]]]; simpl in H1, H2; try lia; reflexivity.
Qed.

(** *** The names of the transform actions, there and back *)

(** Ray data that [save] writes: as [savable], with nothing asked of the
    names of the transform actions. *)
Definition writable (self : t float) (sx sy e s : ndarray float)
    (T : CoordTransformer) (rt : string) : Prop :=
  RayData.x self = Some sx /\ RayData.y self = Some sy /\
  ray_end_coords self = Some e /\ ray_start_coords self = Some s /\
  transform self = Some T /\ ResultType self = Some rt /\
  (length (shape sx) = 1 \/ length (shape sx) = 2) /\ wf sx /\
  shape sy = shape sx /\
  shape e = shape sx ++ [3] /\ shape s = shape sx ++ [3] /\
  match binning self with
  | Some b => F64.in_int32 b = true /\ b <> 0%Z /\ fullchip self = Some true
  | None => fullchip self = Some false
  end /\
  F64.in_int32 (x_pixels T) = true /\ F64.in_int32 (y_pixels T) = true.

(** What [load] returns for the file [save] wrote, when the transformer
    that [set_transform_actions] made holds the names [acts]. *)
Definition reloaded_as (acts : list string) (self : t float)
    (sx sy e s : ndarray float) (T : CoordTransformer) (rt : string) : t Z :=
  mk (Some (amap F64.to_f32 e)) (Some (amap F64.to_f32 s))
     (binning self)
     (Some (Build_CoordTransformer acts (x_pixels T) (y_pixels T)
              (F64.to_f32 (pixel_aspectratio T))))
     (fullchip self)
     (Some (amap F64.to_i32 sx)) (Some (amap F64.to_i32 sy))
     (Some rt).

Lemma contents_writable self sx sy e s T rt :
  writable self sx sy e s T rt ->
  exists f,
    contents self = Ok f /\
    attributes f !! "ResultType"%string = Some rt /\
    attributes f !! "image_transform_actions"%string
      = Some (serialize_list (transform_actions T)) /\
    f4_data f "RayEndCoords" = Ok (amap F64.to_f32 e) /\
    f4_data f "RayStartCoords" = Ok (amap F64.to_f32 s) /\
    i4_data f "PixelXLocation" = Ok (amap F64.to_i32 sx) /\
    i4_data f "PixelYLocation" = Ok (amap F64.to_i32 sy) /\
    i4_data f "Binning"
      = Ok (mk_ndarray [] [match binning self with Some b => b | None => 0%Z end]) /\
    i4_data f "image_original_shape"
      = Ok (mk_ndarray [2] [x_pixels T; y_pixels T]) /\
    f4_data f "image_original_pixel_aspect"
      = Ok (mk_ndarray [] [F64.to_f32 (pixel_aspectratio T)]).
Proof.
  intros (Hx & Hy & He & Hs & HT & Hrt & Hrank & Wx & Sy & Se & Ss & Hb & Hxp & Hyp).
  unfold contents. rewrite HT, Hrt, Hx. cbn [of_option bind].
  assert (Hdims : exists dp : gmap string nat * list string,
            match shape sx with
            | [v; u] =>
                Ok (<["vdim"%string := v]>
                      (<["udim"%string := u]> (<["pointdim"%string := 3]> ∅)),
                    ["vdim"%string; "udim"%string])
            | [u] => Ok (<["udim"%string := size sx]> (<["pointdim"%string := 3]> ∅),
                         ["udim"%string])
            | _ => Err UnsupportedShape
            end = Ok dp).
  { destruct (shape sx) as [|v [|u [|w r]]]; simpl in Hrank; try lia; eauto. }
  destruct Hdims as ([dims pixel_dims] & ->). cbn [bind].
  rewrite He, Hs, Hy. cbn [of_option bind].
  unfold assign_f4, assign_i4.
  rewrite Se, Ss, Sy, !shape_eqb_refl. cbn [bind].
  eexists. split; [reflexivity|]. cbn [attributes variables].
  unfold f4_data, i4_data. cbn [variables].
  repeat split; try reflexivity.
  - destruct (binning self) as [b|].
    + destruct Hb as (Hb & _). unfold scalar_i4. now rewrite (wrap32_small b Hb).
    + reflexivity.
  - now rewrite (wrap32_small _ Hxp), (wrap32_small _ Hyp).
Qed.

(** Loading what [save] wrote: everything but the transform comes from
    the file as it is, and the transform is the one [eval] and
    [set_transform_actions] make of the text of the names. *)
Lemma load_save_as_read self sx sy e s T rt SaveName (d : disk) :
  writable self sx sy e s T rt ->
  openable (nc_path SaveName) = true ->
  exists f,
    attributes f !! "image_transform_actions"%string
      = Some (serialize_list (transform_actions T)) /\
    save self SaveName d = (Ok tt, <[nc_path SaveName := Some f]> d) /\
    load SaveName (<[nc_path SaveName := Some f]> d) =
      (do T' <- set_actions_from (serialize_list (transform_actions T));
       Ok (reloaded_as (transform_actions T') self sx sy e s T rt)).
Proof.
  intros Hw Hopen.
  destruct (contents_writable self sx sy e s T rt Hw)
    as (f & Hf & Hrt & Hact & He & Hs & Hx & Hy & Hb & Hpx & Hasp).
  destruct Hw as (_ & _ & _ & _ & _ & _ & _ & _ & _ & _ & _ & Hbin & _ & _).
  exists f. split; [exact Hact|]. split.
  { unfold RayData.save. rewrite Hopen, Hf. f_equal. apply insert_insert_eq. }
  unfold RayData.load. rewrite lookup_insert_eq. cbn [bind].
  rewrite Hrt, He, Hs, Hb. cbn [of_option bind data lookup list_lookup].
  rewrite Hx, Hy, Hact. cbn [of_option bind].
  destruct (set_actions_from (serialize_list (transform_actions T))) as [T'|err].
  - cbn [bind].
    rewrite Hpx, Hasp. cbn [of_option bind data lookup list_lookup].
    unfold reloaded_as.
    destruct (binning self) as [b|].
    + destruct Hbin as (_ & Hnz & ->).
      destruct (Z.eqb_spec b 0) as [E|E]; [contradiction|reflexivity].
    + rewrite Hbin. reflexivity.
  - destruct (binning self) as [b|]; [destruct (Z.eqb b 0)|]; reflexivity.
Qed.

(** X13. A transform without actions is not written as it is: [save]
    writes the empty list of names as the text of a list that holds the
    empty string, and that list, not the empty one, is what [load] reads
    and hands to [set_transform_actions], which decides what comes of
    it.  The sensor size comes back as it was. *)
Theorem load_save_no_actions self sx sy e s T rt SaveName (d : disk) :
  writable self sx sy e s T rt ->
  openable (nc_path SaveName) = true ->
  transform_actions T = [] ->
  exists f,
    attributes f !! "image_transform_actions"%string = Some "['']"%string /\
    save self SaveName d = (Ok tt, <[nc_path SaveName := Some f]> d) /\
    load SaveName (<[nc_path SaveName := Some f]> d) =
      (do T' <- set_transform_actions new_transformer [""%string];
       Ok (reloaded_as (transform_actions T') self sx sy e s T rt)) /\
    forall r', load SaveName (<[nc_path SaveName := Some f]> d) = Ok r' ->
      x_pixels <$> transform r' = Some (x_pixels T) /\
      y_pixels <$> transform r' = Some (y_pixels T).
Proof.
  intros Hw Hopen Hnil.
  destruct (load_save_as_read self sx sy e s T rt SaveName d Hw Hopen)
    as (f & Htext & Hsave & Hload).
  rewrite Hnil in Htext, Hload.
  exists f. split; [exact Htext|]. split; [exact Hsave|].
  change (set_actions_from (serialize_list []))
    with (set_transform_actions new_transformer [""%string]) in Hload.
  split; [exact Hload|].
  intros r' Hr. rewrite Hload in Hr.
  destruct (set_transform_actions new_transformer [""%string]) as [T'|err];
    [|discriminate].
  injection Hr as <-. split; reflexivity.
Qed.

(** *** What [load] sets *)

(** X14. Ray data made from a file have every attribute set, and their
    binning is never 0: a stored binning of 0 is read as no binning and
    not a full-chip cast, and any other as a full-chip cast. *)
Theorem loaded_ray_data filename (d : disk) r :
  init (Some filename) d = Ok r ->
  is_Some (ray_end_coords r) /\ is_Some (ray_start_coords r) /\
  is_Some (RayData.x r) /\ is_Some (RayData.y r) /\
  is_Some (transform r) /\ is_Some (ResultType r) /\
  match binning r with
  | Some b => b <> 0%Z /\ fullchip r = Some true
  | None => fullchip r = Some false
  end.
Proof.
  unfold init, RayData.load. intros H.
  repeat match type of H with
         | bind ?m _ = Ok _ =>
             let E := fresh "E" in
             destruct m eqn:E; cbn [bind] in H; [|discriminate]
         end.
  match type of H with
  | context [Z.eqb ?b 0] => destruct (Z.eqb_spec b 0) as [Hz|Hz]
  end.
  - repeat match type of H with
           | bind ?m _ = Ok _ =>
               let E := fresh "E" in
               destruct m eqn:E; cbn [bind] in H; [|discriminate]
           end.
    injection H as <-. cbn. repeat split; eauto.
  - repeat match type of H with
           | bind ?m _ = Ok _ =>
               let E := fresh "E" in
               destruct m eqn:E; cbn [bind] in H; [|discriminate]
           end.
    injection H as <-. cbn. repeat split; eauto.
Qed.

End Files.

End RayData.

(** The entries of a ray data set at pixel [i], the column-major position
    of the pixel in the pixel arrays. *)
Definition ray_end_at {P : Type} (r : RayData.t P) (i : nat) : option vec3 :=
  e ← RayData.ray_end_coords r; vec_at e i.

Definition ray_start_at {P : Type} (r : RayData.t P) (i : nat) : option vec3 :=
  s ← RayData.ray_start_coords r; vec_at s i.

Definition pixel_x_at {P : Type} (r : RayData.t P) (i : nat) : option P :=
  a ← RayData.x r; data a !! i.

Definition pixel_y_at {P : Type} (r : RayData.t P) (i : nat) : option P :=
  a ← RayData.y r; data a !! i.

(** ** The ray caster *)

(** The camera calibration: the line-of-sight direction and the pupil
    position of each pixel (display coordinates), one row per pixel. *)
Record FitResults : Type := {
  transform : CoordTransformer;
  get_los_direction : ndarray float -> ndarray float -> rows;
  get_pupilpos : ndarray float -> ndarray float -> rows
}.

(** The CAD model's cell locator.  [IntersectWithLine p1 p2] is [Some pos]
    when VTK returns a non-zero value and has written the intersection to
    [pos], and [None] when it returns 0. *)
Record CellLocator : Type := {
  IntersectWithLine : vec3 -> vec3 -> option vec3
}.

Record CADModel : Type := {
  cad_machine_name : string;
  cad_max_ray_length : float;
  get_vtkCellLocator : CellLocator
}.

Module RayCaster.

Record t : Type := mk {
  verbose : bool;
  vtkCellLocator : option CellLocator;
  machine_name : option string;
  fitresults : option FitResults;
  max_ray_length : option float
}.

(** [RayCaster.__init__] without arguments. *)
Definition init (verbose : bool) : t :=
  mk verbose None None None None.

Definition set_cadmodel (self : t) (CADModel : CADModel) : t :=
  mk (verbose self)
     (Some (get_vtkCellLocator CADModel))
     (Some (cad_machine_name CADModel))
     (fitresults self)
     (Some (cad_max_ray_length CADModel)).

Definition set_calibration (self : t) (FitResults : FitResults) : t :=
  mk (verbose self) (vtkCellLocator self) (machine_name self)
     (Some FitResults) (max_ray_length self).

(** The arrays the loop of [raycast_pixels] writes, the count of rays
    cast, and the pixels handed to [IntersectWithLine], oldest first. *)
Record cast_state : Type := mk_state {
  ray_end : rows;
  ray_start : rows;
  n_done : nat;
  cast_log : list nat
}.

(** One turn of [for ind in inds]. *)
Definition cast_step (self : t) (loc : CellLocator) (valid_mask : list bool)
    (LOSDir : rows) (st : cast_state) (ind : nat) : result cast_state :=
  do valid <- of_option IndexError (valid_mask !! ind);
  if negb valid then
    do e <- set_row (ray_end st) ind vnan;
    do s <- set_row (ray_start st) ind vnan;
    Ok (mk_state e s (n_done st) (cast_log st))
  else
    do start <- get_row (ray_start st) ind;
    do L <- of_option AttributeError (max_ray_length self);
    do dir <- get_row LOSDir ind;
    let rayend := vadd start (vscale L dir) in
    let e :=
      match IntersectWithLine loc start rayend with
      | Some pos => pos
      | None => rayend
      end in
    do e <- set_row (ray_end st) ind e;
    Ok (mk_state e (ray_start st) (S (n_done st)) (cast_log st ++ [ind])).

Fixpoint cast_loop (step : cast_state -> nat -> result cast_state)
    (inds : list nat) (st : cast_state) : result cast_state :=
  match inds with
  | [] => Ok st
  | ind :: rest => do st' <- step st ind; cast_loop step rest st'
  end.

(** [np.logical_and(np.isnan(x) == 0, np.isnan(y) == 0)] *)
Definition valid_mask_of (x y : ndarray float) : ndarray bool :=
  mk_ndarray (shape x)
    (zip_with (fun a b => negb (F64.isnan a) && negb (F64.isnan b))
              (data x) (data y)).

(** The ray record of one pixel, as a function of what the loop reads:
    the end point and the start point the loop leaves in its row. *)
Definition cast_one (loc : CellLocator) (L : float) (valid : bool)
    (start dir : vec3) : vec3 * vec3 :=
  if valid then
    let rayend := vadd start (vscale L dir) in
    (match IntersectWithLine loc start rayend with
     | Some pos => pos
     | None => rayend
     end, start)
  else (vnan, vnan).

Definition cast_at (loc : CellLocator) (L : float) (valid_mask : list bool)
    (starts LOSDir : rows) (i : nat) : option (vec3 * vec3) :=
  match valid_mask !! i, starts !! i, LOSDir !! i with
  | Some v, Some s, Some d => Some (cast_one loc L v s d)
  | _, _, _ => None
  end.

(** The pixels of [inds] that the loop hands to the cell locator. *)
Definition cast_pixels (valid_mask : list bool) (inds : list nat) : list nat :=
  filter (fun i => valid_mask !! i = Some true) inds.

Lemma cast_step_valid self loc L valid_mask LOSDir st ind s d :
  max_ray_length self = Some L ->
  valid_mask !! ind = Some true ->
  ray_start st !! ind = Some s ->
  LOSDir !! ind = Some d ->
  ind < length (ray_end st) ->
  cast_step self loc valid_mask LOSDir st ind =
    Ok (mk_state (<[ind := fst (cast_one loc L true s d)]> (ray_end st))
                 (ray_start st) (S (n_done st)) (cast_log st ++ [ind])).
Proof.
  intros HL Hv Hs Hd Hlt. unfold cast_step, get_row, set_row.
  rewrite Hv, Hs, HL, Hd. simpl.
  destruct (decide (ind < length (ray_end st))); [reflexivity | lia].
Qed.

Lemma cast_step_invalid self loc valid_mask LOSDir st ind :
  valid_mask !! ind = Some false ->
  ind < length (ray_end st) ->
  ind < length (ray_start st) ->
  cast_step self loc valid_mask LOSDir st ind =
    Ok (mk_state (<[ind := vnan]> (ray_end st)) (<[ind := vnan]> (ray_start st))
                 (n_done st) (cast_log st)).
Proof.
  intros Hv He Hs. unfold cast_step, set_row. rewrite Hv. simpl.
  destruct (decide (ind < length (ray_end st))); [simpl | lia].
  destruct (decide (ind < length (ray_start st))); [reflexivity | lia].
Qed.

(** The loop writes row [i] once for every [i] of [inds], from what row
    [i] of the start points held before the loop, and leaves the other
    rows alone. *)
Lemma cast_loop_spec self loc L valid_mask LOSDir N :
  max_ray_length self = Some L ->
  length valid_mask = N ->
  length LOSDir = N ->
  forall inds st,
    NoDup inds ->
    (forall i, i ∈ inds -> i < N) ->
    length (ray_end st) = N ->
    length (ray_start st) = N ->
    exists st',
      cast_loop (cast_step self loc valid_mask LOSDir) inds st = Ok st' /\
      length (ray_end st') = N /\
      length (ray_start st') = N /\
      (forall i, i ∈ inds ->
         ray_end st' !! i = fst <$> cast_at loc L valid_mask (ray_start st) LOSDir i /\
         ray_start st' !! i = snd <$> cast_at loc L valid_mask (ray_start st) LOSDir i) /\
      (forall i, i ∉ inds ->
         ray_end st' !! i = ray_end st !! i /\
         ray_start st' !! i = ray_start st !! i) /\
      cast_log st' = cast_log st ++ cast_pixels valid_mask inds /\
      n_done st' = n_done st + length (cast_pixels valid_mask inds).
Proof.
  intros HL Hm Hd inds.
  induction inds as [|ind rest IH]; intros st Hnd Hlt He Hs.
  - exists st. simpl. unfold cast_pixels. rewrite filter_nil, app_nil_r. simpl.
    split; [reflexivity|]. split; [exact He|]. split; [exact Hs|].
    split; [intros i Hi; inversion Hi|]. split; [easy|]. split; [reflexivity|lia].
  - apply NoDup_cons in Hnd as [Hnotin Hnd].
    assert (Hind : ind < N) by (apply Hlt; left).
    destruct (lookup_lt_is_Some_2 valid_mask ind) as [v Hv]; [lia|].
    destruct (lookup_lt_is_Some_2 (ray_start st) ind) as [s Hsi]; [lia|].
    destruct (lookup_lt_is_Some_2 LOSDir ind) as [d Hdi]; [lia|].
    assert (Hrest : forall i, i ∈ rest -> i < N) by (intros i Hi; apply Hlt; now right).
    destruct v.
    + (* a valid pixel: one ray is cast *)
      pose proof (cast_step_valid self loc L valid_mask LOSDir st ind s d
                    HL Hv Hsi Hdi ltac:(lia)) as Hstep.
      set (st1 := mk_state (<[ind := fst (cast_one loc L true s d)]> (ray_end st))
                           (ray_start st) (S (n_done st)) (cast_log st ++ [ind])) in *.
      destruct (IH st1 Hnd Hrest) as (st' & Hrun & He' & Hs' & Hin & Hout & Hlog & Hn).
      { unfold st1; cbn [ray_end ray_start]. now rewrite length_insert. }
      { exact Hs. }
      exists st'. cbn [cast_loop]. rewrite Hstep. cbn [bind]. rewrite Hrun.
      split; [reflexivity|]. split; [exact He'|]. split; [exact Hs'|].
      split; [intros i H; split|]. 3: split; [intros i H; split|split].
      * apply elem_of_cons in H as [-> | Hi].
        -- destruct (Hout ind Hnotin) as [Heq _]. rewrite Heq. unfold st1; cbn [ray_end ray_start].
           rewrite list_lookup_insert_eq by lia.
           unfold cast_at. now rewrite Hv, Hsi, Hdi.
        -- now destruct (Hin i Hi).
      * apply elem_of_cons in H as [-> | Hi].
        -- destruct (Hout ind Hnotin) as [_ Heq]. rewrite Heq. unfold st1; cbn [ray_end ray_start].
           unfold cast_at. rewrite Hv, Hsi, Hdi. reflexivity.
        -- now destruct (Hin i Hi).
      * apply not_elem_of_cons in H as [Hne Hi].
        destruct (Hout i Hi) as [Heq _]. rewrite Heq. unfold st1; cbn [ray_end ray_start].
        now rewrite list_lookup_insert_ne by congruence.
      * apply not_elem_of_cons in H as [Hne Hi].
        now destruct (Hout i Hi) as [_ Heq].
      * rewrite Hlog. unfold st1; cbn [cast_log]. unfold cast_pixels. rewrite filter_cons.
        destruct (decide (valid_mask !! ind = Some true)); [|contradiction].
        now rewrite <- app_assoc.
      * rewrite Hn. unfold st1; cbn [n_done]. unfold cast_pixels. rewrite (filter_cons _ ind).
        destruct (decide (valid_mask !! ind = Some true)); [|contradiction].
        simpl. lia.
    + (* an invalid pixel: both rows become NaN, no ray is cast *)
      pose proof (cast_step_invalid self loc valid_mask LOSDir st ind
                    Hv ltac:(lia) ltac:(lia)) as Hstep.
      set (st1 := mk_state (<[ind := vnan]> (ray_end st)) (<[ind := vnan]> (ray_start st))
                           (n_done st) (cast_log st)) in *.
      destruct (IH st1 Hnd Hrest) as (st' & Hrun & He' & Hs' & Hin & Hout & Hlog & Hn).
      { unfold st1; cbn [ray_end ray_start]. now rewrite length_insert. }
      { unfold st1; cbn [ray_end ray_start]. now rewrite length_insert. }
      assert (Hsame : forall i, i ∈ rest ->
                cast_at loc L valid_mask (ray_start st1) LOSDir i =
                cast_at loc L valid_mask (ray_start st) LOSDir i).
      { intros i Hi. unfold cast_at. simpl.
        rewrite list_lookup_insert_ne; [reflexivity|].
        intros ->. contradiction. }
      exists st'. cbn [cast_loop]. rewrite Hstep. cbn [bind]. rewrite Hrun.
      split; [reflexivity|]. split; [exact He'|]. split; [exact Hs'|].
      split; [intros i H; split|]. 3: split; [intros i H; split|split].
      * apply elem_of_cons in H as [-> | Hi].
        -- destruct (Hout ind Hnotin) as [Heq _]. rewrite Heq. unfold st1; cbn [ray_end ray_start].
           rewrite list_lookup_insert_eq by lia.
           unfold cast_at. now rewrite Hv, Hsi, Hdi.
        -- destruct (Hin i Hi) as [Heq _]. rewrite Heq. now rewrite Hsame.
      * apply elem_of_cons in H as [-> | Hi].
        -- destruct (Hout ind Hnotin) as [_ Heq]. rewrite Heq. unfold st1; cbn [ray_end ray_start].
           rewrite list_lookup_insert_eq by lia.
           unfold cast_at. now rewrite Hv, Hsi, Hdi.
        -- destruct (Hin i Hi) as [_ Heq]. rewrite Heq. now rewrite Hsame.
      * apply not_elem_of_cons in H as [Hne Hi].
        destruct (Hout i Hi) as [Heq _]. rewrite Heq. unfold st1; cbn [ray_end ray_start].
        now rewrite list_lookup_insert_ne by congruence.
      * apply not_elem_of_cons in H as [Hne Hi].
        destruct (Hout i Hi) as [_ Heq]. rewrite Heq. unfold st1; cbn [ray_end ray_start].
        now rewrite list_lookup_insert_ne by congruence.
      * rewrite Hlog. unfold st1; cbn [cast_log]. unfold cast_pixels. rewrite filter_cons.
        destruct (decide (valid_mask !! ind = Some true)); [congruence|reflexivity].
      * rewrite Hn. unfold st1; cbn [n_done]. unfold cast_pixels. rewrite (filter_cons _ ind).
        destruct (decide (valid_mask !! ind = Some true)); [congruence|reflexivity].
Qed.

Section Cast.

(** [transform.original_to_display_coords], of [coordtransformer]. *)
Variable original_to_display_coords :
  CoordTransformer -> ndarray float -> ndarray float ->
  ndarray float * ndarray float.

(** The pixel grid of a full-chip cast (the [np.linspace] and
    [np.meshgrid] of the branch taken when no pixel is given), already in
    display coordinates. *)
Variable fullchip_pixels : FitResults -> Z -> string -> ndarray float * ndarray float.

(** What [np.ndarray([n, 3])] finds in the memory it is given. *)
Variable uninitialised : nat -> vec3.

(** The permutation [random.shuffle] applies. *)
Variable shuffle : list nat -> list nat.

(** The pixels given, in display coordinates:
    [if Coords.lower() == 'original': x, y = ...original_to_display_coords(x, y)]. *)
Definition display_coords (fit : FitResults) (Coords : string)
    (x y : ndarray float) : ndarray float * ndarray float :=
  if String.eqb (lower Coords) "original"
  then original_to_display_coords (transform fit) x y
  else (x, y).

(** [raycast_pixels], returning with the ray data the pixels that were
    handed to the cell locator. *)
Definition raycast_pixels_log (self : t) (x y : option (ndarray float))
    (binning : Z) (Coords : string) : result (RayData.t float * list nat) :=
  do fit <- of_option NotConfigured (fitresults self);
  do loc <- of_option NotConfigured (vtkCellLocator self);
  do (fullchip, x, y, valid_mask) <-
    match x, y with
    | None, None =>
        let '(x, y) := fullchip_pixels fit binning Coords in
        Ok (true, x, y, mk_ndarray (shape x) (repeat true (size x)))
    | Some x, Some y =>
        if shape_eqb (shape x) (shape y) then
          let valid_mask := valid_mask_of x y in
          let '(x, y) := display_coords fit Coords x y in
          Ok (false, x, y, valid_mask)
        else Err ShapeMismatch
    | Some a, None | None, Some a =>
        (* np.shape(None) is (); np.isnan(None) is a TypeError *)
        if shape_eqb (shape a) [] then Err TypeError else Err ShapeMismatch
    end;
  do rx <- mask_assign x valid_mask F64.zero;
  do ry <- mask_assign y valid_mask F64.zero;
  let orig_shape := shape rx in
  do rx <- reshape_F rx [size rx];
  do ry <- reshape_F ry [size ry];
  do valid_mask <- reshape_F valid_mask [size valid_mask];
  let ray_end_coords := map uninitialised (seq 0 (size x)) in
  let LOSDir := get_los_direction fit rx ry in
  let ray_start_coords := get_pupilpos fit rx ry in
  let inds := shuffle (seq 0 (size x)) in
  do st <- cast_loop (cast_step self loc (data valid_mask) LOSDir) inds
             (mk_state ray_end_coords ray_start_coords 0 []);
  do rx <- mask_assign rx valid_mask F64.nan;
  do ry <- mask_assign ry valid_mask F64.nan;
  do e <- reshape_F (of_rows (ray_end st)) (orig_shape ++ [3]);
  do s <- reshape_F (of_rows (ray_start st)) (orig_shape ++ [3]);
  do rx <- reshape_F rx orig_shape;
  do ry <- reshape_F ry orig_shape;
  Ok (RayData.mk (Some e) (Some s)
        (if fullchip then Some binning else None)
        (Some (transform fit))
        (Some fullchip)
        (Some rx) (Some ry)
        (Some "PixelRayCast"%string),
      cast_log st).

Definition raycast_pixels (self : t) (x y : option (ndarray float))
    (binning : Z) (Coords : string) : result (RayData.t float) :=
  do r <- raycast_pixels_log self x y binning Coords; Ok (fst r).

(** *** What a cast of given pixels returns *)

(** [a] with [v] in the slots the mask rules out. *)
Definition masked (v : float) (a : list float) (mask : list bool) : list float :=
  zip_with (fun e (m : bool) => if m then e else v) a mask.

(** The ray records of all pixels: for each one its validity, the pupil
    position and the line of sight of the calibration, through [cast_one]. *)
Definition ray_records (loc : CellLocator) (L : float) (valid_mask : list bool)
    (starts LOSDir : rows) : list (vec3 * vec3) :=
  zip_with (fun (v : bool) sd => cast_one loc L v (fst sd) (snd sd))
           valid_mask (zip starts LOSDir).

(** The flat arrays of display coordinates the calibration is asked
    about: [0] stands in for the coordinates of the pixels ruled out. *)
Definition flat_pixels (fit : FitResults) (Coords : string)
    (x y : ndarray float) : ndarray float * ndarray float :=
  let valid_mask := data (valid_mask_of x y) in
  let '(dx, dy) := display_coords fit Coords x y in
  (mk_ndarray [size dx] (masked F64.zero (data dx) valid_mask),
   mk_ndarray [size dy] (masked F64.zero (data dy) valid_mask)).

(** The result of [raycast_pixels] on pixels [x], [y], written without
    the loop: no visiting order and no uninitialised memory occur in it. *)
Definition cast_result (fit : FitResults) (loc : CellLocator) (L : float)
    (x y : ndarray float) (Coords : string) : RayData.t float :=
  let valid_mask := data (valid_mask_of x y) in
  let '(dx, dy) := display_coords fit Coords x y in
  let '(fx, fy) := flat_pixels fit Coords x y in
  let recs := ray_records loc L valid_mask
                (get_pupilpos fit fx fy) (get_los_direction fit fx fy) in
  RayData.mk
    (Some (mk_ndarray (shape dx ++ [3]) (data (of_rows (map fst recs)))))
    (Some (mk_ndarray (shape dx ++ [3]) (data (of_rows (map snd recs)))))
    None
    (Some (transform fit))
    (Some false)
    (Some (mk_ndarray (shape dx) (masked F64.nan (data dx) valid_mask)))
    (Some (mk_ndarray (shape dx) (masked F64.nan (data dy) valid_mask)))
    (Some "PixelRayCast"%string).

(** The caster has its calibration, its cell locator and its ray length. *)
Definition configured (self : t) (fit : FitResults) (loc : CellLocator)
    (L : float) : Prop :=
  fitresults self = Some fit /\ vtkCellLocator self = Some loc /\
  max_ray_length self = Some L.

(** [x] and [y] are arrays of one shape, and the conversion to display
    coordinates, when it is asked for, returns arrays of that shape. *)
Definition pixels_ok (fit : FitResults) (Coords : string)
    (x y : ndarray float) : Prop :=
  wf x /\ wf y /\ shape x = shape y /\
  wf (fst (display_coords fit Coords x y)) /\
  wf (snd (display_coords fit Coords x y)) /\
  shape (fst (display_coords fit Coords x y)) = shape x /\
  shape (snd (display_coords fit Coords x y)) = shape x.

(** The calibration answers with one row per pixel. *)
Definition row_per_pixel (fit : FitResults) : Prop :=
  forall a b : ndarray float, wf a -> wf b -> shape a = shape b ->
    length (get_pupilpos fit a b) = size a /\
    length (get_los_direction fit a b) = size a.

Definition is_shuffle : Prop := forall l : list nat, shuffle l ≡ₚ l.

Lemma length_masked v a (mask : list bool) :
  length a = length mask -> length (masked v a mask) = length a.
Proof. intros H. unfold masked. rewrite length_zip_with. lia. Qed.

Lemma masked_masked v w a (mask : list bool) :
  masked v (masked w a mask) mask = masked v a mask.
Proof.
  unfold masked. revert mask.
  induction a as [|e a IH]; intros [|m mask]; simpl; try reflexivity.
  rewrite IH. now destruct m.
Qed.

Lemma lookup_masked v (a : list float) (mask : list bool) (i : nat) e (m : bool) :
  a !! i = Some e -> mask !! i = Some m ->
  masked v a mask !! i = Some (if m then e else v).
Proof.
  intros Ha Hm. unfold masked. rewrite lookup_zip_with, Ha. simpl. now rewrite Hm.
Qed.

Lemma length_valid_mask_of x y :
  wf x -> wf y -> shape x = shape y ->
  length (data (valid_mask_of x y)) = size x.
Proof.
  unfold wf, size. intros Hx Hy Hs. simpl. rewrite length_zip_with. rewrite Hs in *. lia.
Qed.

Lemma length_ray_records loc L (valid_mask : list bool) (starts LOSDir : rows) (N : nat) :
  length valid_mask = N -> length starts = N -> length LOSDir = N ->
  length (ray_records loc L valid_mask starts LOSDir) = N.
Proof.
  intros H1 H2 H3. unfold ray_records.
  rewrite length_zip_with, length_zip. lia.
Qed.

Lemma lookup_ray_records loc L (valid_mask : list bool) (starts LOSDir : rows) (i : nat) :
  ray_records loc L valid_mask starts LOSDir !! i =
  cast_at loc L valid_mask starts LOSDir i.
Proof.
  unfold ray_records, cast_at. rewrite lookup_zip_with.
  destruct (valid_mask !! i) as [v|]; simpl; [|reflexivity].
  rewrite lookup_zip_with.
  destruct (starts !! i) as [s|]; simpl; [|reflexivity].
  destruct (LOSDir !! i) as [d|]; reflexivity.
Qed.

(** The rows the loop leaves are the ray records, whatever the order of
    the visits and whatever the end-point array held before. *)
Lemma cast_loop_records self loc L (valid_mask : list bool) (starts LOSDir : rows)
    (N : nat) (junk : rows) (inds : list nat) :
  max_ray_length self = Some L ->
  length valid_mask = N -> length starts = N -> length LOSDir = N ->
  length junk = N ->
  inds ≡ₚ seq 0 N ->
  exists st,
    cast_loop (cast_step self loc valid_mask LOSDir) inds
      (mk_state junk starts 0 []) = Ok st /\
    ray_end st = map fst (ray_records loc L valid_mask starts LOSDir) /\
    ray_start st = map snd (ray_records loc L valid_mask starts LOSDir) /\
    cast_log st = cast_pixels valid_mask inds.
Proof.
  intros HL Hm Hs Hd Hj Hp.
  assert (Hnd : NoDup inds) by (rewrite Hp; apply NoDup_seq).
  assert (Hin : forall i, i ∈ inds <-> i < N).
  { intros i. rewrite Hp, elem_of_seq. lia. }
  destruct (cast_loop_spec self loc L valid_mask LOSDir N HL Hm Hd inds
              (mk_state junk starts 0 []) Hnd (fun i H => proj1 (Hin i) H) Hj Hs)
    as (st & Hrun & He & Hst & Hmem & _ & Hlog & _).
  exists st. split; [exact Hrun|].
  pose proof (length_ray_records loc L valid_mask starts LOSDir N Hm Hs Hd) as Hlen.
  split; [|split].
  - apply list_eq. intros i. rewrite list_lookup_fmap, lookup_ray_records.
    destruct (decide (i < N)) as [Hi|Hi].
    + now destruct (Hmem i (proj2 (Hin i) Hi)) as [-> _].
    + rewrite (proj2 (lookup_ge_None (ray_end st) i)) by lia.
      unfold cast_at. now rewrite (proj2 (lookup_ge_None valid_mask i)) by lia.
  - apply list_eq. intros i. rewrite list_lookup_fmap, lookup_ray_records.
    destruct (decide (i < N)) as [Hi|Hi].
    + now destruct (Hmem i (proj2 (Hin i) Hi)) as [_ ->].
    + rewrite (proj2 (lookup_ge_None (ray_start st) i)) by lia.
      unfold cast_at. now rewrite (proj2 (lookup_ge_None valid_mask i)) by lia.
  - exact Hlog.
Qed.

(** [raycast_pixels] on given pixels returns [cast_result], and hands to
    the cell locator the valid pixels, in the order of the shuffle. *)
Lemma raycast_pixels_log_spec self fit loc L x y binning Coords :
  configured self fit loc L ->
  pixels_ok fit Coords x y ->
  row_per_pixel fit ->
  is_shuffle ->
  raycast_pixels_log self (Some x) (Some y) binning Coords =
    Ok (cast_result fit loc L x y Coords,
        cast_pixels (data (valid_mask_of x y)) (shuffle (seq 0 (size x)))).
Proof.
  intros (Hfit & Hloc & HL) (Hx & Hy & Hsh & Hdx & Hdy & Hsx & Hsy) Hrow Hshuf.
  unfold raycast_pixels_log, cast_result, flat_pixels.
  rewrite Hfit, Hloc. cbn [of_option bind].
  rewrite <- Hsh, shape_eqb_refl.
  destruct (display_coords fit Coords x y) as [dx dy]. cbn [fst snd] in *.
  cbn [bind].
  pose proof (length_valid_mask_of x y Hx Hy Hsh) as Hlm.
  set (vm := valid_mask_of x y) in *.
  assert (Hvs : shape vm = shape x) by reflexivity.
  assert (Hsz : size dx = size x) by (unfold size; now rewrite Hsx).
  assert (Hszy : size dy = size x) by (unfold size; now rewrite Hsy).
  unfold wf in Hdx, Hdy. fold (size dx) in Hdx. fold (size dy) in Hdy.
  rewrite (mask_assign_ok dx vm) by congruence.
  rewrite (mask_assign_ok dy vm) by congruence.
  cbn [bind shape]. fold (masked F64.zero (data dx) (data vm)).
  fold (masked F64.zero (data dy) (data vm)).
  unfold size at 1. cbn [shape]. fold (size dx).
  rewrite reshape_F_ok
    by (cbn [data]; rewrite length_masked, prod_singleton; lia).
  cbn [bind shape data].
  unfold size at 1. cbn [shape]. fold (size dy).
  rewrite reshape_F_ok
    by (cbn [data]; rewrite length_masked, prod_singleton; lia).
  cbn [bind shape data].
  rewrite (reshape_F_ok vm) by (rewrite prod_singleton; unfold size; rewrite Hvs; exact Hlm).
  cbn [bind shape data].
  set (fx := mk_ndarray [size dx] (masked F64.zero (data dx) (data vm))).
  set (fy := mk_ndarray [size dy] (masked F64.zero (data dy) (data vm))).
  assert (Hfx : wf fx).
  { unfold wf, fx. cbn [data shape]. rewrite length_masked, prod_singleton; lia. }
  assert (Hfy : wf fy).
  { unfold wf, fy. cbn [data shape]. rewrite length_masked, prod_singleton; lia. }
  destruct (Hrow fx fy Hfx Hfy) as [Hpl Hll].
  { unfold fx, fy. cbn [shape]. congruence. }
  assert (Hfs : size fx = size x).
  { unfold size, fx. cbn [shape]. rewrite prod_singleton. exact Hsz. }
  destruct (cast_loop_records self loc L (data vm) (get_pupilpos fit fx fy)
              (get_los_direction fit fx fy) (size x)
              (map uninitialised (seq 0 (size dx))) (shuffle (seq 0 (size dx))))
    as (st & Hrun & He & Hs & Hlog); try assumption; try congruence.
  { rewrite length_map, length_seq. exact Hsz. }
  { rewrite Hsz. apply Hshuf. }
  rewrite Hrun. cbn [bind].
  change (size vm) with (size x).
  rewrite (mask_assign_ok fx) by (unfold fx; cbn [shape]; congruence).
  rewrite (mask_assign_ok fy) by (unfold fy; cbn [shape]; congruence).
  cbn [bind shape data].
  pose proof (length_ray_records loc L (data vm) (get_pupilpos fit fx fy)
                (get_los_direction fit fx fy) (size x) Hlm
                ltac:(congruence) ltac:(congruence)) as Hlen.
  rewrite !reshape_F_ok.
  - cbn [bind shape data]. rewrite He, Hs, Hlog, Hsz.
    rewrite <- (masked_masked F64.nan F64.zero (data dx) (data vm)).
    rewrite <- (masked_masked F64.nan F64.zero (data dy) (data vm)).
    reflexivity.
  - unfold fy. cbn [data]. rewrite length_zip_with, !length_masked; unfold size in *; lia.
  - unfold fx. cbn [data]. rewrite length_zip_with, !length_masked; unfold size in *; lia.
  - rewrite length_of_rows, Hs, length_map, Hlen, prod_app, prod_singleton.
    unfold size. now rewrite Hsx.
  - rewrite length_of_rows, He, length_map, Hlen, prod_app, prod_singleton.
    unfold size. now rewrite Hsx.
Qed.

(** The rows the calibration returns for the pixels given. *)
Definition pupil_rows (fit : FitResults) (Coords : string)
    (x y : ndarray float) : rows :=
  get_pupilpos fit (fst (flat_pixels fit Coords x y)) (snd (flat_pixels fit Coords x y)).

Definition los_rows (fit : FitResults) (Coords : string)
    (x y : ndarray float) : rows :=
  get_los_direction fit (fst (flat_pixels fit Coords x y))
    (snd (flat_pixels fit Coords x y)).

Lemma lookup_valid_mask_of x y (i : nat) a b :
  data x !! i = Some a -> data y !! i = Some b ->
  data (valid_mask_of x y) !! i =
    Some (negb (F64.isnan a) && negb (F64.isnan b)).
Proof.
  intros Ha Hb. cbn [valid_mask_of data].
  rewrite lookup_zip_with, Ha. simpl. now rewrite Hb.
Qed.

Lemma cast_result_end_at fit loc L x y Coords (i : nat) :
  ray_end_at (cast_result fit loc L x y Coords) i =
    fst <$> cast_at loc L (data (valid_mask_of x y))
              (pupil_rows fit Coords x y) (los_rows fit Coords x y) i.
Proof.
  unfold ray_end_at, cast_result, pupil_rows, los_rows.
  destruct (display_coords fit Coords x y) as [dx dy].
  destruct (flat_pixels fit Coords x y) as [fx fy]. cbn [RayData.ray_end_coords fst snd].
  cbn [mbind option_bind]. rewrite vec_at_of_rows, list_lookup_fmap, lookup_ray_records.
  reflexivity.
Qed.

Lemma cast_result_start_at fit loc L x y Coords (i : nat) :
  ray_start_at (cast_result fit loc L x y Coords) i =
    snd <$> cast_at loc L (data (valid_mask_of x y))
              (pupil_rows fit Coords x y) (los_rows fit Coords x y) i.
Proof.
  unfold ray_start_at, cast_result, pupil_rows, los_rows.
  destruct (display_coords fit Coords x y) as [dx dy].
  destruct (flat_pixels fit Coords x y) as [fx fy]. cbn [RayData.ray_start_coords fst snd].
  cbn [mbind option_bind]. rewrite vec_at_of_rows, list_lookup_fmap, lookup_ray_records.
  reflexivity.
Qed.

Lemma cast_result_x_at fit loc L x y Coords (i : nat) :
  pixel_x_at (cast_result fit loc L x y Coords) i =
    masked F64.nan (data (fst (display_coords fit Coords x y)))
      (data (valid_mask_of x y)) !! i.
Proof.
  unfold pixel_x_at, cast_result.
  destruct (display_coords fit Coords x y) as [dx dy].
  destruct (flat_pixels fit Coords x y) as [fx fy]. reflexivity.
Qed.

Lemma cast_result_y_at fit loc L x y Coords (i : nat) :
  pixel_y_at (cast_result fit loc L x y Coords) i =
    masked F64.nan (data (snd (display_coords fit Coords x y)))
      (data (valid_mask_of x y)) !! i.
Proof.
  unfold pixel_y_at, cast_result.
  destruct (display_coords fit Coords x y) as [dx dy].
  destruct (flat_pixels fit Coords x y) as [fx fy]. reflexivity.
Qed.


Lemma raycast_pixels_spec self fit loc L x y binning Coords :
  configured self fit loc L ->
  pixels_ok fit Coords x y ->
  row_per_pixel fit ->
  is_shuffle ->
  raycast_pixels self (Some x) (Some y) binning Coords =
    Ok (cast_result fit loc L x y Coords).
Proof.
  intros Hc Hp Hr Hs. unfold raycast_pixels.
  now rewrite (raycast_pixels_log_spec self fit loc L x y binning Coords Hc Hp Hr Hs).
Qed.


(** C3. A valid pixel whose segment the cell locator reports no hit on
    gets as its ray end exactly its ray start plus the maximal ray length
    times its line of sight, coordinate by coordinate in float64, and
    the cast returns normally. *)
Theorem raycast_pixels_miss self fit loc L x y binning Coords (i : nat) a b s d :
  configured self fit loc L ->
  pixels_ok fit Coords x y ->
  row_per_pixel fit ->
  is_shuffle ->
  data x !! i = Some a -> data y !! i = Some b ->
  F64.isnan a = false -> F64.isnan b = false ->
  pupil_rows fit Coords x y !! i = Some s ->
  los_rows fit Coords x y !! i = Some d ->
  IntersectWithLine loc s
    (V3 (F64.add (vx s) (F64.mul L (vx d)))
        (F64.add (vy s) (F64.mul L (vy d)))
        (F64.add (vz s) (F64.mul L (vz d)))) = None ->
  exists r,
    raycast_pixels self (Some x) (Some y) binning Coords = Ok r /\
    ray_start_at r i = Some s /\
    ray_end_at r i =
      Some (V3 (F64.add (vx s) (F64.mul L (vx d)))
               (F64.add (vy s) (F64.mul L (vy d)))
               (F64.add (vz s) (F64.mul L (vz d)))).
Proof.
  intros Hc Hp Hr Hs Ha Hb Hna Hnb Hps Hld Hmiss.
  exists (cast_result fit loc L x y Coords).
  split; [now apply raycast_pixels_spec|].
  rewrite cast_result_start_at, cast_result_end_at. unfold cast_at.
  rewrite (lookup_valid_mask_of x y i a b Ha Hb), Hna, Hnb, Hps, Hld.
  cbn [negb andb cast_one fmap option_fmap option_map fst snd].
  unfold vadd, vscale. cbn [vx vy vz].
  now rewrite Hmiss.
Qed.

(** The end point the loop records for a valid pixel: the hit, or the end
    of the maximal segment. *)
Definition ray_end_of (loc : CellLocator) (L : float) (s d : vec3) : vec3 :=
  fst (cast_one loc L true s d).

(** C2, as the code has it.  A pixel is ruled out exactly when one of its
    coordinates is NaN.  Such a pixel is never handed to the cell locator,
    and at its position the start and end coordinates are all NaN and so
    are the pixel coordinates.  Every other pixel is handed to the cell
    locator once, keeps its display coordinates, has the pupil position as
    its start and the hit point (or the end of the segment) as its end;
    these are finite when the coordinates, the pupil position and the hit
    point are. *)
Theorem raycast_pixels_validity self fit loc L x y binning Coords :
  configured self fit loc L ->
  pixels_ok fit Coords x y ->
  row_per_pixel fit ->
  is_shuffle ->
  exists r log,
    raycast_pixels_log self (Some x) (Some y) binning Coords = Ok (r, log) /\
    NoDup log /\
    forall (i : nat) a b,
      data x !! i = Some a -> data y !! i = Some b ->
      if F64.isnan a || F64.isnan b then
        (i ∉ log) /\
        ray_start_at r i = Some vnan /\ ray_end_at r i = Some vnan /\
        pixel_x_at r i = Some F64.nan /\ pixel_y_at r i = Some F64.nan
      else
        (i ∈ log) /\
        exists px py s d,
          data (fst (display_coords fit Coords x y)) !! i = Some px /\
          data (snd (display_coords fit Coords x y)) !! i = Some py /\
          pupil_rows fit Coords x y !! i = Some s /\
          los_rows fit Coords x y !! i = Some d /\
          pixel_x_at r i = Some px /\ pixel_y_at r i = Some py /\
          ray_start_at r i = Some s /\
          ray_end_at r i = Some (ray_end_of loc L s d) /\
          (forall pos,
             IntersectWithLine loc s (vadd s (vscale L d)) = Some pos ->
             ray_end_at r i = Some pos /\
             (F64.isfinite px = true -> F64.isfinite py = true ->
              vfinite s = true -> vfinite pos = true ->
              F64.isfinite px && F64.isfinite py &&
                vfinite s && vfinite (ray_end_of loc L s d) = true)).
Proof.
  intros Hc Hp Hr Hs.
  exists (cast_result fit loc L x y Coords),
         (cast_pixels (data (valid_mask_of x y)) (shuffle (seq 0 (size x)))).
  split; [now apply raycast_pixels_log_spec|].
  assert (Hnd : NoDup (shuffle (seq 0 (size x)))) by (rewrite (Hs _); apply NoDup_seq).
  split; [now apply NoDup_filter|].
  intros i a b Ha Hb.
  pose proof (lookup_valid_mask_of x y i a b Ha Hb) as Hv.
  destruct Hp as (Hx & Hy & Hsh & Hdx & Hdy & Hsx & Hsy).
  assert (Hi : i < size x).
  { unfold size. rewrite <- Hx. now apply lookup_lt_is_Some_1. }
  assert (Hsz : size (fst (display_coords fit Coords x y)) = size x)
    by (unfold size; now rewrite Hsx).
  assert (Hszy : size (snd (display_coords fit Coords x y)) = size x)
    by (unfold size; now rewrite Hsy).
  destruct (lookup_lt_is_Some_2 (data (fst (display_coords fit Coords x y))) i)
    as [px Hpx]; [unfold wf in Hdx; fold (size (fst (display_coords fit Coords x y))) in Hdx; lia|].
  destruct (lookup_lt_is_Some_2 (data (snd (display_coords fit Coords x y))) i)
    as [py Hpy]; [unfold wf in Hdy; fold (size (snd (display_coords fit Coords x y))) in Hdy; lia|].
  rewrite cast_result_start_at, cast_result_end_at, cast_result_x_at, cast_result_y_at.
  rewrite (lookup_masked F64.nan _ _ i px _ Hpx Hv).
  rewrite (lookup_masked F64.nan _ _ i py _ Hpy Hv).
  assert (Hlm : length (data (valid_mask_of x y)) = size x)
    by now apply length_valid_mask_of.
  assert (Hrows : length (pupil_rows fit Coords x y) = size x /\
                  length (los_rows fit Coords x y) = size x).
  { unfold pupil_rows, los_rows, flat_pixels.
    destruct (display_coords fit Coords x y) as [dx dy]. cbn [fst snd] in *.
    unfold wf in Hdx, Hdy.
    match goal with |- length (get_pupilpos fit ?a ?b) = _ /\ _ =>
      replace (size x) with (size a)
        by (unfold size at 1; cbn [shape]; now rewrite prod_singleton);
      apply (Hr a b)
    end.
    - unfold wf. cbn [data shape]. rewrite length_masked, prod_singleton; unfold size in *; lia.
    - unfold wf. cbn [data shape]. rewrite length_masked, prod_singleton; unfold size in *; lia.
    - cbn [shape]. congruence. }
  destruct Hrows as [Hpl Hll].
  destruct (lookup_lt_is_Some_2 (pupil_rows fit Coords x y) i) as [s Hps]; [lia|].
  destruct (lookup_lt_is_Some_2 (los_rows fit Coords x y) i) as [d Hld]; [lia|].
  unfold cast_at. rewrite Hv, Hps, Hld.
  destruct (F64.isnan a || F64.isnan b) eqn:Hnan.
  - assert (Hvf : negb (F64.isnan a) && negb (F64.isnan b) = false)
      by (destruct (F64.isnan a), (F64.isnan b); simpl in *; congruence).
    rewrite Hvf in *.
    split; [|simpl; auto].
    unfold cast_pixels. rewrite list_elem_of_filter. intros [Habs _]. congruence.
  - assert (Hvt : negb (F64.isnan a) && negb (F64.isnan b) = true)
      by (destruct (F64.isnan a), (F64.isnan b); simpl in *; congruence).
    rewrite Hvt in *.
    split.
    + unfold cast_pixels. rewrite list_elem_of_filter. split; [exact Hv|].
      rewrite (Hs _). apply elem_of_seq. lia.
    + exists px, py, s, d. repeat (split; [reflexivity || assumption|]).
      intros pos Hit. unfold ray_end_of. simpl. rewrite Hit.
      split; [reflexivity|].
      intros -> -> -> ->. reflexivity.
Qed.

(** *** A cast of the whole chip *)

(** An array as the calibration sees it: flat, in column-major order. *)
Definition flat (a : ndarray float) : ndarray float := mk_ndarray [size a] (data a).

Lemma repeat_replicate {A : Type} (v : A) (n : nat) : repeat v n = replicate n v.
Proof. induction n as [|n IH]; simpl; [reflexivity|now rewrite IH]. Qed.

Lemma masked_all_valid v (a : list float) (n : nat) :
  length a = n -> masked v a (repeat true n) = a.
Proof.
  revert n. unfold masked. induction a as [|e a IH]; intros n Hn; [reflexivity|].
  destruct n as [|n]; [discriminate|]. simpl. f_equal. apply IH. simpl in Hn. lia.
Qed.

Lemma cast_pixels_all_valid (n : nat) (inds : list nat) :
  (forall i, i ∈ inds -> i < n) -> cast_pixels (repeat true n) inds = inds.
Proof.
  intros H. unfold cast_pixels. induction inds as [|i inds IH]; [reflexivity|].
  rewrite filter_cons. rewrite repeat_replicate.
  destruct (decide (replicate n true !! i = Some true)) as [_|Hn].
  - f_equal. rewrite <- repeat_replicate. apply IH. intros j Hj. apply H. now right.
  - exfalso. apply Hn. apply lookup_replicate_2. apply H. left.
Qed.

Lemma ndarray_eta {A : Type} (a : ndarray A) : mk_ndarray (shape a) (data a) = a.
Proof. now destruct a. Qed.

(** The result of a cast of the whole chip, written without the loop. *)
Definition fullchip_result (fit : FitResults) (loc : CellLocator) (L : float)
    (binning : Z) (gx gy : ndarray float) : RayData.t float :=
  let recs := ray_records loc L (repeat true (size gx))
                (get_pupilpos fit (flat gx) (flat gy))
                (get_los_direction fit (flat gx) (flat gy)) in
  RayData.mk
    (Some (mk_ndarray (shape gx ++ [3]) (data (of_rows (map fst recs)))))
    (Some (mk_ndarray (shape gx ++ [3]) (data (of_rows (map snd recs)))))
    (Some binning)
    (Some (transform fit))
    (Some true)
    (Some gx) (Some gy)
    (Some "PixelRayCast"%string).

Lemma raycast_pixels_log_fullchip self fit loc L binning Coords gx gy :
  configured self fit loc L ->
  fullchip_pixels fit binning Coords = (gx, gy) ->
  wf gx -> wf gy -> shape gy = shape gx ->
  row_per_pixel fit ->
  is_shuffle ->
  raycast_pixels_log self None None binning Coords =
    Ok (fullchip_result fit loc L binning gx gy, shuffle (seq 0 (size gx))) /\
  length (get_pupilpos fit (flat gx) (flat gy)) = size gx /\
  length (get_los_direction fit (flat gx) (flat gy)) = size gx.
Proof.
  intros (Hfit & Hloc & HL) Hgrid Wx Wy Sy Hrow Hshuf.
  unfold raycast_pixels_log, fullchip_result. rewrite Hfit, Hloc. cbn [of_option bind].
  rewrite Hgrid. cbn [bind].
  assert (Ny : size gy = size gx) by (unfold size; now rewrite Sy).
  unfold flat. rewrite Ny.
  set (N := size gx).
  assert (Lx : length (data gx) = N) by exact Wx.
  assert (Ly : length (data gy) = N).
  { unfold wf in Wy. rewrite Wy, Sy. reflexivity. }
  set (vm := mk_ndarray (shape gx) (repeat true N)).
  rewrite (mask_assign_ok gx vm) by reflexivity.
  rewrite (mask_assign_ok gy vm) by exact Sy.
  cbn [bind shape data]. change (data vm) with (repeat true N).
  fold (masked F64.zero (data gx) (repeat true N)).
  fold (masked F64.zero (data gy) (repeat true N)).
  rewrite !masked_all_valid by assumption.
  unfold size at 1. cbn [shape]. fold (size gx). fold N.
  rewrite reshape_F_ok by (cbn [data]; rewrite prod_singleton; exact Lx).
  cbn [bind shape data].
  unfold size at 1. cbn [shape]. fold (size gy). rewrite Ny. fold N.
  rewrite reshape_F_ok by (cbn [data]; rewrite prod_singleton; exact Ly).
  cbn [bind shape data].
  change (size vm) with N.
  rewrite (reshape_F_ok vm) by (cbn [data]; rewrite prod_singleton; apply repeat_length).
  cbn [bind shape data]. change (data vm) with (repeat true N).
  set (fx := mk_ndarray [N] (data gx)).
  set (fy := mk_ndarray [N] (data gy)).
  assert (Hfx : wf fx) by (unfold wf, fx; cbn [data shape]; now rewrite prod_singleton).
  assert (Hfy : wf fy) by (unfold wf, fy; cbn [data shape]; now rewrite prod_singleton).
  destruct (Hrow fx fy Hfx Hfy eq_refl) as [Hpl Hll].
  assert (Hfs : size fx = N) by (unfold size, fx; cbn [shape]; apply prod_singleton).
  rewrite Hfs in Hpl, Hll.
  split; [|split; assumption].
  destruct (cast_loop_records self loc L (repeat true N) (get_pupilpos fit fx fy)
              (get_los_direction fit fx fy) N
              (map uninitialised (seq 0 N)) (shuffle (seq 0 N)))
    as (st & Hrun & He & Hs & Hlog); try assumption.
  { apply repeat_length. }
  { now rewrite length_map, length_seq. }
  { apply Hshuf. }
  rewrite Hrun. cbn [bind].
  rewrite (mask_assign_ok fx) by reflexivity.
  rewrite (mask_assign_ok fy) by reflexivity.
  cbn [bind data].
  change (data fx) with (data gx). change (data fy) with (data gy).
  change (shape fx) with [N]. change (shape fy) with [N].
  fold (masked F64.nan (data gx) (repeat true N)).
  fold (masked F64.nan (data gy) (repeat true N)).
  rewrite !masked_all_valid by assumption.
  pose proof (length_ray_records loc L (repeat true N) (get_pupilpos fit fx fy)
                (get_los_direction fit fx fy) N (repeat_length _ _) Hpl Hll) as Hlen.
  rewrite !reshape_F_ok.
  - cbn [bind data].
    replace (mk_ndarray (shape gx) (data gy)) with gy
      by (rewrite <- Sy; symmetry; apply ndarray_eta).
    rewrite ndarray_eta, He, Hs, Hlog.
    rewrite cast_pixels_all_valid; [reflexivity|].
    intros i Hi. rewrite (Hshuf _) in Hi. apply elem_of_seq in Hi. lia.
  - cbn [data]. now rewrite Ly.
  - cbn [data]. now rewrite Lx.
  - rewrite length_of_rows, Hs, length_map, Hlen, prod_app, prod_singleton. reflexivity.
  - rewrite length_of_rows, He, length_map, Hlen, prod_app, prod_singleton. reflexivity.
Qed.

(** The rays of the whole chip, pixel by pixel. *)
Lemma fullchip_result_pixel fit loc L binning gx gy (i : nat) s d :
  get_pupilpos fit (flat gx) (flat gy) !! i = Some s ->
  get_los_direction fit (flat gx) (flat gy) !! i = Some d ->
  i < size gx ->
  ray_start_at (fullchip_result fit loc L binning gx gy) i = Some s /\
  ray_end_at (fullchip_result fit loc L binning gx gy) i = Some (ray_end_of loc L s d).
Proof.
  intros Hs Hd Hi. unfold ray_start_at, ray_end_at, fullchip_result.
  cbn [RayData.ray_start_coords RayData.ray_end_coords mbind option_bind].
  rewrite !vec_at_of_rows, !list_lookup_fmap, !lookup_ray_records.
  unfold cast_at. rewrite repeat_replicate, lookup_replicate_2 by exact Hi.
  rewrite Hs, Hd. split; reflexivity.
Qed.

(** X15. Called without pixels, [raycast_pixels] casts a ray for every
    pixel of the grid of the whole chip, once each and whatever the
    coordinates of the pixel are; the ray data hold the grid as it is,
    the binning, and the mark of a full-chip cast; the start and end
    coordinates have the shape of the grid with a last axis of 3, each
    pixel with the pupil position as its start and the hit point, or the
    end of the segment, as its end. *)
Theorem raycast_pixels_fullchip self fit loc L binning Coords gx gy :
  configured self fit loc L ->
  fullchip_pixels fit binning Coords = (gx, gy) ->
  wf gx -> wf gy -> shape gy = shape gx ->
  row_per_pixel fit ->
  is_shuffle ->
  exists r log,
    raycast_pixels_log self None None binning Coords = Ok (r, log) /\
    log ≡ₚ seq 0 (size gx) /\
    RayData.binning r = Some binning /\ RayData.fullchip r = Some true /\
    RayData.x r = Some gx /\ RayData.y r = Some gy /\
    RayData.transform r = Some (transform fit) /\
    RayData.ResultType r = Some "PixelRayCast"%string /\
    shape <$> RayData.ray_start_coords r = Some (shape gx ++ [3]) /\
    shape <$> RayData.ray_end_coords r = Some (shape gx ++ [3]) /\
    forall i, i < size gx ->
      exists s d,
        get_pupilpos fit (flat gx) (flat gy) !! i = Some s /\
        get_los_direction fit (flat gx) (flat gy) !! i = Some d /\
        ray_start_at r i = Some s /\
        ray_end_at r i = Some (ray_end_of loc L s d).
Proof.
  intros Hc Hgrid Wx Wy Sy Hrow Hshuf.
  destruct (raycast_pixels_log_fullchip self fit loc L binning Coords gx gy
              Hc Hgrid Wx Wy Sy Hrow Hshuf) as (Hrun & Hpl & Hll).
  exists (fullchip_result fit loc L binning gx gy), (shuffle (seq 0 (size gx))).
  split; [exact Hrun|]. split; [apply Hshuf|].
  repeat (split; [reflexivity|]).
  intros i Hi.
  destruct (lookup_lt_is_Some_2 (get_pupilpos fit (flat gx) (flat gy)) i) as [s Hs]; [lia|].
  destruct (lookup_lt_is_Some_2 (get_los_direction fit (flat gx) (flat gy)) i)
    as [d Hd]; [lia|].
  exists s, d. split; [exact Hs|]. split; [exact Hd|].
  now apply fullchip_result_pixel.
Qed.

(** The arrays of the ray data of a cast of the whole chip fit each
    other. *)
Lemma fullchip_result_stored_ok fit loc L binning gx gy :
  wf gx -> wf gy -> shape gy = shape gx ->
  length (get_pupilpos fit (flat gx) (flat gy)) = size gx ->
  length (get_los_direction fit (flat gx) (flat gy)) = size gx ->
  exists e s,
    RayData.stored_ok (fullchip_result fit loc L binning gx gy) gx gy e s.
Proof.
  intros Wx Wy Sy Hpl Hll.
  pose proof (length_ray_records loc L (repeat true (size gx))
                (get_pupilpos fit (flat gx) (flat gy))
                (get_los_direction fit (flat gx) (flat gy)) (size gx)
                (repeat_length _ _) Hpl Hll) as Hlen.
  do 2 eexists. unfold fullchip_result.
  split; [reflexivity|]. split; [reflexivity|]. split; [reflexivity|].
  split; [reflexivity|]. split; [exact Wx|]. split; [exact Wy|].
  unfold wf. cbn [data shape].
  rewrite !length_of_rows, !length_map, Hlen, prod_app, prod_singleton.
  fold (size gx). repeat split; try lia. exact Sy.
Qed.

(** *** What [raycast_pixels] checks, and in which order *)

(** [np.shape]: the shape of [None] is [()]. *)
Definition np_shape (a : option (ndarray float)) : list nat :=
  match a with
  | Some a => shape a
  | None => []
  end.

(** The exceptions of the code after the checks. *)
Definition late (err : error) : Prop :=
  err = TypeError \/ err = IndexError \/ err = ValueError \/ err = AttributeError.

Lemma mask_assign_late {A : Type} (a : ndarray A) mask v err :
  mask_assign a mask v = Err err -> late err.
Proof.
  unfold mask_assign, late. destruct (shape_eqb _ _); [discriminate|].
  intros [= <-]. auto.
Qed.

Lemma reshape_F_late {A : Type} (a : ndarray A) sh err :
  reshape_F a sh = Err err -> late err.
Proof.
  unfold reshape_F, late. destruct (Nat.eqb _ _); [discriminate|].
  intros [= <-]. auto.
Qed.

Lemma of_option_Err {A : Type} (e : error) (o : option A) err :
  of_option e o = Err err -> err = e.
Proof. destruct o; [discriminate|]. now intros [= <-]. Qed.

Lemma set_row_late (a : rows) ind v err : set_row a ind v = Err err -> late err.
Proof.
  unfold set_row, late. destruct (decide _); [discriminate|]. intros [= <-]. auto.
Qed.

Lemma cast_step_late self loc (valid_mask : list bool) LOSDir st ind err :
  cast_step self loc valid_mask LOSDir st ind = Err err -> late err.
Proof.
  unfold cast_step, get_row. intros H.
  repeat match type of H with
         | bind ?m _ = Err _ =>
             let E := fresh "E" in
             destruct m eqn:E; cbn [bind] in H;
             [|injection H as <-;
               first [apply of_option_Err in E; subst; unfold late; now auto
                     |now apply set_row_late in E]]
         | (if ?b then _ else _) = Err _ => destruct b
         | Ok _ = Err _ => discriminate
         end.
Qed.

Lemma cast_loop_late self loc (valid_mask : list bool) LOSDir inds st err :
  cast_loop (cast_step self loc valid_mask LOSDir) inds st = Err err -> late err.
Proof.
  revert st. induction inds as [|ind rest IH]; intros st H; [discriminate|].
  simpl in H.
  destruct (cast_step self loc valid_mask LOSDir st ind) as [st'|e] eqn:E;
    cbn [bind] in H.
  - now apply (IH st').
  - injection H as <-. now apply cast_step_late in E.
Qed.

(** After the checks of the configuration and of the shapes, no other
    step raises their exceptions. *)
Lemma raycast_pixels_log_late self fit loc x y binning Coords err :
  fitresults self = Some fit -> vtkCellLocator self = Some loc ->
  np_shape x = np_shape y ->
  raycast_pixels_log self x y binning Coords = Err err -> late err.
Proof.
  intros Hfit Hloc Hsh. unfold raycast_pixels_log.
  rewrite Hfit, Hloc. cbn [of_option bind]. intros H.
  assert (Hargs : forall A (k : bool * ndarray float * ndarray float * ndarray bool
                                 -> result A),
            (forall a, k a = Err err -> late err) ->
            bind
              match x, y with
              | None, None =>
                  let '(x, y) := fullchip_pixels fit binning Coords in
                  Ok (true, x, y, mk_ndarray (shape x) (repeat true (size x)))
              | Some x, Some y =>
                  if shape_eqb (shape x) (shape y) then
                    let valid_mask := valid_mask_of x y in
                    let '(x, y) := display_coords fit Coords x y in
                    Ok (false, x, y, valid_mask)
                  else Err ShapeMismatch
              | Some a, None | None, Some a =>
                  if shape_eqb (shape a) [] then Err TypeError else Err ShapeMismatch
              end k = Err err -> late err).
  { intros A k Hk. destruct x as [a|], y as [b|]; cbn [np_shape] in Hsh.
    - rewrite Hsh, shape_eqb_refl.
      destruct (display_coords fit Coords a b). cbn [bind]. apply Hk.
    - rewrite Hsh, shape_eqb_refl. cbn [bind]. intros [= <-]. unfold late. auto.
    - rewrite <- Hsh, shape_eqb_refl. cbn [bind]. intros [= <-]. unfold late. auto.
    - destruct (fullchip_pixels fit binning Coords). cbn [bind]. apply Hk. }
  revert H. apply Hargs. intros [[[fullchip gx] gy] vm] H.
  repeat match type of H with
         | bind ?m _ = Err _ =>
             let E := fresh "E" in
             destruct m eqn:E; cbn [bind] in H;
             [|injection H as <-;
               first [now apply mask_assign_late in E
                     |now apply reshape_F_late in E
                     |now apply cast_loop_late in E]]
         | Ok _ = Err _ => discriminate
         end.
Qed.

Lemma np_shape_differ_cases (x y : option (ndarray float)) :
  np_shape x <> np_shape y ->
  match x, y with
  | Some a, Some b => shape_eqb (shape a) (shape b) = false
  | Some a, None | None, Some a => shape_eqb (shape a) [] = false
  | None, None => False
  end.
Proof.
  unfold shape_eqb. destruct x as [a|], y as [b|]; cbn [np_shape]; intros H.
  - now apply bool_decide_eq_false.
  - now apply bool_decide_eq_false.
  - apply bool_decide_eq_false. congruence.
  - congruence.
Qed.

(** X16. [raycast_pixels] looks at its configuration first and at the
    shapes of its arguments next.  It raises the not-configured error
    exactly when the fit results or the CAD model are not set, whatever
    the pixels asked for; and the same-shape error exactly when both are
    set and the shapes of [x] and [y] differ, the shape of a missing
    argument being [()]. *)
Theorem raycast_pixels_checks self x y binning Coords :
  (raycast_pixels self x y binning Coords = Err NotConfigured <->
   fitresults self = None \/ vtkCellLocator self = None) /\
  (raycast_pixels self x y binning Coords = Err ShapeMismatch <->
   is_Some (fitresults self) /\ is_Some (vtkCellLocator self) /\
   np_shape x <> np_shape y).
Proof.
  assert (Hrun : forall err,
            raycast_pixels self x y binning Coords = Err err <->
            raycast_pixels_log self x y binning Coords = Err err).
  { intros err. unfold raycast_pixels.
    destruct (raycast_pixels_log self x y binning Coords); cbn [bind];
      split; congruence. }
  assert (Hlate : forall err, late err -> err <> NotConfigured /\ err <> ShapeMismatch).
  { intros err [-> | [-> | [-> | ->]]]; split; discriminate. }
  assert (Hmis : forall fit loc,
            fitresults self = Some fit -> vtkCellLocator self = Some loc ->
            np_shape x <> np_shape y ->
            raycast_pixels_log self x y binning Coords = Err ShapeMismatch).
  { intros fit loc Hfit Hloc Hne. apply np_shape_differ_cases in Hne.
    unfold raycast_pixels_log. rewrite Hfit, Hloc. cbn [of_option bind].
    destruct x as [a|], y as [b|]; try contradiction; now rewrite Hne. }
  destruct (fitresults self) as [fit|] eqn:Hfit.
  2: { split; rewrite Hrun; unfold raycast_pixels_log; rewrite Hfit;
       cbn [of_option bind].
       - split; [now left|reflexivity].
       - split; [discriminate|]. intros ([? ?] & _). discriminate. }
  destruct (vtkCellLocator self) as [loc|] eqn:Hloc.
  2: { split; rewrite Hrun; unfold raycast_pixels_log; rewrite Hfit, Hloc;
       cbn [of_option bind].
       - split; [now right|reflexivity].
       - split; [discriminate|]. intros (_ & [? ?] & _). discriminate. }
  destruct (decide (np_shape x = np_shape y)) as [Heq|Hne].
  - split; rewrite Hrun.
    + split; [|intros [?|?]; discriminate].
      intros H. apply (raycast_pixels_log_late self fit loc) in H; try assumption.
      now destruct (Hlate _ H).
    + split; [|intros (_ & _ & ?); contradiction].
      intros H. apply (raycast_pixels_log_late self fit loc) in H; try assumption.
      now destruct (Hlate _ H).
  - split; rewrite Hrun, (Hmis fit loc eq_refl eq_refl Hne).
    + split; [discriminate|intros [?|?]; discriminate].
    + split; [|reflexivity]. intros _. repeat split; eauto.
Qed.

(** *** The ray data of a cast, as the queries and [save] need them *)

(** The arrays of the ray data [raycast_pixels] returns fit each other. *)
Lemma cast_result_stored_ok fit loc L x y Coords :
  pixels_ok fit Coords x y ->
  row_per_pixel fit ->
  exists sx sy e s,
    RayData.stored_ok (cast_result fit loc L x y Coords) sx sy e s /\
    shape sx = shape x /\
    data sx = masked F64.nan (data (fst (display_coords fit Coords x y)))
                (data (valid_mask_of x y)) /\
    data sy = masked F64.nan (data (snd (display_coords fit Coords x y)))
                (data (valid_mask_of x y)).
Proof.
  intros (Hx & Hy & Hsh & Hdx & Hdy & Hsx & Hsy) Hrow.
  pose proof (length_valid_mask_of x y Hx Hy Hsh) as Hlm.
  unfold cast_result, flat_pixels.
  destruct (display_coords fit Coords x y) as [dx dy]. cbn [fst snd] in *.
  unfold wf in Hdx, Hdy.
  assert (Ldx : length (data dx) = size x) by (rewrite Hdx, Hsx; reflexivity).
  assert (Ldy : length (data dy) = size x) by (rewrite Hdy, Hsy; reflexivity).
  set (vm := data (valid_mask_of x y)) in *.
  set (fx := mk_ndarray [size dx] (masked F64.zero (data dx) vm)).
  set (fy := mk_ndarray [size dy] (masked F64.zero (data dy) vm)).
  assert (Hsz : size dx = size x) by (unfold size; now rewrite Hsx).
  assert (Hszy : size dy = size x) by (unfold size; now rewrite Hsy).
  assert (Hfx : wf fx).
  { unfold wf, fx. cbn [data shape]. rewrite length_masked, prod_singleton; lia. }
  assert (Hfy : wf fy).
  { unfold wf, fy. cbn [data shape]. rewrite length_masked, prod_singleton; lia. }
  destruct (Hrow fx fy Hfx Hfy) as [Hpl Hll].
  { unfold fx, fy. cbn [shape]. congruence. }
  assert (Hfs : size fx = size x).
  { unfold size, fx. cbn [shape]. rewrite prod_singleton. exact Hsz. }
  pose proof (length_ray_records loc L vm (get_pupilpos fit fx fy)
                (get_los_direction fit fx fy) (size x) Hlm
                ltac:(congruence) ltac:(congruence)) as Hlen.
  do 4 eexists. split; [|split; [|split]].
  - split; [reflexivity|]. split; [reflexivity|]. split; [reflexivity|].
    split; [reflexivity|].
    unfold wf. cbn [data shape].
    rewrite !length_of_rows, !length_masked, !length_map, Hlen, prod_app, prod_singleton
      by lia.
    fold (size dx). repeat split; lia.
  - cbn [shape]. exact Hsx.
  - reflexivity.
  - reflexivity.
Qed.

Lemma calibration_rows_length fit Coords x y :
  pixels_ok fit Coords x y -> row_per_pixel fit ->
  length (pupil_rows fit Coords x y) = size x /\
  length (los_rows fit Coords x y) = size x.
Proof.
  intros (Hx & Hy & Hsh & Hdx & Hdy & Hsx & Hsy) Hr.
  pose proof (length_valid_mask_of x y Hx Hy Hsh) as Hlm.
  unfold pupil_rows, los_rows, flat_pixels.
  destruct (display_coords fit Coords x y) as [dx dy]. cbn [fst snd] in *.
  unfold wf in Hdx, Hdy.
  match goal with |- length (get_pupilpos fit ?a ?b) = _ /\ _ =>
    replace (size x) with (size a)
      by (unfold size at 1; cbn [shape]; rewrite prod_singleton;
          unfold size; now rewrite Hsx);
    apply (Hr a b)
  end.
  - unfold wf. cbn [data shape]. unfold size in *. rewrite Hsx in *.
    rewrite length_masked, prod_singleton; lia.
  - unfold wf. cbn [data shape]. unfold size in *. rewrite Hsy in *.
    rewrite length_masked, prod_singleton; lia.
  - cbn [shape]. unfold size. congruence.
Qed.

Lemma cast_result_meta fit loc L x y Coords :
  RayData.fullchip (cast_result fit loc L x y Coords) = Some false /\
  RayData.binning (cast_result fit loc L x y Coords) = None /\
  RayData.transform (cast_result fit loc L x y Coords) = Some (transform fit) /\
  RayData.ResultType (cast_result fit loc L x y Coords) = Some "PixelRayCast"%string.
Proof.
  unfold cast_result.
  destruct (display_coords fit Coords x y) as [dx dy].
  destruct (flat_pixels fit Coords x y) as [fx fy]. repeat split.
Qed.

(** What the ray data of a cast hold for pixel [i]. *)
Lemma cast_result_pixel fit loc L x y Coords (i : nat) a b :
  pixels_ok fit Coords x y -> row_per_pixel fit ->
  data x !! i = Some a -> data y !! i = Some b ->
  exists px py s d,
    data (fst (display_coords fit Coords x y)) !! i = Some px /\
    data (snd (display_coords fit Coords x y)) !! i = Some py /\
    pupil_rows fit Coords x y !! i = Some s /\
    los_rows fit Coords x y !! i = Some d /\
    if F64.isnan a || F64.isnan b then
      ray_start_at (cast_result fit loc L x y Coords) i = Some vnan /\
      ray_end_at (cast_result fit loc L x y Coords) i = Some vnan /\
      pixel_x_at (cast_result fit loc L x y Coords) i = Some F64.nan /\
      pixel_y_at (cast_result fit loc L x y Coords) i = Some F64.nan
    else
      ray_start_at (cast_result fit loc L x y Coords) i = Some s /\
      ray_end_at (cast_result fit loc L x y Coords) i = Some (ray_end_of loc L s d) /\
      pixel_x_at (cast_result fit loc L x y Coords) i = Some px /\
      pixel_y_at (cast_result fit loc L x y Coords) i = Some py.
Proof.
  intros Hp Hr Ha Hb.
  pose proof (lookup_valid_mask_of x y i a b Ha Hb) as Hv.
  destruct (calibration_rows_length fit Coords x y Hp Hr) as [Hpl Hll].
  destruct Hp as (Hx & Hy & Hsh & Hdx & Hdy & Hsx & Hsy).
  assert (Hi : i < size x).
  { unfold size. rewrite <- Hx. now apply lookup_lt_is_Some_1. }
  assert (Hsz : size (fst (display_coords fit Coords x y)) = size x)
    by (unfold size; now rewrite Hsx).
  assert (Hszy : size (snd (display_coords fit Coords x y)) = size x)
    by (unfold size; now rewrite Hsy).
  destruct (lookup_lt_is_Some_2 (data (fst (display_coords fit Coords x y))) i)
    as [px Hpx]; [unfold wf in Hdx; fold (size (fst (display_coords fit Coords x y))) in Hdx; lia|].
  destruct (lookup_lt_is_Some_2 (data (snd (display_coords fit Coords x y))) i)
    as [py Hpy]; [unfold wf in Hdy; fold (size (snd (display_coords fit Coords x y))) in Hdy; lia|].
  destruct (lookup_lt_is_Some_2 (pupil_rows fit Coords x y) i) as [s Hps]; [lia|].
  destruct (lookup_lt_is_Some_2 (los_rows fit Coords x y) i) as [d Hld]; [lia|].
  exists px, py, s, d. repeat (split; [assumption|]).
  rewrite cast_result_start_at, cast_result_end_at, cast_result_x_at, cast_result_y_at.
  rewrite (lookup_masked F64.nan _ _ i px _ Hpx Hv).
  rewrite (lookup_masked F64.nan _ _ i py _ Hpy Hv).
  unfold cast_at. rewrite Hv, Hps, Hld.
  destruct (F64.isnan a), (F64.isnan b); cbn; repeat split.
Qed.

(** *** What is given plays no part *)

(** X17. When pixels are given, the binning plays no part: the cast
    returns the same for every binning, and its ray data never hold a
    binning nor the mark of a full-chip cast; they hold the transform of
    the calibration and the result type [PixelRayCast]. *)
Theorem raycast_pixels_of_given_pixels self x y binning Coords :
  (forall binning',
     raycast_pixels self (Some x) (Some y) binning Coords =
     raycast_pixels self (Some x) (Some y) binning' Coords) /\
  (forall r,
     raycast_pixels self (Some x) (Some y) binning Coords = Ok r ->
     RayData.binning r = None /\ RayData.fullchip r = Some false /\
     RayData.transform r = transform <$> fitresults self /\
     RayData.ResultType r = Some "PixelRayCast"%string).
Proof.
  split.
  - intros binning'. unfold raycast_pixels, raycast_pixels_log.
    destruct (fitresults self) as [fit|]; [|reflexivity].
    destruct (vtkCellLocator self) as [loc|]; [|reflexivity].
    cbn [of_option bind].
    destruct (shape_eqb (shape x) (shape y)); [|reflexivity].
    destruct (display_coords fit Coords x y) as [dx dy]. reflexivity.
  - intros r. unfold raycast_pixels.
    destruct (raycast_pixels_log self (Some x) (Some y) binning Coords)
      as [[r' log]|err] eqn:E; cbn [bind fst]; [|discriminate].
    intros [= <-]. unfold raycast_pixels_log in E.
    destruct (fitresults self) as [fit|]; [|discriminate].
    destruct (vtkCellLocator self) as [loc|]; [|discriminate].
    cbn [of_option bind] in E.
    destruct (shape_eqb (shape x) (shape y)); [|discriminate].
    destruct (display_coords fit Coords x y) as [dx dy]. cbn [bind] in E.
    repeat match type of E with
           | bind ?m _ = Ok _ =>
               let E' := fresh "E" in
               destruct m eqn:E'; cbn [bind] in E; [|discriminate]
           end.
    injection E as <- _. repeat split.
Qed.

End Cast.

(** C8. Two casts of the same pixels that differ in the order of the
    visits (and in what the fresh end-point array held) return the same
    ray data; so does a cast that visits the pixels in their own order. *)
Theorem raycast_pixels_order_independent
    original_to_display_coords fullchip_pixels
    (junk1 junk2 : nat -> vec3) (shuffle1 shuffle2 : list nat -> list nat)
    self fit loc L x y binning Coords :
  configured self fit loc L ->
  pixels_ok original_to_display_coords fit Coords x y ->
  row_per_pixel fit ->
  is_shuffle shuffle1 ->
  is_shuffle shuffle2 ->
  exists r,
    raycast_pixels original_to_display_coords fullchip_pixels junk1 shuffle1
      self (Some x) (Some y) binning Coords = Ok r /\
    raycast_pixels original_to_display_coords fullchip_pixels junk2 shuffle2
      self (Some x) (Some y) binning Coords = Ok r /\
    raycast_pixels original_to_display_coords fullchip_pixels junk1 (fun l => l)
      self (Some x) (Some y) binning Coords = Ok r.
Proof.
  intros Hc Hp Hr H1 H2.
  exists (cast_result original_to_display_coords fit loc L x y Coords).
  split; [|split]; apply raycast_pixels_spec; try assumption.
  intros l. reflexivity.
Qed.

(** *** Making a ray caster *)

(** [RayCaster.__init__]: the calibration and the CAD model are set when
    they are given; the ray length is not an attribute before a CAD model
    is set. *)
Definition new (FitResults : option FitResults) (CADModel : option CADModel)
    (verbose : bool) : t :=
  let self := init verbose in
  let self :=
    match FitResults with
    | Some f => set_calibration self f
    | None => self
    end in
  match CADModel with
  | Some c => set_cadmodel self c
  | None => self
  end.

(** The ray casters a program can hold: made by the constructor, and
    changed by [set_cadmodel] and [set_calibration]. *)
Inductive built : t -> Prop :=
| built_new f c v : built (new f c v)
| built_set_cadmodel self c : built self -> built (set_cadmodel self c)
| built_set_calibration self f : built self -> built (set_calibration self f).

(** The cell locator, the machine name and the ray length are set
    together, from one CAD model. *)
Definition of_one_model (self : t) : Prop :=
  match vtkCellLocator self with
  | Some loc =>
      exists cad,
        loc = get_vtkCellLocator cad /\
        machine_name self = Some (cad_machine_name cad) /\
        max_ray_length self = Some (cad_max_ray_length cad)
  | None => machine_name self = None /\ max_ray_length self = None
  end.

Lemma built_of_one_model self : built self -> of_one_model self.
Proof.
  induction 1 as [f c v|self c _ _|self f _ IH].
  - destruct f, c; unfold of_one_model; simpl; eauto.
  - unfold of_one_model. simpl. eauto.
  - exact IH.
Qed.

(** X18. However a ray caster was made and changed by its constructor,
    [set_cadmodel] and [set_calibration], its cell locator, its machine
    name and its ray length come from one CAD model, or all three are
    missing.  So a ray caster that passes the two checks of
    [raycast_pixels] has a ray length to cast with. *)
Theorem built_caster_is_configured self fit loc :
  built self ->
  fitresults self = Some fit -> vtkCellLocator self = Some loc ->
  exists cad,
    loc = get_vtkCellLocator cad /\
    machine_name self = Some (cad_machine_name cad) /\
    configured self fit loc (cad_max_ray_length cad).
Proof.
  intros Hb Hfit Hloc.
  pose proof (built_of_one_model self Hb) as H.
  unfold of_one_model in H. rewrite Hloc in H.
  destruct H as (cad & Hl & Hm & HL).
  exists cad. split; [exact Hl|]. split; [exact Hm|].
  unfold configured. auto.
Qed.

End RayCaster.

(** ** A small camera and scene *)

Module Demo.

Definition num (z : Z) : float := F64.of_Z z.

Definition half : float := F64.div (num 1) (num 2).

Definition transformer : CoordTransformer :=
  {| transform_actions := ["flip_up_down"%string];
     x_pixels := 4; y_pixels := 2;
     pixel_aspectratio := num 1 |}.

(** A pinhole at the origin: the pixel [(x, y)] looks along [(x, y, 1)]. *)
Definition fit : FitResults :=
  {| transform := transformer;
     get_los_direction := fun x y =>
       zip_with (fun a b => V3 a b (num 1)) (data x) (data y);
     get_pupilpos := fun x y =>
       zip_with (fun _ _ => V3 (num 0) (num 0) (num 0)) (data x) (data y) |}.

(** The same camera with its pupil at [(1, 2, 3)]. *)
Definition fit_off_origin : FitResults :=
  {| transform := transformer;
     get_los_direction := fun x y =>
       zip_with (fun a b => V3 a b (num 1)) (data x) (data y);
     get_pupilpos := fun x y =>
       zip_with (fun _ _ => V3 (num 1) (num 2) (num 3)) (data x) (data y) |}.

(** A wall across the middle of every segment that ends at [x >= 0];
    nothing on the other side. *)
Definition locator : CellLocator :=
  {| IntersectWithLine := fun p q =>
       if F64.leb (num 0) (vx q) then Some (vscale half (vadd p q)) else None |}.

Definition cad : CADModel :=
  {| cad_machine_name := "demo";
     cad_max_ray_length := num 4;
     get_vtkCellLocator := locator |}.

Definition caster : RayCaster.t :=
  RayCaster.set_calibration (RayCaster.set_cadmodel (RayCaster.init false) cad) fit.

Definition caster_off_origin : RayCaster.t :=
  RayCaster.set_calibration (RayCaster.set_cadmodel (RayCaster.init false) cad)
    fit_off_origin.

(** A display that shows the sensor transposed. *)
Definition original_to_display_coords (T : CoordTransformer)
    (x y : ndarray float) : ndarray float * ndarray float := (y, x).

Definition fullchip_pixels (f : FitResults) (binning : Z) (Coords : string)
    : ndarray float * ndarray float :=
  (mk_ndarray [0] [], mk_ndarray [0] []).

Definition junk (n : nat) : vec3 := V3 (num 7) (num 7) (num 7).

(** Four pixels on a 2 x 2 grid: a hit, a pixel without [x], a miss, a
    pixel without [y]. *)
Definition x : ndarray float :=
  mk_ndarray [2; 2] [num 1; F64.nan; num (-1); num 3].

Definition y : ndarray float :=
  mk_ndarray [2; 2] [num 1; num 0; num 0; F64.nan].

Definition cast (shuffle : list nat -> list nat) : result (RayData.t float * list nat) :=
  RayCaster.raycast_pixels_log original_to_display_coords fullchip_pixels junk
    shuffle caster (Some x) (Some y) 1 "Display".

(** Ray data of two pixels, [(10, 10)] with a ray of length 5 and
    [(20, 20)] with a ray of length 7. *)
Definition vec (a b c : Z) : vec3 := V3 (num a) (num b) (num c).

Definition points (l : list (Z * Z)) : ndarray float * ndarray float :=
  (mk_ndarray [length l] (map (fun p => num (fst p)) l),
   mk_ndarray [length l] (map (fun p => num (snd p)) l)).

Definition ray_data (starts ends : rows) (px py : list float) : RayData.t float :=
  RayData.mk
    (Some (mk_ndarray [length ends; 3] (data (of_rows ends))))
    (Some (mk_ndarray [length starts; 3] (data (of_rows starts))))
    None (Some transformer) (Some false)
    (Some (mk_ndarray [length px] px))
    (Some (mk_ndarray [length py] py))
    (Some "PixelRayCast"%string).

Definition two_rays : RayData.t float :=
  ray_data [vec 0 0 0; vec 0 0 0] [vec 3 4 0; vec 0 7 0]
           [num 10; num 20] [num 10; num 20].

Definition display_to_original_image (T : CoordTransformer)
    (a : ndarray float) (binning : option Z) : ndarray float := a.

(** A transformer whose methods raise when they are handed [None]. *)
Definition original_lengths_of_one (T : CoordTransformer)
    (x y : option (ndarray float)) : result (ndarray float) :=
  Err TypeError.

Definition original_directions_of_one (T : CoordTransformer)
    (x y : option (ndarray float)) : result (ndarray float) :=
  Err TypeError.

Definition get_ray_lengths :=
  RayData.get_ray_lengths original_to_display_coords display_to_original_image
    original_lengths_of_one.

Definition get_ray_directions :=
  RayData.get_ray_directions original_to_display_coords display_to_original_image
    original_lengths_of_one original_directions_of_one.

(** The same with a third pixel that was not valid when the rays were
    cast. *)
Definition rays_with_nan : RayData.t float :=
  ray_data [vec 0 0 0; vec 0 0 0; vnan] [vec 3 4 0; vec 0 7 0; vnan]
           [num 10; num 20; F64.nan] [num 10; num 20; F64.nan].

Definition nc_path (SaveName : string) : string :=
  ("raydata/" ++ SaveName ++ ".nc")%string.

(** Every directory is there but [raydata/missing]. *)
Definition openable (path : string) : bool :=
  negb (String.prefix "raydata/missing/" path).

(** A transformer class whose [set_transform_actions] keeps the names it
    is given, and an [eval] that raises on the texts [parse_list] does not
    read. *)
Definition new_transformer : CoordTransformer :=
  {| transform_actions := [];
     x_pixels := 0; y_pixels := 0;
     pixel_aspectratio := num 1 |}.

Definition set_transform_actions (T : CoordTransformer) (actions : list string)
    : result CoordTransformer :=
  Ok {| transform_actions := actions;
        x_pixels := x_pixels T; y_pixels := y_pixels T;
        pixel_aspectratio := pixel_aspectratio T |}.

Definition eval_other (T : CoordTransformer) (text : string)
    : result CoordTransformer :=
  Err ValueError.

Definition save := RayData.save nc_path openable.

Definition load :=
  RayData.load nc_path new_transformer set_transform_actions eval_other.

(** The cast of given pixels in the demo scene. *)
Definition raycast (x y : ndarray float) : result (RayData.t float) :=
  RayCaster.raycast_pixels original_to_display_coords fullchip_pixels junk
    (fun l => l) caster (Some x) (Some y) 1 "Display".

(** The ray data of the pixel [(0.5, 0.5)]: its ray hits the wall at
    [(1, 1, 2)]. *)
Definition half_pixel : RayData.t float :=
  ray_data [vec 0 0 0] [vec 1 1 2] [half] [half].

(** A query for one pixel. *)
Definition at_pixel (qx qy : float) : option (ndarray float) * option (ndarray float) :=
  (Some (mk_ndarray [1] [qx]), Some (mk_ndarray [1] [qy])).

(** A camera whose image is shown as it is. *)
Definition untransformed : CoordTransformer :=
  {| transform_actions := [];
     x_pixels := 4; y_pixels := 2;
     pixel_aspectratio := num 1 |}.

(** The two rays, seen by that camera. *)
Definition untransformed_rays : RayData.t float :=
  RayData.mk
    (Some (mk_ndarray [2; 3] (data (of_rows [vec 3 4 0; vec 0 7 0]))))
    (Some (mk_ndarray [2; 3] (data (of_rows [vec 0 0 0; vec 0 0 0]))))
    None (Some untransformed) (Some false)
    (Some (mk_ndarray [2] [num 10; num 20]))
    (Some (mk_ndarray [2] [num 10; num 20]))
    (Some "PixelRayCast"%string).

(** Ray data of no pixel. *)
Definition no_rays : RayData.t float := ray_data [] [] [] [].

(** The ray of one pixel given as two scalars. *)
Definition scalar_ray : RayData.t float :=
  RayData.mk
    (Some (mk_ndarray [3] (data (of_rows [vec 3 4 0]))))
    (Some (mk_ndarray [3] (data (of_rows [vec 0 0 0]))))
    None (Some transformer) (Some false)
    (Some (mk_ndarray [] [num 10]))
    (Some (mk_ndarray [] [num 10]))
    (Some "PixelRayCast"%string).

(** The grid of a chip of two pixels in a row. *)
Definition chip (f : FitResults) (binning : Z) (Coords : string)
    : ndarray float * ndarray float :=
  (mk_ndarray [1; 2] [num 0; num 1], mk_ndarray [1; 2] [num 0; num 0]).

End Demo.

(** *** The demo scene meets what the theorems ask of their inputs *)

Lemma demo_configured :
  RayCaster.configured Demo.caster Demo.fit Demo.locator (Demo.num 4).
Proof. repeat split. Qed.

Lemma demo_row_per_pixel : RayCaster.row_per_pixel Demo.fit.
Proof.
  intros a b Ha Hb Hs. unfold wf, size in *. simpl.
  rewrite !length_zip_with. rewrite Hs in *. lia.
Qed.

Lemma demo_pixels_ok :
  RayCaster.pixels_ok Demo.original_to_display_coords Demo.fit "Display" Demo.x Demo.y.
Proof. repeat split. Qed.

Lemma rev_is_shuffle : RayCaster.is_shuffle (@rev nat).
Proof. intros l. symmetry. apply Permutation_rev. Qed.

Lemma rotate_is_shuffle : RayCaster.is_shuffle (rotate 1).
Proof.
  intros l. unfold rotate. rewrite Permutation_app_comm, take_drop. reflexivity.
Qed.


Lemma off_origin_configured :
  RayCaster.configured Demo.caster_off_origin Demo.fit_off_origin Demo.locator
    (Demo.num 4).
Proof. repeat split. Qed.

Lemma off_origin_row_per_pixel : RayCaster.row_per_pixel Demo.fit_off_origin.
Proof.
  intros a b Ha Hb Hs. unfold wf, size in *. simpl.
  rewrite !length_zip_with. rewrite Hs in *. lia.
Qed.

Lemma off_origin_pixels_ok :
  RayCaster.pixels_ok Demo.original_to_display_coords Demo.fit_off_origin
    "Display" Demo.x Demo.y.
Proof. repeat split. Qed.

(** The pixel [(-1, 0)] seen from [(1, 2, 3)] along [(-1, 0, 1)], with rays
    of length 4: the segment ends at [(1 - 4, 2 + 0, 3 + 4)], and nothing
    is hit. *)
Lemma raycast_pixels_miss_witness :
  exists r,
    RayCaster.raycast_pixels Demo.original_to_display_coords Demo.fullchip_pixels
      Demo.junk (@rev nat) Demo.caster_off_origin (Some Demo.x) (Some Demo.y)
      1 "Display" = Ok r /\
    ray_start_at r 2 = Some (V3 (Demo.num 1) (Demo.num 2) (Demo.num 3)) /\
    ray_end_at r 2 = Some (V3 (Demo.num (-3)) (Demo.num 2) (Demo.num 7)).
Proof.
  exact (RayCaster.raycast_pixels_miss Demo.original_to_display_coords
           Demo.fullchip_pixels Demo.junk (@rev nat) Demo.caster_off_origin
           Demo.fit_off_origin
           Demo.locator (Demo.num 4) Demo.x Demo.y 1 "Display" 2
           (Demo.num (-1)) (Demo.num 0)
           (V3 (Demo.num 1) (Demo.num 2) (Demo.num 3))
           (V3 (Demo.num (-1)) (Demo.num 0) (Demo.num 1))
           off_origin_configured off_origin_pixels_ok off_origin_row_per_pixel
           rev_is_shuffle
           eq_refl eq_refl eq_refl eq_refl eq_refl eq_refl eq_refl).
Defined.

Lemma raycast_pixels_validity_witness :
  exists r log,
    Demo.cast (@rev nat) = Ok (r, log) /\
    log = [2; 0] /\
    ray_end_at r 1 = Some vnan /\ pixel_x_at r 1 = Some F64.nan /\
    ray_end_at r 3 = Some vnan /\ pixel_y_at r 3 = Some F64.nan /\
    pixel_x_at r 0 = Some (Demo.num 1) /\
    ray_end_at r 0 = Some (V3 (Demo.num 2) (Demo.num 2) (Demo.num 2)).
Proof.
  destruct (RayCaster.raycast_pixels_validity Demo.original_to_display_coords
              Demo.fullchip_pixels Demo.junk (@rev nat) Demo.caster Demo.fit
              Demo.locator (Demo.num 4) Demo.x Demo.y 1 "Display"
              demo_configured demo_pixels_ok demo_row_per_pixel rev_is_shuffle)
    as (r & log & Hrun & _ & _).
  exists r, log. split; [exact Hrun|].
  unfold Demo.cast in *.
  vm_compute in Hrun. injection Hrun as <- <-. vm_compute. repeat split.
Defined.

Lemma raycast_pixels_order_independent_witness :
  exists r,
    RayCaster.raycast_pixels Demo.original_to_display_coords Demo.fullchip_pixels
      Demo.junk (@rev nat) Demo.caster (Some Demo.x) (Some Demo.y) 1 "Display" = Ok r /\
    RayCaster.raycast_pixels Demo.original_to_display_coords Demo.fullchip_pixels
      (fun _ => vnan) (rotate 1) Demo.caster (Some Demo.x) (Some Demo.y) 1 "Display" = Ok r /\
    RayCaster.raycast_pixels Demo.original_to_display_coords Demo.fullchip_pixels
      Demo.junk (fun l => l) Demo.caster (Some Demo.x) (Some Demo.y) 1 "Display" = Ok r.
Proof.
  exact (RayCaster.raycast_pixels_order_independent Demo.original_to_display_coords
           Demo.fullchip_pixels Demo.junk (fun _ => vnan) (@rev nat) (rotate 1)
           Demo.caster Demo.fit Demo.locator (Demo.num 4) Demo.x Demo.y 1 "Display"
           demo_configured demo_pixels_ok demo_row_per_pixel
           rev_is_shuffle rotate_is_shuffle).
Defined.

(** C2, as the specification words it, fails for a pixel at infinity: its
    coordinate is not finite, yet [np.isnan] keeps it valid, the pixel is
    handed to the cell locator, and its entries are not NaN. *)
Lemma raycast_pixels_infinite_pixel_is_cast :
  exists r,
    RayCaster.raycast_pixels_log Demo.original_to_display_coords
      Demo.fullchip_pixels Demo.junk (fun l => l) Demo.caster
      (Some (mk_ndarray [1] [F64.inf])) (Some (mk_ndarray [1] [Demo.num 0]))
      1 "Display" = Ok (r, [0]) /\
    F64.isfinite F64.inf = false /\
    pixel_x_at r 0 = Some F64.inf /\
    ray_start_at r 0 = Some (V3 (Demo.num 0) (Demo.num 0) (Demo.num 0)) /\
    ray_end_at r 0 = Some (V3 F64.inf (Demo.num 0) (Demo.num 2)).
Proof. eexists. vm_compute. repeat split. Qed.

(** *** The queries on the demo data *)

Lemma two_rays_stored_ok :
  RayData.stored_ok Demo.two_rays
    (mk_ndarray [2] [Demo.num 10; Demo.num 20])
    (mk_ndarray [2] [Demo.num 10; Demo.num 20])
    (mk_ndarray [2; 3] (data (of_rows [Demo.vec 3 4 0; Demo.vec 0 7 0])))
    (mk_ndarray [2; 3] (data (of_rows [Demo.vec 0 0 0; Demo.vec 0 0 0]))).
Proof. repeat split. Qed.

Lemma rays_with_nan_stored_ok :
  RayData.stored_ok Demo.rays_with_nan
    (mk_ndarray [3] [Demo.num 10; Demo.num 20; F64.nan])
    (mk_ndarray [3] [Demo.num 10; Demo.num 20; F64.nan])
    (mk_ndarray [3; 3] (data (of_rows [Demo.vec 3 4 0; Demo.vec 0 7 0; vnan])))
    (mk_ndarray [3; 3] (data (of_rows [Demo.vec 0 0 0; Demo.vec 0 0 0; vnan]))).
Proof. repeat split. Qed.

Lemma one_pixel_query_ok (self : RayData.t float) (a b : float) :
  RayData.query_ok Demo.original_to_display_coords self "Display"
    (mk_ndarray [1] [a]) (mk_ndarray [1] [b])
    (mk_ndarray [1] [a]) (mk_ndarray [1] [b]).
Proof. repeat split. Qed.

Lemma one_pixel_query (a b : float) (p : nat) (a' b' : float) :
  RayData.query_pixel (mk_ndarray [1] [a]) (mk_ndarray [1] [b]) p a' b' ->
  p = 0 /\ a' = a /\ b' = b.
Proof.
  intros (Ha & Hb & _). cbn [data] in Ha, Hb.
  apply list_lookup_singleton_Some in Ha as [-> <-].
  apply list_lookup_singleton_Some in Hb as [_ <-]. auto.
Qed.


Lemma get_ray_lengths_nan_query_witness :
  exists out,
    Demo.get_ray_lengths Demo.two_rays
      (Some (mk_ndarray [2] [F64.nan; Demo.num 11]))
      (Some (mk_ndarray [2] [Demo.num 0; Demo.num 11]))
      RayData.PositionTol_default "Display" = Ok out /\
    data out = [F64.nan; Demo.num 5].
Proof.
  destruct (RayData.get_ray_lengths_nan_query
              Demo.original_to_display_coords Demo.display_to_original_image
              Demo.original_lengths_of_one
              Demo.two_rays _ _ _ _
              (mk_ndarray [2] [Demo.num 5; Demo.num 7])
              (mk_ndarray [2] [F64.nan; Demo.num 11])
              (mk_ndarray [2] [Demo.num 0; Demo.num 11])
              (mk_ndarray [2] [F64.nan; Demo.num 11])
              (mk_ndarray [2] [Demo.num 0; Demo.num 11])
              RayData.PositionTol_default "Display"
              two_rays_stored_ok eq_refl ltac:(repeat split))
    as (out & Hout & _ & _).
  - intros p a b (Ha & Hb & Han & Hbn). cbn [data] in Ha, Hb.
    destruct p as [|[|p]]; simpl in Ha, Hb; try discriminate.
    + injection Ha as <-. discriminate.
    + injection Ha as <-. injection Hb as <-.
      apply RayData.within_existsb. vm_compute. reflexivity.
  - exists out. split; [exact Hout|].
    vm_compute in Hout. injection Hout as <-. reflexivity.
Defined.

(** C6, as the specification words it, fails twice: [get_ray_lengths]
    raises for a query pixel at infinity, which is not finite and not NaN;
    and [get_ray_directions], which has no test for NaN at all, raises for
    a query pixel whose coordinates are NaN. *)
Lemma get_ray_queries_fail_on_non_finite_pixel :
  F64.isfinite F64.inf = false /\
  Demo.get_ray_lengths Demo.two_rays
    (Some (mk_ndarray [1] [F64.inf])) (Some (mk_ndarray [1] [Demo.num 10]))
    RayData.PositionTol_default "Display" = Err NoNearbyRay /\
  Demo.get_ray_directions Demo.two_rays
    (Some (mk_ndarray [1] [F64.nan])) (Some (mk_ndarray [1] [F64.nan]))
    RayData.PositionTol_default "Display" = Err NoNearbyRay.
Proof. repeat split; vm_compute; reflexivity. Qed.

Lemma get_ray_directions_stored_nan_witness :
  Demo.get_ray_directions Demo.rays_with_nan
    (Some (mk_ndarray [1] [Demo.num 11])) (Some (mk_ndarray [1] [Demo.num 11]))
    RayData.PositionTol_default "Display" = Err NoNearbyRay /\
  exists out,
    Demo.get_ray_lengths Demo.rays_with_nan
      (Some (mk_ndarray [1] [Demo.num 11])) (Some (mk_ndarray [1] [Demo.num 11]))
      RayData.PositionTol_default "Display" = Ok out.
Proof.
  destruct (RayData.get_ray_directions_stored_nan
              Demo.original_to_display_coords Demo.display_to_original_image
              Demo.original_lengths_of_one Demo.original_directions_of_one
              Demo.rays_with_nan _ _ _ _
              (mk_ndarray [3] [Demo.num 5; Demo.num 7; F64.nan])
              _ _ _ _ RayData.PositionTol_default "Display" 2
              rays_with_nan_stored_ok eq_refl
              (one_pixel_query_ok Demo.rays_with_nan (Demo.num 11) (Demo.num 11))
              ltac:(vm_compute; lia) (or_introl eq_refl))
    as [Hdir Hlen].
  split; [exact Hdir|]. apply Hlen.
  intros p a b Hq. apply one_pixel_query in Hq as (-> & -> & ->).
  apply RayData.within_existsb. vm_compute. reflexivity.
Defined.

Lemma get_ray_directions_zero_length_witness :
  exists dirs,
    Demo.get_ray_directions
      (Demo.ray_data [Demo.vec 1 2 3] [Demo.vec 1 2 3] [Demo.num 10] [Demo.num 10])
      None None RayData.PositionTol_default "Display" = Ok dirs /\
    vec_at dirs 0 = Some vnan.
Proof.
  apply (proj1 (RayData.get_ray_directions_zero_length
                  Demo.original_to_display_coords Demo.display_to_original_image
              Demo.original_lengths_of_one Demo.original_directions_of_one)
           _ (mk_ndarray [1] [Demo.num 10]) (mk_ndarray [1] [Demo.num 10])
           (mk_ndarray [1; 3] (data (of_rows [Demo.vec 1 2 3])))
           (mk_ndarray [1; 3] (data (of_rows [Demo.vec 1 2 3])))
           0 (Demo.vec 1 2 3)).
  - repeat split.
  - reflexivity.
  - reflexivity.
Defined.

(** *** Saving and loading the demo data *)

Lemma load_save_witness :
  exists d' r',
    Demo.save Demo.two_rays "demo" ∅ = (Ok tt, d') /\
    Demo.load "demo" d' = Ok r' /\
    pixel_x_at r' 0 = Some 10%Z /\ pixel_y_at r' 1 = Some 20%Z /\
    ray_end_at r' 0 = Some (Demo.vec 3 4 0) /\
    RayData.binning r' = None /\ RayData.fullchip r' = Some false /\
    RayData.transform r' = Some Demo.transformer.
Proof.
  destruct (RayData.load_save Demo.nc_path Demo.openable Demo.new_transformer
              Demo.set_transform_actions Demo.eval_other Demo.two_rays
              (mk_ndarray [2] [Demo.num 10; Demo.num 20])
              (mk_ndarray [2] [Demo.num 10; Demo.num 20])
              (mk_ndarray [2; 3] (data (of_rows [Demo.vec 3 4 0; Demo.vec 0 7 0])))
              (mk_ndarray [2; 3] (data (of_rows [Demo.vec 0 0 0; Demo.vec 0 0 0])))
              Demo.transformer
              {| transform_actions := ["flip_up_down"%string];
                 x_pixels := 0; y_pixels := 0;
                 pixel_aspectratio := Demo.num 1 |}
              "PixelRayCast" "demo" ∅)
    as (d' & Hsave & Hload & _).
  - repeat split; try reflexivity. left. reflexivity. discriminate.
  - reflexivity.
  - reflexivity.
  - exists d', (RayData.reloaded Demo.two_rays
                  (mk_ndarray [2] [Demo.num 10; Demo.num 20])
                  (mk_ndarray [2] [Demo.num 10; Demo.num 20])
                  (mk_ndarray [2; 3] (data (of_rows [Demo.vec 3 4 0; Demo.vec 0 7 0])))
                  (mk_ndarray [2; 3] (data (of_rows [Demo.vec 0 0 0; Demo.vec 0 0 0])))
                  Demo.transformer
                  {| transform_actions := ["flip_up_down"%string];
                     x_pixels := 0; y_pixels := 0;
                     pixel_aspectratio := Demo.num 1 |}
                  "PixelRayCast").
    split; [exact Hsave|]. split; [exact Hload|].
    repeat split; vm_compute; reflexivity.
Defined.

(** C5, as the specification words it, fails for a pixel between two
    integers: cast at [(0.5, 0.5)], saved and loaded, the pixel comes back
    at [(0, 0)], since the file keeps pixel coordinates as 32-bit
    integers. *)
Lemma load_save_loses_half_pixels :
  exists r d' r',
    Demo.raycast (mk_ndarray [1] [Demo.half]) (mk_ndarray [1] [Demo.half]) = Ok r /\
    Demo.save r "half" ∅ = (Ok tt, d') /\
    Demo.load "half" d' = Ok r' /\
    pixel_x_at r 0 = Some Demo.half /\ pixel_y_at r 0 = Some Demo.half /\
    pixel_x_at r' 0 = Some 0%Z /\ pixel_y_at r' 0 = Some 0%Z /\
    F64.of_Z 0 <> Demo.half.
Proof.
  destruct (RayData.load_save_reloaded Demo.nc_path Demo.openable
              Demo.new_transformer Demo.set_transform_actions Demo.eval_other
              Demo.half_pixel
              (mk_ndarray [1] [Demo.half]) (mk_ndarray [1] [Demo.half])
              (mk_ndarray [1; 3] [Demo.num 1; Demo.num 1; Demo.num 2])
              (mk_ndarray [1; 3] [Demo.num 0; Demo.num 0; Demo.num 0])
              Demo.transformer
              {| transform_actions := ["flip_up_down"%string];
                 x_pixels := 0; y_pixels := 0;
                 pixel_aspectratio := Demo.num 1 |}
              "PixelRayCast" "half" ∅)
    as (d' & Hsave & Hload).
  { repeat split; try reflexivity. left. reflexivity. discriminate. }
  { reflexivity. }
  { reflexivity. }
  exists Demo.half_pixel, d'. eexists.
  split; [vm_compute; reflexivity|].
  split; [exact Hsave|]. split; [exact Hload|].
  repeat split; try (vm_compute; reflexivity). discriminate.
Qed.

(** The one action list that does not come back: the empty one is written
    as the text of a list holding the empty string. *)
Lemma empty_actions_not_reloaded :
  parse_list (serialize_list []) = Some [""%string].
Proof. reflexivity. Qed.

(** C7. Pixels given as a 1 x 1 x 1 array are cast, and saving the result
    raises the unsupported-shape error; but the file was opened before the
    shape was looked at, so a file is left where there was none, and a
    data set that was stored under the same name is lost. *)
Lemma save_cube_leaves_a_file :
  exists r,
    Demo.raycast (mk_ndarray [1; 1; 1] [Demo.num 1])
                 (mk_ndarray [1; 1; 1] [Demo.num 1]) = Ok r /\
    shape <$> RayData.x r = Some [1; 1; 1] /\
    Demo.save r "cube" ∅ = (Err UnsupportedShape, {[ Demo.nc_path "cube" := None ]}) /\
    (forall f : netcdf_file,
       Demo.save r "cube" {[ Demo.nc_path "cube" := Some f ]}
       = (Err UnsupportedShape, {[ Demo.nc_path "cube" := None ]})).
Proof.
  eexists. split; [vm_compute; reflexivity|]. split; [reflexivity|].
  split.
  - unfold Demo.save.
    rewrite (RayData.save_unsupported_shape Demo.nc_path Demo.openable _
               (mk_ndarray [1; 1; 1] [Demo.num 1]) Demo.transformer)
      by (reflexivity || (simpl; lia)).
    now rewrite insert_empty.
  - intros f. unfold Demo.save.
    rewrite (RayData.save_unsupported_shape Demo.nc_path Demo.openable _
               (mk_ndarray [1; 1; 1] [Demo.num 1]) Demo.transformer)
      by (reflexivity || (simpl; lia)).
    now rewrite insert_singleton_eq.
Qed.

(** ** From a cast to the queries and to the file *)

(** X19. The lengths of the rays of a cast, asked for without pixels: one
    for each pixel, in the shape of the pixel arrays; NaN for a pixel
    that had a NaN coordinate, and for every other pixel the distance
    from its pupil position to the hit point, or to the end of the
    segment when nothing was hit. *)
Theorem lengths_of_a_cast
    original_to_display_coords fullchip_pixels uninitialised shuffle
    display_to_original_image original_lengths_of_one
    self fit loc L x y binning Coords tol QCoords :
  RayCaster.configured self fit loc L ->
  RayCaster.pixels_ok original_to_display_coords fit Coords x y ->
  RayCaster.row_per_pixel fit ->
  RayCaster.is_shuffle shuffle ->
  exists r RL,
    RayCaster.raycast_pixels original_to_display_coords fullchip_pixels
      uninitialised shuffle self (Some x) (Some y) binning Coords = Ok r /\
    RayData.get_ray_lengths original_to_display_coords display_to_original_image
      original_lengths_of_one
      r None None tol QCoords = Ok RL /\
    shape RL = shape x /\
    forall (i : nat) a b, data x !! i = Some a -> data y !! i = Some b ->
      if F64.isnan a || F64.isnan b then data RL !! i = Some F64.nan
      else
        exists s d,
          RayCaster.pupil_rows original_to_display_coords fit Coords x y !! i = Some s /\
          RayCaster.los_rows original_to_display_coords fit Coords x y !! i = Some d /\
          data RL !! i = Some (RayData.ray_length (RayCaster.ray_end_of loc L s d) s).
Proof.
  intros Hc Hp Hr Hs.
  set (r := RayCaster.cast_result original_to_display_coords fit loc L x y Coords).
  destruct (RayCaster.cast_result_stored_ok original_to_display_coords
              fit loc L x y Coords Hp Hr) as (sx & sy & e & s & Hok & Hsh & _).
  fold r in Hok.
  destruct (RayData.ray_lengths_spec r sx sy e s Hok) as (RL & HRL & SRL & _ & Hat).
  destruct (RayCaster.cast_result_meta original_to_display_coords fit loc L x y Coords)
    as (Hfull & _).
  fold r in Hfull.
  exists r, RL. split; [now apply RayCaster.raycast_pixels_spec|]. split.
  { unfold RayData.get_ray_lengths. rewrite HRL. cbn [bind].
    unfold RayData.whole_image. now rewrite Hfull. }
  split; [congruence|].
  intros i a b Ha Hb.
  destruct (RayCaster.cast_result_pixel original_to_display_coords fit loc L x y Coords
              i a b Hp Hr Ha Hb) as (px & py & s0 & d & _ & _ & Hps & Hld & Hcase).
  fold r in Hcase.
  destruct Hok as (_ & _ & He & Hst & _).
  unfold ray_start_at, ray_end_at in Hcase. rewrite He, Hst in Hcase.
  cbn [mbind option_bind] in Hcase.
  destruct (F64.isnan a || F64.isnan b).
  - destruct Hcase as (Hs0 & He0 & _). now rewrite (Hat i vnan vnan He0 Hs0).
  - destruct Hcase as (Hs0 & He0 & _). exists s0, d.
    split; [exact Hps|]. split; [exact Hld|]. exact (Hat i _ _ He0 Hs0).
Qed.

(** X20. The lengths of the rays of a cast of the whole chip, asked for
    without pixels: one for each pixel of the grid, the distance from its
    pupil position to the hit point or to the end of the segment.  Asked
    for in display coordinates the array is returned as it is; asked for
    in any other coordinates it goes through [display_to_original_image]
    with the binning of the cast. *)
Theorem lengths_of_a_fullchip_cast
    original_to_display_coords fullchip_pixels uninitialised shuffle
    display_to_original_image original_lengths_of_one
    self fit loc L binning Coords gx gy tol :
  RayCaster.configured self fit loc L ->
  fullchip_pixels fit binning Coords = (gx, gy) ->
  wf gx -> wf gy -> shape gy = shape gx ->
  RayCaster.row_per_pixel fit ->
  RayCaster.is_shuffle shuffle ->
  exists r RL,
    RayCaster.raycast_pixels original_to_display_coords fullchip_pixels
      uninitialised shuffle self None None binning Coords = Ok r /\
    shape RL = shape gx /\
    (forall (i : nat) s d,
       get_pupilpos fit (RayCaster.flat gx) (RayCaster.flat gy) !! i = Some s ->
       get_los_direction fit (RayCaster.flat gx) (RayCaster.flat gy) !! i = Some d ->
       data RL !! i = Some (RayData.ray_length (RayCaster.ray_end_of loc L s d) s)) /\
    forall QCoords,
      RayData.get_ray_lengths original_to_display_coords display_to_original_image
      original_lengths_of_one
        r None None tol QCoords =
      Ok (if String.eqb (lower QCoords) "display" then RL
          else display_to_original_image (transform fit) RL (Some binning)).
Proof.
  intros Hc Hgrid Wx Wy Sy Hrow Hshuf.
  destruct (RayCaster.raycast_pixels_log_fullchip original_to_display_coords
              fullchip_pixels uninitialised shuffle self fit loc L binning Coords gx gy
              Hc Hgrid Wx Wy Sy Hrow Hshuf) as (Hrun & Hpl & Hll).
  set (r := RayCaster.fullchip_result fit loc L binning gx gy) in *.
  destruct (RayCaster.fullchip_result_stored_ok fit loc L binning gx gy
              Wx Wy Sy Hpl Hll) as (e & s & Hok).
  fold r in Hok.
  destruct (RayData.ray_lengths_spec r gx gy e s Hok) as (RL & HRL & SRL & _ & Hat).
  exists r, RL. split; [|split; [exact SRL|split]].
  - unfold RayCaster.raycast_pixels. now rewrite Hrun.
  - intros i s0 d Hs Hd.
    assert (Hi : i < size gx) by (apply lookup_lt_Some in Hs; lia).
    destruct (RayCaster.fullchip_result_pixel fit loc L binning gx gy i s0 d Hs Hd Hi)
      as [Hst Hen].
    fold r in Hst, Hen.
    destruct Hok as (_ & _ & He & Hs' & _).
    unfold ray_start_at, ray_end_at in Hst, Hen. rewrite He in Hen. rewrite Hs' in Hst.
    exact (Hat i _ _ Hen Hst).
  - intros QCoords. unfold RayData.get_ray_lengths. rewrite HRL. cbn [bind].
    unfold RayData.whole_image. cbn [r RayCaster.fullchip_result RayData.fullchip
                                     RayData.truthy RayData.transform RayData.binning
                                     of_option bind].
    now destruct (String.eqb (lower QCoords) "display").
Qed.

(** X21. After a cast that held a pixel with a NaN coordinate, no
    direction can be asked for by pixel: every query of
    [get_ray_directions] for one pixel or more fails with the
    no-nearby-ray error, whatever the pixel and the tolerance. *)
Theorem directions_after_an_invalid_pixel
    original_to_display_coords fullchip_pixels uninitialised shuffle
    display_to_original_image original_lengths_of_one original_directions_of_one
    self fit loc L x y binning Coords (k : nat) a b :
  RayCaster.configured self fit loc L ->
  RayCaster.pixels_ok original_to_display_coords fit Coords x y ->
  RayCaster.row_per_pixel fit ->
  RayCaster.is_shuffle shuffle ->
  data x !! k = Some a -> data y !! k = Some b ->
  F64.isnan a || F64.isnan b = true ->
  exists r,
    RayCaster.raycast_pixels original_to_display_coords fullchip_pixels
      uninitialised shuffle self (Some x) (Some y) binning Coords = Ok r /\
    forall qx qy dqx dqy tol QCoords,
      RayData.query_ok original_to_display_coords r QCoords qx qy dqx dqy ->
      0 < size dqx ->
      RayData.get_ray_directions original_to_display_coords display_to_original_image
      original_lengths_of_one original_directions_of_one
        r (Some qx) (Some qy) tol QCoords = Err NoNearbyRay.
Proof.
  intros Hc Hp Hr Hs Ha Hb Hnan.
  set (r := RayCaster.cast_result original_to_display_coords fit loc L x y Coords).
  destruct (RayCaster.cast_result_stored_ok original_to_display_coords
              fit loc L x y Coords Hp Hr) as (sx & sy & e & s & Hok & _ & Hdx & _).
  fold r in Hok.
  exists r. split; [now apply RayCaster.raycast_pixels_spec|].
  intros qx qy dqx dqy tol QCoords Hq Hpos.
  apply (RayData.get_ray_directions_nan_stored original_to_display_coords
           display_to_original_image original_lengths_of_one
           original_directions_of_one r sx sy e s qx qy dqx dqy tol QCoords k Hok Hq Hpos).
  left. rewrite Hdx.
  destruct (RayCaster.cast_result_pixel original_to_display_coords fit loc L x y Coords
              k a b Hp Hr Ha Hb) as (px & py & _ & _ & Hpx & _).
  rewrite (RayCaster.lookup_masked F64.nan _ _ k px _ Hpx
             (RayCaster.lookup_valid_mask_of x y k a b Ha Hb)).
  destruct (F64.isnan a), (F64.isnan b); try discriminate; reflexivity.
Qed.

(** X22. The ray data of a cast of a flat or two-dimensional array of
    pixels, by a camera whose sensor size fits 32-bit integers, can be
    saved wherever the file can be opened.  Loading the file succeeds
    exactly when [eval] and [set_transform_actions] make a transformer
    of the text of the action names, and then gives ray data of the same
    shapes that are not those of a full-chip cast.  A pixel that had a NaN
    coordinate keeps NaN as its start and end coordinates, but its pixel
    coordinates come back as the most negative 32-bit integer, which is
    what the conversion of NaN to an integer yields on x86-64; every
    other pixel comes back with its coordinates cut down to integers and
    its start and end coordinates rounded to binary32. *)
Theorem cast_saved_and_loaded
    original_to_display_coords fullchip_pixels uninitialised shuffle
    nc_path openable new_transformer set_transform_actions eval_other
    self fit loc L x y binning Coords SaveName (d : disk) :
  RayCaster.configured self fit loc L ->
  RayCaster.pixels_ok original_to_display_coords fit Coords x y ->
  RayCaster.row_per_pixel fit ->
  RayCaster.is_shuffle shuffle ->
  length (shape x) = 1 \/ length (shape x) = 2 ->
  F64.in_int32 (x_pixels (transform fit)) = true ->
  F64.in_int32 (y_pixels (transform fit)) = true ->
  openable (nc_path SaveName) = true ->
  exists r d',
    RayCaster.raycast_pixels original_to_display_coords fullchip_pixels
      uninitialised shuffle self (Some x) (Some y) binning Coords = Ok r /\
    RayData.save nc_path openable r SaveName d = (Ok tt, d') /\
    (forall err,
       RayData.set_actions_from new_transformer set_transform_actions eval_other
         (serialize_list (transform_actions (transform fit))) = Err err ->
       RayData.load nc_path new_transformer set_transform_actions eval_other
         SaveName d' = Err err) /\
    forall T',
      RayData.set_actions_from new_transformer set_transform_actions eval_other
        (serialize_list (transform_actions (transform fit))) = Ok T' ->
      exists r',
        RayData.load nc_path new_transformer set_transform_actions eval_other
          SaveName d' = Ok r' /\
        shape <$> RayData.x r' = Some (shape x) /\
        shape <$> RayData.y r' = Some (shape x) /\
        shape <$> RayData.ray_start_coords r' = Some (shape x ++ [3]) /\
        shape <$> RayData.ray_end_coords r' = Some (shape x ++ [3]) /\
        RayData.binning r' = None /\ RayData.fullchip r' = Some false /\
        forall (i : nat) a b, data x !! i = Some a -> data y !! i = Some b ->
          if F64.isnan a || F64.isnan b then
            ray_start_at r' i = Some vnan /\ ray_end_at r' i = Some vnan /\
            pixel_x_at r' i = Some F64.int32_min /\
            pixel_y_at r' i = Some F64.int32_min
          else
            exists px py s e,
              pixel_x_at r i = Some px /\ pixel_y_at r i = Some py /\
              ray_start_at r i = Some s /\ ray_end_at r i = Some e /\
              pixel_x_at r' i = Some (F64.to_i32 px) /\
              pixel_y_at r' i = Some (F64.to_i32 py) /\
              ray_start_at r' i = Some (vmap F64.to_f32 s) /\
              ray_end_at r' i = Some (vmap F64.to_f32 e).
Proof.
  intros Hc Hp Hr Hs Hrank Hxp Hyp Hopen.
  set (r := RayCaster.cast_result original_to_display_coords fit loc L x y Coords).
  destruct (RayCaster.cast_result_stored_ok original_to_display_coords
              fit loc L x y Coords Hp Hr) as (sx & sy & e & s & Hok & Hsh & _).
  fold r in Hok.
  destruct (RayCaster.cast_result_meta original_to_display_coords fit loc L x y Coords)
    as (Hfull & Hbin & HT & Hrt).
  fold r in Hfull, Hbin, HT, Hrt.
  destruct Hok as (Hx & Hy & He & Hst & Wsx & Wsy & We & Ws & Ssy & Se & Ss).
  assert (Hw : RayData.writable r sx sy e s (transform fit) "PixelRayCast").
  { unfold RayData.writable. rewrite Hbin, Hsh.
    repeat (split; [assumption || congruence|]). assumption. }
  destruct (RayData.load_save_as_read nc_path openable new_transformer
              set_transform_actions eval_other r sx sy e s (transform fit)
              "PixelRayCast" SaveName d Hw Hopen) as (f & _ & Hsave & Hload).
  exists r, (<[nc_path SaveName := Some f]> d).
  split; [now apply RayCaster.raycast_pixels_spec|].
  split; [exact Hsave|]. split.
  { intros err Herr. rewrite Hload, Herr. reflexivity. }
  intros T' HT'. rewrite HT' in Hload. cbn [bind] in Hload.
  eexists. split; [exact Hload|].
  unfold RayData.reloaded_as.
  cbn [RayData.x RayData.y RayData.ray_start_coords RayData.ray_end_coords
       RayData.binning RayData.fullchip fmap option_fmap option_map amap shape].
  rewrite Ssy, Se, Ss, Hsh, Hbin, Hfull.
  repeat (split; [reflexivity|]).
  intros i a b Ha Hb.
  destruct (RayCaster.cast_result_pixel original_to_display_coords fit loc L x y Coords
              i a b Hp Hr Ha Hb) as (px & py & s0 & dd & _ & _ & _ & _ & Hcase).
  fold r in Hcase.
  unfold ray_start_at, ray_end_at, pixel_x_at, pixel_y_at in *.
  rewrite He, Hst, Hx, Hy in Hcase.
  cbn [mbind option_bind] in Hcase.
  cbn [RayData.x RayData.y RayData.ray_start_coords RayData.ray_end_coords
       mbind option_bind].
  rewrite He, Hst, Hx, Hy. cbn [mbind option_bind].
  fold (amap F64.to_f32 s). fold (amap F64.to_f32 e).
  rewrite !vec_at_amap. cbn [amap data]. rewrite !list_lookup_fmap.
  destruct (F64.isnan a || F64.isnan b).
  - destruct Hcase as (-> & -> & -> & ->). repeat split.
  - destruct Hcase as (Hs0 & He0 & Hpx & Hpy).
    exists px, py, s0, (RayCaster.ray_end_of loc L s0 dd).
    rewrite Hs0, He0, Hpx, Hpy. repeat split.
Qed.

(** ** The theorems above on the demo data *)

Lemma no_rays_stored_ok :
  RayData.stored_ok Demo.no_rays
    (mk_ndarray [0] []) (mk_ndarray [0] [])
    (mk_ndarray [0; 3] []) (mk_ndarray [0; 3] []).
Proof. repeat split. Qed.

Lemma scalar_ray_stored_ok :
  RayData.stored_ok Demo.scalar_ray
    (mk_ndarray [] [Demo.num 10]) (mk_ndarray [] [Demo.num 10])
    (mk_ndarray [3] (data (of_rows [Demo.vec 3 4 0])))
    (mk_ndarray [3] (data (of_rows [Demo.vec 0 0 0]))).
Proof. repeat split. Qed.

Lemma untransformed_rays_writable :
  RayData.writable Demo.untransformed_rays
    (mk_ndarray [2] [Demo.num 10; Demo.num 20])
    (mk_ndarray [2] [Demo.num 10; Demo.num 20])
    (mk_ndarray [2; 3] (data (of_rows [Demo.vec 3 4 0; Demo.vec 0 7 0])))
    (mk_ndarray [2; 3] (data (of_rows [Demo.vec 0 0 0; Demo.vec 0 0 0])))
    Demo.untransformed "PixelRayCast".
Proof. repeat split; try reflexivity. left. reflexivity. Qed.

Lemma two_rays_savable :
  RayData.savable Demo.two_rays
    (mk_ndarray [2] [Demo.num 10; Demo.num 20])
    (mk_ndarray [2] [Demo.num 10; Demo.num 20])
    (mk_ndarray [2; 3] (data (of_rows [Demo.vec 3 4 0; Demo.vec 0 7 0])))
    (mk_ndarray [2; 3] (data (of_rows [Demo.vec 0 0 0; Demo.vec 0 0 0])))
    Demo.transformer "PixelRayCast".
Proof. repeat split; try reflexivity. left. reflexivity. discriminate. Qed.

Lemma get_ray_lengths_whole_image_witness :
  exists RL,
    Demo.get_ray_lengths Demo.two_rays None None RayData.PositionTol_default "Original"
      = Ok RL /\
    shape RL = [2] /\
    data RL !! 0 = Some (Demo.num 5) /\ data RL !! 1 = Some (Demo.num 7).
Proof.
  destruct (RayData.get_ray_lengths_whole_image Demo.original_to_display_coords
              Demo.display_to_original_image
              Demo.original_lengths_of_one Demo.two_rays _ _ _ _
              RayData.PositionTol_default "Original" two_rays_stored_ok)
    as (RL & Hs & _ & Hat & _ & Hrun).
  exists RL. split; [exact Hrun|]. split; [exact Hs|]. split.
  - rewrite (Hat 0 (Demo.vec 3 4 0) (Demo.vec 0 0 0) eq_refl eq_refl).
    vm_compute. reflexivity.
  - rewrite (Hat 1 (Demo.vec 0 7 0) (Demo.vec 0 0 0) eq_refl eq_refl).
    vm_compute. reflexivity.
Defined.

Lemma get_ray_directions_whole_image_witness :
  exists dirs,
    Demo.get_ray_directions Demo.rays_with_nan None None RayData.PositionTol_default
      "Display" = Ok dirs /\
    shape dirs = [3; 3] /\
    vec_at dirs 1 = Some (Demo.vec 0 1 0) /\ vec_at dirs 2 = Some vnan.
Proof.
  destruct (RayData.get_ray_directions_whole_image Demo.original_to_display_coords
              Demo.display_to_original_image
              Demo.original_lengths_of_one Demo.original_directions_of_one Demo.rays_with_nan _ _ _ _
              RayData.PositionTol_default "Display" rays_with_nan_stored_ok)
    as (dirs & Hs & _ & Hat & Hnan & Hrun).
  exists dirs. split; [exact Hrun|]. split; [exact Hs|]. split.
  - rewrite (Hat 1 (Demo.vec 0 7 0) (Demo.vec 0 0 0) eq_refl eq_refl).
    vm_compute. reflexivity.
  - exact (Hnan 2 vnan eq_refl eq_refl).
Defined.

Lemma queries_coords_name_witness :
  Demo.get_ray_lengths Demo.two_rays
    (Some (mk_ndarray [1] [Demo.num 11])) (Some (mk_ndarray [1] [Demo.num 11]))
    RayData.PositionTol_default "pixels"
  = Demo.get_ray_lengths Demo.two_rays
      (Some (mk_ndarray [1] [Demo.num 11])) (Some (mk_ndarray [1] [Demo.num 11]))
      RayData.PositionTol_default "Display" /\
  Demo.get_ray_lengths Demo.two_rays None None RayData.PositionTol_default "pixels"
  = Demo.get_ray_lengths Demo.two_rays None None RayData.PositionTol_default "Original".
Proof.
  destruct (proj2 (RayData.queries_coords_name Demo.original_to_display_coords
                     Demo.display_to_original_image
              Demo.original_lengths_of_one Demo.original_directions_of_one Demo.two_rays None None
                     RayData.PositionTol_default)
              "pixels" (mk_ndarray [1] [Demo.num 11]) (mk_ndarray [1] [Demo.num 11])
              eq_refl eq_refl) as (H1 & _ & H3 & _).
  split; [exact H1|exact H3].
Defined.

Lemma queries_check_order_witness :
  Demo.get_ray_lengths RayData.empty None None RayData.PositionTol_default "Display"
    = Err TypeError /\
  Demo.get_ray_directions Demo.two_rays
    (Some (mk_ndarray [1] [Demo.num 11])) (Some (mk_ndarray [2] [Demo.num 11; Demo.num 11]))
    RayData.PositionTol_default "Display" = Err ShapeMismatch.
Proof.
  split.
  - apply (proj1 (RayData.queries_check_order Demo.original_to_display_coords
                    Demo.display_to_original_image
              Demo.original_lengths_of_one Demo.original_directions_of_one RayData.empty None None
                    RayData.PositionTol_default "Display")).
    now left.
  - destruct (RayData.ray_directions_spec Demo.original_to_display_coords
                Demo.display_to_original_image
              Demo.original_lengths_of_one Demo.two_rays _ _ _ _ two_rays_stored_ok)
      as (dirs & Hd & _).
    apply (proj2 (RayData.queries_check_order Demo.original_to_display_coords
                    Demo.display_to_original_image
              Demo.original_lengths_of_one Demo.original_directions_of_one Demo.two_rays _ _
                    RayData.PositionTol_default "Display")
             (mk_ndarray [2] [Demo.num 5; Demo.num 7]) dirs _ _
             eq_refl Hd eq_refl eq_refl); [eexists; reflexivity..|discriminate].
Defined.

Lemma queries_of_no_pixel_witness :
  Demo.get_ray_lengths Demo.two_rays
    (Some (mk_ndarray [2; 0] [])) (Some (mk_ndarray [2; 0] []))
    RayData.PositionTol_default "Display" = Ok (mk_ndarray [2; 0] []) /\
  Demo.get_ray_directions Demo.two_rays
    (Some (mk_ndarray [2; 0] [])) (Some (mk_ndarray [2; 0] []))
    RayData.PositionTol_default "Display" = Ok (mk_ndarray [2; 0; 3] []).
Proof.
  apply (RayData.queries_of_no_pixel Demo.original_to_display_coords
           Demo.display_to_original_image
              Demo.original_lengths_of_one Demo.original_directions_of_one Demo.two_rays _ _ _ _
           (mk_ndarray [2; 0] []) (mk_ndarray [2; 0] [])
           (mk_ndarray [2; 0] []) (mk_ndarray [2; 0] [])
           RayData.PositionTol_default "Display" two_rays_stored_ok).
  - repeat split.
  - reflexivity.
Defined.

Lemma queries_on_no_stored_pixel_witness :
  Demo.get_ray_lengths Demo.no_rays
    (Some (mk_ndarray [1] [Demo.num 1])) (Some (mk_ndarray [1] [Demo.num 1]))
    RayData.PositionTol_default "Display" = Err ValueError /\
  Demo.get_ray_directions Demo.no_rays
    (Some (mk_ndarray [1] [Demo.num 1])) (Some (mk_ndarray [1] [Demo.num 1]))
    RayData.PositionTol_default "Display" = Err ValueError.
Proof.
  destruct (RayData.queries_on_no_stored_pixel Demo.original_to_display_coords
              Demo.display_to_original_image
              Demo.original_lengths_of_one Demo.original_directions_of_one Demo.no_rays _ _ _ _ _ _ _ _
              RayData.PositionTol_default "Display" no_rays_stored_ok
              (one_pixel_query_ok Demo.no_rays (Demo.num 1) (Demo.num 1)) eq_refl)
    as [Hlen Hdir].
  split.
  - apply Hlen. exists 0, (Demo.num 1), (Demo.num 1). repeat split.
  - apply Hdir. vm_compute. lia.
Defined.

Lemma queries_with_bad_tolerance_witness :
  Demo.get_ray_lengths Demo.two_rays
    (Some (mk_ndarray [1] [Demo.num 10])) (Some (mk_ndarray [1] [Demo.num 10]))
    (Demo.num (-1)) "Display" = Err NoNearbyRay /\
  Demo.get_ray_directions Demo.two_rays
    (Some (mk_ndarray [1] [Demo.num 10])) (Some (mk_ndarray [1] [Demo.num 10]))
    F64.nan "Display" = Err NoNearbyRay.
Proof.
  split.
  - apply (proj1 (RayData.queries_with_bad_tolerance Demo.original_to_display_coords
                    Demo.display_to_original_image
              Demo.original_lengths_of_one Demo.original_directions_of_one Demo.two_rays _ _ _ _ _ _ _ _
                    (Demo.num (-1)) "Display" two_rays_stored_ok
                    (one_pixel_query_ok Demo.two_rays (Demo.num 10) (Demo.num 10))
                    ltac:(vm_compute; lia) eq_refl)).
    exists 0, (Demo.num 10), (Demo.num 10). repeat split.
  - apply (proj2 (RayData.queries_with_bad_tolerance Demo.original_to_display_coords
                    Demo.display_to_original_image
              Demo.original_lengths_of_one Demo.original_directions_of_one Demo.two_rays _ _ _ _ _ _ _ _
                    F64.nan "Display" two_rays_stored_ok
                    (one_pixel_query_ok Demo.two_rays (Demo.num 10) (Demo.num 10))
                    ltac:(vm_compute; lia) eq_refl)).
    vm_compute. lia.
Defined.

Lemma get_ray_lengths_at_stored_pixel_witness :
  exists out,
    Demo.get_ray_lengths Demo.two_rays
      (Some (mk_ndarray [1] [Demo.num 20])) (Some (mk_ndarray [1] [Demo.num 20]))
      RayData.PositionTol_default "Display" = Ok out /\
    data out !! 0 = Some (Demo.num 7).
Proof.
  destruct (RayData.get_ray_lengths_at_stored_pixel
              Demo.original_to_display_coords Demo.display_to_original_image
              Demo.original_lengths_of_one
              Demo.two_rays _ _ _ _
              (mk_ndarray [2] [Demo.num 5; Demo.num 7])
              _ _ _ _ RayData.PositionTol_default "Display" 0 1
              (Demo.num 20) (Demo.num 20)
              two_rays_stored_ok eq_refl
              (one_pixel_query_ok Demo.two_rays (Demo.num 20) (Demo.num 20))
              eq_refl eq_refl)
    as (out & r & Hout & Hr & Hp); try reflexivity.
  - intros q a b Hq. apply one_pixel_query in Hq as (-> & -> & ->).
    apply RayData.within_existsb. vm_compute. reflexivity.
  - intros j' w Hlt Hw. destruct j' as [|j']; [|lia].
    vm_compute in Hw. injection Hw as <-. vm_compute. reflexivity.
  - exists out. split; [exact Hout|].
    vm_compute in Hr. injection Hr as <-. exact Hp.
Defined.

Lemma queries_with_larger_tolerance_witness :
  Demo.get_ray_lengths Demo.two_rays
    (Some (mk_ndarray [1] [Demo.num 11])) (Some (mk_ndarray [1] [Demo.num 11]))
    (Demo.num 3) "Display" = Ok (mk_ndarray [1] [Demo.num 5]) /\
  Demo.get_ray_lengths Demo.two_rays
    (Some (mk_ndarray [1] [Demo.num 11])) (Some (mk_ndarray [1] [Demo.num 11]))
    (Demo.num 100) "Display" = Ok (mk_ndarray [1] [Demo.num 5]).
Proof.
  assert (H : Demo.get_ray_lengths Demo.two_rays
                (Some (mk_ndarray [1] [Demo.num 11])) (Some (mk_ndarray [1] [Demo.num 11]))
                (Demo.num 3) "Display" = Ok (mk_ndarray [1] [Demo.num 5]))
    by (vm_compute; reflexivity).
  split; [exact H|].
  exact (proj1 (RayData.queries_with_larger_tolerance Demo.original_to_display_coords
                  Demo.display_to_original_image
              Demo.original_lengths_of_one Demo.original_directions_of_one Demo.two_rays
                  (Some (mk_ndarray [1] [Demo.num 11]))
                  (Some (mk_ndarray [1] [Demo.num 11]))
                  (Demo.num 3) (Demo.num 100) "Display"
                  (mk_ndarray [1] [Demo.num 5]) eq_refl) H).
Defined.

Lemma raycast_pixels_of_given_pixels_witness :
  RayCaster.raycast_pixels Demo.original_to_display_coords Demo.fullchip_pixels
    Demo.junk (@rev nat) Demo.caster (Some Demo.x) (Some Demo.y) 1 "Display"
  = RayCaster.raycast_pixels Demo.original_to_display_coords Demo.fullchip_pixels
      Demo.junk (@rev nat) Demo.caster (Some Demo.x) (Some Demo.y) 8 "Display".
Proof.
  exact (proj1 (RayCaster.raycast_pixels_of_given_pixels Demo.original_to_display_coords
                  Demo.fullchip_pixels Demo.junk (@rev nat) Demo.caster
                  Demo.x Demo.y 1 "Display") 8%Z).
Defined.

Lemma one_pixel_lookup (a b : float) (p : nat) (a' b' : float) :
  data (mk_ndarray [1] [a]) !! p = Some a' -> data (mk_ndarray [1] [b]) !! p = Some b' ->
  p = 0 /\ a' = a /\ b' = b.
Proof.
  cbn [data]. intros Ha Hb.
  apply list_lookup_singleton_Some in Ha as [-> <-].
  apply list_lookup_singleton_Some in Hb as [_ <-]. auto.
Qed.

Lemma get_ray_directions_nearest_witness :
  (exists out,
     Demo.get_ray_directions Demo.two_rays
       (Some (mk_ndarray [1] [Demo.num 11])) (Some (mk_ndarray [1] [Demo.num 11]))
       RayData.PositionTol_default "Display" = Ok out /\
     shape out = [1; 3] /\
     vec_at out 0 = Some (RayData.ray_direction (Demo.vec 3 4 0) (Demo.vec 0 0 0))) /\
  Demo.get_ray_directions Demo.two_rays
    (Some (mk_ndarray [1] [Demo.num 15])) (Some (mk_ndarray [1] [Demo.num 15]))
    RayData.PositionTol_default "Display" = Err NoNearbyRay.
Proof.
  split.
  - destruct (proj1 (RayData.get_ray_directions_nearest
                       Demo.original_to_display_coords Demo.display_to_original_image
              Demo.original_lengths_of_one Demo.original_directions_of_one
                       Demo.two_rays _ _ _ _ _ _ _ _ RayData.PositionTol_default "Display"
                       two_rays_stored_ok
                       (one_pixel_query_ok Demo.two_rays (Demo.num 11) (Demo.num 11))
                       ltac:(intros p a b Ha Hb;
                             destruct (one_pixel_lookup _ _ _ _ _ Ha Hb) as (-> & -> & ->);
                             repeat constructor)))
      as (out & Hout & Hs & _).
    + intros p a b Ha Hb.
      destruct (one_pixel_lookup _ _ _ _ _ Ha Hb) as (-> & -> & ->).
      apply RayData.within_existsb. vm_compute. reflexivity.
    + exists out. split; [exact Hout|]. split; [exact Hs|].
      vm_compute in Hout. injection Hout as <-. reflexivity.
  - apply (proj2 (RayData.get_ray_directions_nearest
                    Demo.original_to_display_coords Demo.display_to_original_image
              Demo.original_lengths_of_one Demo.original_directions_of_one
                    Demo.two_rays _ _ _ _ _ _ _ _ RayData.PositionTol_default "Display"
                    two_rays_stored_ok
                    (one_pixel_query_ok Demo.two_rays (Demo.num 15) (Demo.num 15))
                    ltac:(intros p a b Ha Hb;
                          destruct (one_pixel_lookup _ _ _ _ _ Ha Hb) as (-> & -> & ->);
                          repeat constructor))).
    exists 0, (Demo.num 15), (Demo.num 15).
    split; [reflexivity|]. split; [reflexivity|]. split; [discriminate|].
    rewrite RayData.within_existsb. vm_compute. discriminate.
Defined.

Lemma save_touches_one_file_witness :
  Demo.save Demo.two_rays "missing/demo" ∅ = (Err OSError, ∅) /\
  exists err,
    fst (Demo.save Demo.scalar_ray "one" {[ Demo.nc_path "other" := None ]}) = Err err /\
    snd (Demo.save Demo.scalar_ray "one" {[ Demo.nc_path "other" := None ]})
      !! Demo.nc_path "other" = Some None /\
    Demo.load "one"
      (snd (Demo.save Demo.scalar_ray "one" {[ Demo.nc_path "other" := None ]}))
    = Err CorruptOrIncompatible.
Proof.
  split.
  - exact (proj1 (RayData.save_touches_one_file Demo.nc_path Demo.openable
                    Demo.new_transformer Demo.set_transform_actions Demo.eval_other
                    Demo.two_rays "missing/demo" ∅) eq_refl).
  - destruct (proj2 (RayData.save_touches_one_file Demo.nc_path Demo.openable
                       Demo.new_transformer Demo.set_transform_actions
                       Demo.eval_other Demo.scalar_ray "one"
                       {[ Demo.nc_path "other" := None ]}) eq_refl)
      as (Hframe & _ & Hfail).
    destruct Hfail as (err & H1 & _ & H3).
    { right. right. right. exists (mk_ndarray [] [Demo.num 10]).
      split; [reflexivity|]. split; discriminate. }
    exists err. split; [exact H1|]. split; [|exact H3].
    unfold Demo.save. rewrite Hframe by discriminate. apply lookup_singleton_eq.
Defined.

Lemma save_accepts_two_ranks_witness :
  Demo.save Demo.scalar_ray "one" ∅
    = (Err UnsupportedShape, <[Demo.nc_path "one" := None]> ∅) /\
  exists f, Demo.save Demo.two_rays "two" ∅ = (Ok tt, <[Demo.nc_path "two" := Some f]> ∅).
Proof.
  split.
  - apply (proj2 (RayData.save_accepts_two_ranks Demo.nc_path Demo.openable
                    Demo.scalar_ray _ _ _ _
                    Demo.transformer "PixelRayCast" "one" ∅
                    scalar_ray_stored_ok eq_refl eq_refl eq_refl)); discriminate.
  - destruct (proj1 (RayData.save_accepts_two_ranks Demo.nc_path Demo.openable
                       Demo.two_rays _ _ _ _
                       Demo.transformer "PixelRayCast" "two" ∅
                       two_rays_stored_ok eq_refl eq_refl eq_refl) (or_introl eq_refl))
      as (f & _ & Hf).
    exists f. exact Hf.
Defined.

(** With a [set_transform_actions] that keeps the names it is given, the
    camera without actions comes back with one action, the empty name. *)
Lemma load_save_no_actions_witness :
  exists f r',
    Demo.save Demo.untransformed_rays "plain" ∅
      = (Ok tt, <[Demo.nc_path "plain" := Some f]> ∅) /\
    attributes f !! "image_transform_actions"%string = Some "['']"%string /\
    Demo.load "plain" (<[Demo.nc_path "plain" := Some f]> ∅) = Ok r' /\
    transform_actions <$> RayData.transform Demo.untransformed_rays = Some [] /\
    transform_actions <$> RayData.transform r' = Some [""%string].
Proof.
  destruct (RayData.load_save_no_actions Demo.nc_path Demo.openable
              Demo.new_transformer Demo.set_transform_actions Demo.eval_other
              Demo.untransformed_rays _ _ _ _
              Demo.untransformed "PixelRayCast" "plain" ∅
              untransformed_rays_writable eq_refl eq_refl)
    as (f & Htext & Hsave & Hload & _).
  unfold Demo.set_transform_actions in Hload. cbn [bind] in Hload.
  exists f. eexists. split; [exact Hsave|]. split; [exact Htext|].
  split; [exact Hload|]. split; reflexivity.
Defined.

Lemma loaded_ray_data_witness :
  exists d' r,
    Demo.save Demo.two_rays "demo" ∅ = (Ok tt, d') /\
    RayData.init Demo.nc_path Demo.new_transformer Demo.set_transform_actions
      Demo.eval_other (Some "demo"%string) d' = Ok r /\
    is_Some (RayData.transform r) /\
    RayData.binning r = None /\ RayData.fullchip r = Some false.
Proof.
  destruct (RayData.load_save_reloaded Demo.nc_path Demo.openable
              Demo.new_transformer Demo.set_transform_actions Demo.eval_other
              Demo.two_rays _ _ _ _
              Demo.transformer
              {| transform_actions := ["flip_up_down"%string];
                 x_pixels := 0; y_pixels := 0;
                 pixel_aspectratio := Demo.num 1 |}
              "PixelRayCast" "demo" ∅ two_rays_savable eq_refl eq_refl)
    as (d' & Hsave & Hload).
  destruct (RayData.loaded_ray_data Demo.nc_path Demo.new_transformer
              Demo.set_transform_actions Demo.eval_other "demo" d' _ Hload)
    as (_ & _ & _ & _ & HT & _ & Hb).
  eexists d', _. split; [exact Hsave|]. split; [exact Hload|].
  split; [exact HT|]. split; [reflexivity|exact Hb].
Defined.

Lemma raycast_pixels_fullchip_witness :
  exists r log,
    RayCaster.raycast_pixels_log Demo.original_to_display_coords Demo.chip Demo.junk
      (@rev nat) Demo.caster None None 2 "Display" = Ok (r, log) /\
    log ≡ₚ [0; 1] /\
    RayData.binning r = Some 2%Z /\ RayData.fullchip r = Some true /\
    shape <$> RayData.x r = Some [1; 2] /\
    shape <$> RayData.ray_end_coords r = Some [1; 2; 3].
Proof.
  destruct (RayCaster.raycast_pixels_fullchip Demo.original_to_display_coords
              Demo.chip Demo.junk (@rev nat) Demo.caster Demo.fit Demo.locator
              (Demo.num 4) 2 "Display" _ _
              demo_configured eq_refl eq_refl eq_refl eq_refl
              demo_row_per_pixel rev_is_shuffle)
    as (r & log & Hrun & Hlog & Hb & Hf & Hx & _ & _ & _ & _ & He & _).
  exists r, log. split; [exact Hrun|]. split; [exact Hlog|].
  split; [exact Hb|]. split; [exact Hf|]. split; [now rewrite Hx|exact He].
Defined.

Lemma raycast_pixels_checks_witness :
  RayCaster.raycast_pixels Demo.original_to_display_coords Demo.fullchip_pixels
    Demo.junk (@rev nat) (RayCaster.init true)
    (Some Demo.x) (Some (mk_ndarray [4] (data Demo.y))) 1 "Display"
  = Err NotConfigured /\
  RayCaster.raycast_pixels Demo.original_to_display_coords Demo.fullchip_pixels
    Demo.junk (@rev nat) Demo.caster
    (Some Demo.x) (Some (mk_ndarray [4] (data Demo.y))) 1 "Display"
  = Err ShapeMismatch.
Proof.
  split.
  - apply (proj1 (RayCaster.raycast_pixels_checks Demo.original_to_display_coords
                    Demo.fullchip_pixels Demo.junk (@rev nat) (RayCaster.init true)
                    (Some Demo.x) (Some (mk_ndarray [4] (data Demo.y))) 1 "Display")).
    now left.
  - apply (proj2 (RayCaster.raycast_pixels_checks Demo.original_to_display_coords
                    Demo.fullchip_pixels Demo.junk (@rev nat) Demo.caster
                    (Some Demo.x) (Some (mk_ndarray [4] (data Demo.y))) 1 "Display")).
    split; [eexists; reflexivity|]. split; [eexists; reflexivity|discriminate].
Defined.

Lemma built_caster_is_configured_witness :
  exists cad,
    Demo.locator = get_vtkCellLocator cad /\
    RayCaster.machine_name Demo.caster = Some (cad_machine_name cad) /\
    RayCaster.configured Demo.caster Demo.fit Demo.locator (cad_max_ray_length cad).
Proof.
  exact (RayCaster.built_caster_is_configured Demo.caster Demo.fit Demo.locator
           (RayCaster.built_set_calibration _ _
              (RayCaster.built_set_cadmodel _ _ (RayCaster.built_new None None false)))
           eq_refl eq_refl).
Defined.

Lemma lengths_of_a_cast_witness :
  exists r RL,
    RayCaster.raycast_pixels Demo.original_to_display_coords Demo.fullchip_pixels
      Demo.junk (@rev nat) Demo.caster (Some Demo.x) (Some Demo.y) 1 "Display" = Ok r /\
    Demo.get_ray_lengths r None None RayData.PositionTol_default "Display" = Ok RL /\
    shape RL = [2; 2] /\
    data RL !! 1 = Some F64.nan /\ data RL !! 3 = Some F64.nan.
Proof.
  destruct (lengths_of_a_cast Demo.original_to_display_coords Demo.fullchip_pixels
              Demo.junk (@rev nat) Demo.display_to_original_image
              Demo.original_lengths_of_one
              Demo.caster Demo.fit Demo.locator (Demo.num 4) Demo.x Demo.y 1 "Display"
              RayData.PositionTol_default "Display"
              demo_configured demo_pixels_ok demo_row_per_pixel rev_is_shuffle)
    as (r & RL & Hrun & Hlen & Hs & Hat).
  exists r, RL. split; [exact Hrun|]. split; [exact Hlen|]. split; [exact Hs|].
  split.
  - exact (Hat 1 F64.nan (Demo.num 0) eq_refl eq_refl).
  - exact (Hat 3 (Demo.num 3) F64.nan eq_refl eq_refl).
Defined.

Lemma lengths_of_a_fullchip_cast_witness :
  exists r RL,
    RayCaster.raycast_pixels Demo.original_to_display_coords Demo.chip Demo.junk
      (@rev nat) Demo.caster None None 2 "Display" = Ok r /\
    shape RL = [1; 2] /\
    Demo.get_ray_lengths r None None RayData.PositionTol_default "DISPLAY" = Ok RL /\
    Demo.get_ray_lengths r None None RayData.PositionTol_default "Original"
      = Ok (Demo.display_to_original_image Demo.transformer RL (Some 2%Z)).
Proof.
  destruct (lengths_of_a_fullchip_cast Demo.original_to_display_coords Demo.chip
              Demo.junk (@rev nat) Demo.display_to_original_image
              Demo.original_lengths_of_one
              Demo.caster Demo.fit Demo.locator (Demo.num 4) 2 "Display" _ _
              RayData.PositionTol_default
              demo_configured eq_refl eq_refl eq_refl eq_refl
              demo_row_per_pixel rev_is_shuffle)
    as (r & RL & Hrun & Hs & _ & Hq).
  exists r, RL. split; [exact Hrun|]. split; [exact Hs|].
  split; [exact (Hq "DISPLAY"%string)|exact (Hq "Original"%string)].
Defined.

Lemma directions_after_an_invalid_pixel_witness :
  exists r,
    RayCaster.raycast_pixels Demo.original_to_display_coords Demo.fullchip_pixels
      Demo.junk (@rev nat) Demo.caster (Some Demo.x) (Some Demo.y) 1 "Display" = Ok r /\
    Demo.get_ray_directions r
      (Some (mk_ndarray [1] [Demo.num 1])) (Some (mk_ndarray [1] [Demo.num 1]))
      RayData.PositionTol_default "Display" = Err NoNearbyRay.
Proof.
  destruct (directions_after_an_invalid_pixel Demo.original_to_display_coords
              Demo.fullchip_pixels Demo.junk (@rev nat) Demo.display_to_original_image
              Demo.original_lengths_of_one Demo.original_directions_of_one
              Demo.caster Demo.fit Demo.locator (Demo.num 4) Demo.x Demo.y 1 "Display"
              1 F64.nan (Demo.num 0)
              demo_configured demo_pixels_ok demo_row_per_pixel rev_is_shuffle
              eq_refl eq_refl eq_refl)
    as (r & Hrun & Hfail).
  exists r. split; [exact Hrun|].
  apply (Hfail _ _ _ _ _ _ (one_pixel_query_ok r (Demo.num 1) (Demo.num 1))).
  vm_compute. lia.
Defined.

Lemma cast_saved_and_loaded_witness :
  exists r d' r',
    RayCaster.raycast_pixels Demo.original_to_display_coords Demo.fullchip_pixels
      Demo.junk (@rev nat) Demo.caster (Some Demo.x) (Some Demo.y) 1 "Display" = Ok r /\
    Demo.save r "cast" ∅ = (Ok tt, d') /\
    Demo.load "cast" d' = Ok r' /\
    shape <$> RayData.x r' = Some [2; 2] /\
    pixel_x_at r 1 = Some F64.nan /\
    pixel_x_at r' 1 = Some (-2147483648)%Z /\
    ray_end_at r' 1 = Some vnan.
Proof.
  destruct (cast_saved_and_loaded Demo.original_to_display_coords Demo.fullchip_pixels
              Demo.junk (@rev nat) Demo.nc_path Demo.openable Demo.new_transformer
              Demo.set_transform_actions Demo.eval_other
              Demo.caster Demo.fit Demo.locator (Demo.num 4) Demo.x Demo.y 1 "Display"
              "cast" ∅
              demo_configured demo_pixels_ok demo_row_per_pixel rev_is_shuffle
              (or_intror eq_refl) eq_refl eq_refl eq_refl)
    as (r & d' & Hrun & Hsave & _ & Hloaded).
  destruct (Hloaded {| transform_actions := ["flip_up_down"%string];
                       x_pixels := 0; y_pixels := 0;
                       pixel_aspectratio := Demo.num 1 |} eq_refl)
    as (r' & Hload & Hsx & _ & _ & _ & _ & _ & Hat).
  exists r, d', r'. split; [exact Hrun|]. split; [exact Hsave|]. split; [exact Hload|].
  split; [exact Hsx|].
  destruct (Hat 1 F64.nan (Demo.num 0) eq_refl eq_refl) as (_ & He & Hx & _).
  split; [|split; [exact Hx|exact He]].
  vm_compute in Hrun. injection Hrun as <-. reflexivity.
Defined.
